(** * A shallow embedding of the bencoding codec and of the peer wire
      messages of the [bittorrent] package.

    Sources embedded here:
    - [bittorrent/bencoding/decode.py]   (class [Decoder], [decode])
    - [bittorrent/bencoding/encode.py]   (class [Encoder], [encode])
    - [bittorrent/messages/message.py]   (the message classes)
    - [bittorrent/messages/message_decoder.py] ([MessageDecoder])

    Python integers are [Z], byte strings are [list byte], exceptions are
    values of [exn] carried by the [outcome] monad, and the decoder's
    cursor [self._curr_index] is threaded explicitly. *)

From Stdlib Require Import ZArith List Bool Lia Ascii String.
From Stdlib Require Import Strings.Byte.
Import ListNotations.

Local Open Scope Z_scope.

(* ================================================================== *)
(** ** Exceptions and outcomes *)

(** The five [raise InvalidTorrentFileBencoding(...)] sites of
    [decode.py]; the position is the cursor the message is formatted with. *)
Inductive violation : Type :=
| MissingColon (pos : Z)        (* 'Expected to find a colon after string's length.' *)
| InvalidLength (pos : Z)       (* 'Expected a valid integer to indicate the string length.' *)
| MissingEnd (pos : Z)          (* 'Expected to find an "e" to delimit the integer.' *)
| LeadingZero (pos : Z)         (* 'Integers may not be represented with leading 0s.' *)
| InvalidInteger (pos : Z)      (* 'Could not coerce the following byte string to an integer' *)
| TrailingBytes.                (* 'The number of decoded bytes does not match ...' *)

Inductive exn : Type :=
| InvalidTorrentFileBencoding (v : violation)
| InvalidBencodeDataType
| InvalidMessageStructure (message : string)
| ValueError (message : string)
| TypeError
| KeyError
| IndexError
| UnicodeEncodeError
| UnicodeDecodeError
| StructError.

(** These are the exceptions the package raises or lets out of the
    library calls it makes.  [RecursionError], which the interpreter raises
    when calls nest deeper than [sys.getrecursionlimit()], and the
    [ValueError] of a conversion between [int] and text beyond
    [sys.get_int_max_str_digits()] digits are limits of the interpreter,
    not of the package: they are left out of the embedding, and the
    properties they bear on are stated within [within_limits] below. *)

(** [Diverged] is the answer of a fuel-bounded run that used all its fuel. *)
Inductive outcome (A : Type) : Type :=
| Ok (a : A)
| Raise (e : exn)
| Diverged.

Arguments Ok {A} a.
Arguments Raise {A} e.
Arguments Diverged {A}.

Definition bind {A B} (m : outcome A) (k : A -> outcome B) : outcome B :=
  match m with
  | Ok a => k a
  | Raise e => Raise e
  | Diverged => Diverged
  end.

Notation "x <- m ;; k" := (bind m (fun x => k))
  (at level 61, m at next level, right associativity).
Notation "' p <- m ;; k" := (bind m (fun p => k))
  (at level 61, p pattern, m at next level, right associativity).

(* ================================================================== *)
(** ** Python byte strings *)

Definition bytes := list byte.

(** A byte string literal: [b "4:spam"] is Python's [b'4:spam']. *)
Definition b (s : string) : bytes := list_byte_of_string s.

Definition len {A} (l : list A) : Z := Z.of_nat (List.length l).

Definition ord (c : byte) : Z := Z.of_N (Byte.to_N c).

Definition chr (n : Z) : byte :=
  match Byte.of_N (Z.to_N n) with
  | Some c => c
  | None => x00
  end.

(** [data[i]] for an integer [i]: negative indices count from the end. *)
Definition getitem (data : bytes) (i : Z) : outcome byte :=
  let j := if i <? 0 then i + len data else i in
  if (j <? 0) || (len data <=? j) then Raise IndexError
  else match nth_error data (Z.to_nat j) with
       | Some c => Ok c
       | None => Raise IndexError
       end.

(** Normalisation of a slice bound against a sequence of length [n]. *)
Definition adjust (n i : Z) : Z :=
  if i <? 0 then Z.max 0 (i + n) else Z.min i n.

(** [data[lo:hi]] *)
Definition slice (data : bytes) (lo hi : Z) : bytes :=
  let lo' := adjust (len data) lo in
  let hi' := adjust (len data) hi in
  firstn (Z.to_nat (hi' - lo')) (skipn (Z.to_nat lo') data).

Fixpoint index_of (c : byte) (l : bytes) : option nat :=
  match l with
  | [] => None
  | x :: r => if Byte.eqb x c then Some O
              else option_map S (index_of c r)
  end.

(** [data.find(c, start)] for a one-byte needle. *)
Definition find (data : bytes) (c : byte) (start : Z) : Z :=
  let s := adjust (len data) start in
  match index_of c (skipn (Z.to_nat s) data) with
  | Some k => s + Z.of_nat k
  | None => -1
  end.

(* ================================================================== *)
(** ** Python's [int(bytes)] and [str(int)] *)

Definition is_space (c : byte) : bool :=
  match c with
  | x20 | x09 | x0a | x0b | x0c | x0d => true
  | _ => false
  end.

Definition digit_value (c : byte) : option Z :=
  match c with
  | x30 => Some 0 | x31 => Some 1 | x32 => Some 2 | x33 => Some 3
  | x34 => Some 4 | x35 => Some 5 | x36 => Some 6 | x37 => Some 7
  | x38 => Some 8 | x39 => Some 9
  | _ => None
  end.

Definition is_digit (c : byte) : bool :=
  match digit_value c with Some _ => true | None => false end.

Fixpoint skip_spaces (s : bytes) : bytes :=
  match s with
  | c :: r => if is_space c then skip_spaces r else s
  | [] => []
  end.

(** The digit scan of [int()]: decimal digits with single underscores
    between them; returns the value read and the unread rest. *)
Fixpoint scan_digits (s : bytes) (prev_underscore : bool) (acc : Z)
  : option (Z * bytes) :=
  match s with
  | [] => if prev_underscore then None else Some (acc, [])
  | c :: r =>
      match digit_value c with
      | Some d => scan_digits r false (acc * 10 + d)
      | None =>
          if Byte.eqb c x5f then
            if prev_underscore then None else scan_digits r true acc
          else if prev_underscore then None else Some (acc, s)
      end
  end.

(** [int(s)] for a byte string [s], base 10; [None] stands for [ValueError].
    Surrounding white space, one sign and underscores between digits are
    accepted, as the language defines.  The interpreter's refusal of more
    than [max_str_digits] digits is left out: this is [int] on spans of at
    most that many digits. *)
Definition int_of_bytes (s : bytes) : option Z :=
  let s1 := skip_spaces s in
  let '(sign, s2) :=
    match s1 with
    | x2b :: r => (1, r)
    | x2d :: r => (-1, r)
    | _ => (1, s1)
    end in
  match s2 with
  | [] => None
  | c :: _ =>
      if is_digit c then
        match scan_digits s2 false 0 with
        | Some (v, rest) =>
            match skip_spaces rest with
            | [] => Some (sign * v)
            | _ :: _ => None
            end
        | None => None
        end
      else None
  end.

Definition digit_char (d : Z) : byte := chr (48 + d).

Fixpoint digits_fuel (fuel : nat) (n : Z) (acc : bytes) : bytes :=
  match fuel with
  | O => acc
  | S fuel' =>
      if n <? 10 then digit_char n :: acc
      else digits_fuel fuel' (n / 10) (digit_char (n mod 10) :: acc)
  end.

(** Decimal digits of a non-negative integer, most significant first. *)
Definition digits (n : Z) : bytes :=
  digits_fuel (S (Z.to_nat (Z.log2 n))) n [].

(** [str(i).encode()] for an integer [i] of at most [max_str_digits]
    digits; beyond, the interpreter raises [ValueError], which is left
    out. *)
Definition str_int (i : Z) : bytes :=
  if i <? 0 then x2d :: digits (- i) else digits i.

(* ================================================================== *)
(** ** Python objects handed to, and returned by, the codec *)

(** A text string is its list of code points.  Dictionaries are their
    [items()] in insertion order.  [PyOther] is an object of any type
    that is not a key of [Encoder._encode_func] (None, float, set, ...). *)
#[warnings="-register-all"]
Inductive pyobj : Type :=
| PyInt (i : Z)
| PyBool (v : bool)
| PyStr (s : list Z)
| PyBytes (s : bytes)
| PyList (l : list pyobj)
| PyTuple (l : list pyobj)
| PyDict (items : list (pyobj * pyobj))
| PyOrderedDict (items : list (pyobj * pyobj))
| PyOther (type_name : string).

Definition bytes_eqb (x y : bytes) : bool :=
  if list_eq_dec Byte.byte_eq_dec x y then true else false.

(** [d[key] = val] on an ordered dictionary whose keys are byte strings:
    an existing key keeps its place and takes the new value, a new key
    goes last. *)
Fixpoint setitem (d : list (pyobj * pyobj)) (key : bytes) (val : pyobj)
  : list (pyobj * pyobj) :=
  match d with
  | [] => [(PyBytes key, val)]
  | (k, v) :: r =>
      match k with
      | PyBytes s => if bytes_eqb s key then (k, val) :: r
                     else (k, v) :: setitem r key val
      | _ => (k, v) :: setitem r key val
      end
  end.

(** [s.encode()] : UTF-8, lone surrogates are refused. *)
Definition utf8 (c : Z) : outcome bytes :=
  if c <? 128 then Ok [chr c]
  else if c <? 2048 then Ok [chr (192 + c / 64); chr (128 + c mod 64)]
  else if (55296 <=? c) && (c <=? 57343) then Raise UnicodeEncodeError
  else if c <? 65536 then
    Ok [chr (224 + c / 4096); chr (128 + (c / 64) mod 64); chr (128 + c mod 64)]
  else
    Ok [chr (240 + c / 262144); chr (128 + (c / 4096) mod 64);
        chr (128 + (c / 64) mod 64); chr (128 + c mod 64)].

Fixpoint str_encode (s : list Z) : outcome bytes :=
  match s with
  | [] => Ok []
  | c :: r => x <- utf8 c ;; y <- str_encode r ;; Ok (x ++ y)
  end.

(* ================================================================== *)
(** ** [bencoding/encode.py] *)

Module Encoder.

(** Every method takes and returns [self._bencoded], the list of chunks
    appended so far. *)

Definition _encode_int (i : Z) (_bencoded : list bytes) : outcome (list bytes) :=
  let encoded_int := b "i" ++ str_int i ++ b "e" in
  Ok (_bencoded ++ [encoded_int]).

Definition _encode_bool (v : bool) (_bencoded : list bytes) : outcome (list bytes) :=
  if v then _encode_int 1 _bencoded else _encode_int 0 _bencoded.

Definition _encode_str (s : list Z) (_bencoded : list bytes) : outcome (list bytes) :=
  encoded <- str_encode s ;;
  let encoded_str := str_int (len s) ++ b ":" ++ encoded in
  Ok (_bencoded ++ [encoded_str]).

Definition _encode_bytes (s : bytes) (_bencoded : list bytes) : outcome (list bytes) :=
  let encoded_bytes := str_int (len s) ++ b ":" ++ s in
  Ok (_bencoded ++ [encoded_bytes]).

(** A [for] loop over [items] whose body updates [self._bencoded]. *)
Definition for_each {A} (body : A -> list bytes -> outcome (list bytes))
  : list A -> list bytes -> outcome (list bytes) :=
  fix loop (items : list A) (_bencoded : list bytes) :=
    match items with
    | [] => Ok _bencoded
    | x :: rest => _bencoded <- body x _bencoded ;; loop rest _bencoded
    end.

(** [self._encode_func[type(x)](x)], with the bodies of [_encode_list]
    and [_encode_dict] in place.  The recursion follows the object; the
    [RecursionError] of the interpreter on objects nested deeper than its
    stack allows is left out. *)
Fixpoint _encode_func (x : pyobj) (_bencoded : list bytes) {struct x}
  : outcome (list bytes) :=
  match x with
  | PyInt i => _encode_int i _bencoded
  | PyBool v => _encode_bool v _bencoded
  | PyStr s => _encode_str s _bencoded
  | PyBytes s => _encode_bytes s _bencoded
  | PyList lst | PyTuple lst =>
      _bencoded <- for_each _encode_func lst (_bencoded ++ [b "l"]) ;;
      Ok (_bencoded ++ [b "e"])
  | PyDict d | PyOrderedDict d =>
      _bencoded <-
        for_each (fun kv _bencoded =>
                    _bencoded <- _encode_func (fst kv) _bencoded ;;
                    _encode_func (snd kv) _bencoded)
          d (_bencoded ++ [b "d"]) ;;
      Ok (_bencoded ++ [b "e"])
  | PyOther _ => Raise KeyError
  end.

Definition encode (_data : pyobj) : outcome bytes :=
  match _encode_func _data [] with
  | Ok _bencoded => Ok (List.concat _bencoded)
  | Raise UnicodeDecodeError => Raise InvalidBencodeDataType
  | Raise KeyError => Raise InvalidBencodeDataType
  | Raise e => Raise e
  | Diverged => Diverged
  end.

End Encoder.

Definition encode (data : pyobj) : outcome bytes := Encoder.encode data.

(* ================================================================== *)
(** ** [bencoding/decode.py] *)

Module Decoder.
Section WithData.

(** [self._data]; the cursor [self._curr_index] is an argument and a
    result of every method. *)
Variable _data : bytes.

Definition _decode_str (_curr_index : Z) : outcome (bytes * Z) :=
  let colon_index := find _data x3a _curr_index in
  if colon_index =? -1 then
    Raise (InvalidTorrentFileBencoding (MissingColon _curr_index))
  else
    match int_of_bytes (slice _data _curr_index colon_index) with
    | None => Raise (InvalidTorrentFileBencoding (InvalidLength _curr_index))
    | Some str_length =>
        let decoded_str :=
          slice _data (colon_index + 1) (colon_index + 1 + str_length) in
        Ok (decoded_str, colon_index + 1 + str_length)
    end.

Definition _decode_int (_curr_index : Z) : outcome (Z * Z) :=
  let _curr_index := _curr_index + 1 in
  let int_end := find _data x65 _curr_index in
  if int_end =? -1 then
    Raise (InvalidTorrentFileBencoding (MissingEnd _curr_index))
  else
    let i := slice _data _curr_index int_end in
    if (1 <? len i) &&
       match i with
       | i0 :: i1 :: _ =>
           Byte.eqb i0 x30 || (Byte.eqb i0 x2d && Byte.eqb i1 x30)
       | _ => false
       end
    then Raise (InvalidTorrentFileBencoding (LeadingZero _curr_index))
    else
      match int_of_bytes i with
      | None => Raise (InvalidTorrentFileBencoding (InvalidInteger _curr_index))
      | Some i => Ok (i, int_end + 1)
      end.

(** [_bdecode fuel c i] is [self._bdecode[c]()] run at cursor [i]: the
    table look-up, then the method it selects.  [list_loop] and
    [dict_loop] are the [while] loops of [_decode_list] and
    [_decode_dict]; each call and each iteration takes one unit of fuel.
    A run that nests calls deeper than the interpreter's stack allows ends
    there with [RecursionError], which is left out: a run of the embedding
    stands for the run of the code as long as its calls nest no deeper. *)
Fixpoint _bdecode (fuel : nat) (curr_byte : byte) (_curr_index : Z)
  {struct fuel} : outcome (pyobj * Z) :=
  match fuel with
  | O => Diverged
  | S fuel' =>
      if Byte.eqb curr_byte x6c then
        '(lst, i) <- list_loop fuel' [] (_curr_index + 1) ;;
        Ok (PyList lst, i + 1)
      else if Byte.eqb curr_byte x64 then
        '(d, i) <- dict_loop fuel' [] (_curr_index + 1) ;;
        Ok (PyOrderedDict d, i + 1)
      else if Byte.eqb curr_byte x69 then
        '(n, i) <- _decode_int _curr_index ;; Ok (PyInt n, i)
      else if is_digit curr_byte then
        '(s, i) <- _decode_str _curr_index ;; Ok (PyBytes s, i)
      else Raise KeyError
  end
with list_loop (fuel : nat) (lst : list pyobj) (_curr_index : Z)
  {struct fuel} : outcome (list pyobj * Z) :=
  match fuel with
  | O => Diverged
  | S fuel' =>
      if _curr_index <? len _data then
        c <- getitem _data _curr_index ;;
        if negb (Byte.eqb c x65) then
          curr_byte <- getitem _data _curr_index ;;
          '(element, i) <- _bdecode fuel' curr_byte _curr_index ;;
          list_loop fuel' (lst ++ [element]) i
        else Ok (lst, _curr_index)
      else Ok (lst, _curr_index)
  end
with dict_loop (fuel : nat) (d : list (pyobj * pyobj)) (_curr_index : Z)
  {struct fuel} : outcome (list (pyobj * pyobj) * Z) :=
  match fuel with
  | O => Diverged
  | S fuel' =>
      if _curr_index <? len _data then
        c <- getitem _data _curr_index ;;
        if negb (Byte.eqb c x65) then
          curr_byte <- getitem _data _curr_index ;;
          '(key, i) <- _decode_str _curr_index ;;
          curr_byte <- getitem _data i ;;
          '(val, j) <- _bdecode fuel' curr_byte i ;;
          dict_loop fuel' (setitem d key val) j
        else Ok (d, _curr_index)
      else Ok (d, _curr_index)
  end.

(** [Decoder.decode], after [Decoder.__init__] has refused empty data. *)
Definition decode (fuel : nat) : outcome pyobj :=
  if match _data with [] => true | _ => false end then Raise TypeError
  else
    curr_byte <- getitem _data 0 ;;
    '(res, i) <- _bdecode fuel curr_byte 0 ;;
    if negb (i =? len _data) then
      Raise (InvalidTorrentFileBencoding TrailingBytes)
    else Ok res.

End WithData.
End Decoder.

(** [decode(data)], run with the given fuel. *)
Definition decode (fuel : nat) (data : bytes) : outcome pyobj :=
  Decoder.decode data fuel.

(* ================================================================== *)
(** ** The [struct] module, big-endian formats *)

(** Format characters used by [message.py]: [I] (4-byte unsigned),
    [H] (2-byte unsigned), [B] (1-byte unsigned) and [<n>s] (byte string
    of [n] bytes). *)
Inductive fmt : Type :=
| fI
| fH
| fB
| fs (n : Z).

Inductive sval : Type :=
| VInt (i : Z)
| VBytes (s : bytes).

Fixpoint be_bytes (width : nat) (x : Z) : bytes :=
  match width with
  | O => []
  | S w => be_bytes w (x / 256) ++ [chr (x mod 256)]
  end.

Definition be_int (s : bytes) : Z :=
  fold_left (fun acc c => acc * 256 + ord c) s 0.

Definition pack_uint (width : nat) (v : sval) : outcome bytes :=
  match v with
  | VInt x =>
      if (0 <=? x) && (x <? 256 ^ Z.of_nat width) then Ok (be_bytes width x)
      else Raise StructError
  | VBytes _ => Raise StructError
  end.

(** ['<n>s'] truncates or pads with null bytes to exactly [n] bytes. *)
Definition pack_s (n : Z) (v : sval) : outcome bytes :=
  match v with
  | VBytes s =>
      if n <? 0 then Raise StructError
      else Ok (firstn (Z.to_nat n) s
               ++ repeat x00 (Z.to_nat n - List.length s))
  | VInt _ => Raise StructError
  end.

Definition calcsize1 (f : fmt) : Z :=
  match f with
  | fI => 4
  | fH => 2
  | fB => 1
  | fs n => n
  end.

Definition wellformed_fmt (f : fmt) : bool :=
  match f with
  | fs n => 0 <=? n
  | _ => true
  end.

Fixpoint calcsize (format : list fmt) : Z :=
  match format with
  | [] => 0
  | f :: r => calcsize1 f + calcsize r
  end.

(** [struct.pack(format, *values)] *)
Fixpoint pack (format : list fmt) (values : list sval) : outcome bytes :=
  match format, values with
  | [], [] => Ok []
  | f :: fr, v :: vr =>
      x <- match f with
           | fI => pack_uint 4 v
           | fH => pack_uint 2 v
           | fB => pack_uint 1 v
           | fs n => pack_s n v
           end ;;
      y <- pack fr vr ;;
      Ok (x ++ y)
  | _, _ => Raise StructError
  end.

Fixpoint unpack_fields (format : list fmt) (payload : bytes) : list sval :=
  match format with
  | [] => []
  | f :: r =>
      let n := Z.to_nat (calcsize1 f) in
      match f with
      | fs _ => VBytes (firstn n payload)
      | _ => VInt (be_int (firstn n payload))
      end :: unpack_fields r (skipn n payload)
  end.

(** [struct.unpack(format, payload)]: the buffer must have exactly the
    size the format describes. *)
Definition unpack (format : list fmt) (payload : bytes) : outcome (list sval) :=
  if forallb wellformed_fmt format && (len payload =? calcsize format)
  then Ok (unpack_fields format payload)
  else Raise StructError.

(** [unpacked_bytes[k]] read as an integer, respectively as bytes. *)
Definition int_at (l : list sval) (k : nat) : outcome Z :=
  match nth_error l k with
  | Some (VInt i) => Ok i
  | Some (VBytes _) => Raise TypeError
  | None => Raise IndexError
  end.

Definition bytes_at (l : list sval) (k : nat) : outcome bytes :=
  match nth_error l k with
  | Some (VBytes s) => Ok s
  | Some (VInt _) => Raise TypeError
  | None => Raise IndexError
  end.

(* ================================================================== *)
(** ** [messages/message.py] *)

Definition BITTORRENT_PSTR_V1 : bytes := b "BitTorrent protocol".

(** A message object is its class together with the attributes its
    [__init__] stores, in the order they are stored. *)
Inductive message : Type :=
| Handshake (_msg_len _pstr_len : Z) (_pstr _reserved _info_hash _peer_id : bytes)
| KeepAlive (_msg_len : Z)
| Choke (_msg_len _msg_id : Z)
| Unchoke (_msg_len _msg_id : Z)
| Interested (_msg_len _msg_id : Z)
| NotInterested (_msg_len _msg_id : Z)
| Have (_msg_len _msg_id _piece_index : Z)
| Bitfield (_msg_len _msg_id : Z) (_bitfield : bytes)
| Request (_msg_len _msg_id _index _begin _length : Z)
| Piece (_msg_len _msg_id _index _begin : Z) (_block : bytes)
| Cancel (_msg_len _msg_id _index _begin _length : Z)
| Port (_msg_len _msg_id _port : Z).

Definition message_eq_dec (x y : message) : {x = y} + {x <> y}.
Proof.
  decide equality;
    try apply Z.eq_dec; apply (list_eq_dec Byte.byte_eq_dec).
Defined.

Module BaseMessage.

(** [__eq__]: same class and equal attributes. *)
Definition __eq__ (self other : message) : bool :=
  if message_eq_dec other self then true else false.

Definition msg_len (self : message) : Z :=
  match self with
  | Handshake l _ _ _ _ _ | KeepAlive l | Choke l _ | Unchoke l _
  | Interested l _ | NotInterested l _ | Have l _ _ | Bitfield l _ _
  | Request l _ _ _ _ | Piece l _ _ _ _ | Cancel l _ _ _ _ | Port l _ _ => l
  end.

Definition to_bytes (self : message) : outcome bytes :=
  pack [fI] [VInt (msg_len self)].

End BaseMessage.

Module IDMessage.

(** [msg_id]; the two classes without the attribute raise. *)
Definition msg_id (self : message) : outcome Z :=
  match self with
  | Handshake _ _ _ _ _ _ | KeepAlive _ => Raise TypeError
  | Choke _ i | Unchoke _ i | Interested _ i | NotInterested _ i
  | Have _ i _ | Bitfield _ i _ | Request _ i _ _ _ | Piece _ i _ _ _
  | Cancel _ i _ _ _ | Port _ i _ => Ok i
  end.

Definition to_bytes (self : message) : outcome bytes :=
  i <- msg_id self ;;
  pack [fI; fB] [VInt (BaseMessage.msg_len self); VInt i].

(** [from_bytes] inherited by the four classes without a payload;
    [cls] is the constructor of the receiving class. *)
Definition from_bytes (cls : outcome message) (payload : bytes)
  : outcome message :=
  if negb (len payload =? 5) then
    Raise (ValueError "Expected a byte string of length 5.")
  else cls.

End IDMessage.

Module Handshake.

Definition LENGTH : Z := len BITTORRENT_PSTR_V1 + 49.
Definition RESERVED : bytes := repeat x00 8.
Definition STRUCT : list fmt := [fB; fs 19; fs 8; fs 20; fs 20].

Definition __init__ (info_hash peer_id : bytes) : outcome message :=
  if negb (len info_hash =? 20) then
    Raise (ValueError "The info hash must be 20 bytes long.")
  else if negb (len peer_id =? 20) then
    Raise (ValueError "The peer ID must be 20 bytes long.")
  else
    Ok (Handshake LENGTH (len BITTORRENT_PSTR_V1) BITTORRENT_PSTR_V1
          RESERVED info_hash peer_id).

(** The [isinstance(payload, bytes)] test holds of every
    [payload : bytes]; the message of the length test is formatted with
    [LENGTH + len(BITTORRENT_PSTR_V1)]. *)
Definition from_bytes (payload : bytes) : outcome message :=
  if negb (len payload =? LENGTH) then
    Raise (ValueError "Expected a byte string of length 87.")
  else
    unpacked_bytes <- unpack STRUCT payload ;;
    info_hash <- bytes_at unpacked_bytes 3 ;;
    peer_id <- bytes_at unpacked_bytes 4 ;;
    __init__ info_hash peer_id.

Definition to_bytes (self : message) : outcome bytes :=
  match self with
  | Handshake _ pstr_len pstr reserved info_hash peer_id =>
      pack STRUCT [VInt pstr_len; VBytes pstr; VBytes reserved;
                   VBytes info_hash; VBytes peer_id]
  | _ => Raise TypeError
  end.

End Handshake.

Module KeepAlive.

Definition LENGTH : Z := 0.

Definition __init__ : outcome message := Ok (KeepAlive LENGTH).

Definition from_bytes (payload : bytes) : outcome message :=
  if negb (len payload =? 4) then
    Raise (ValueError "Expected a byte string of length 4.")
  else __init__.

End KeepAlive.

Module Choke.
Definition LENGTH : Z := 1.
Definition ID : Z := 0.
Definition __init__ : outcome message := Ok (Choke LENGTH ID).
Definition from_bytes := IDMessage.from_bytes __init__.
End Choke.

Module Unchoke.
Definition LENGTH : Z := 1.
Definition ID : Z := 1.
Definition __init__ : outcome message := Ok (Unchoke LENGTH ID).
Definition from_bytes := IDMessage.from_bytes __init__.
End Unchoke.

Module Interested.
Definition LENGTH : Z := 1.
Definition ID : Z := 2.
Definition __init__ : outcome message := Ok (Interested LENGTH ID).
Definition from_bytes := IDMessage.from_bytes __init__.
End Interested.

Module NotInterested.
Definition LENGTH : Z := 1.
Definition ID : Z := 3.
Definition __init__ : outcome message := Ok (NotInterested LENGTH ID).
Definition from_bytes := IDMessage.from_bytes __init__.
End NotInterested.

Module Have.

Definition LENGTH : Z := 5.
Definition ID : Z := 4.
Definition STRUCT : list fmt := [fI; fB; fI].

Definition __init__ (piece_index : Z) : outcome message :=
  Ok (Have LENGTH ID piece_index).

Definition from_bytes (payload : bytes) : outcome message :=
  if negb (len payload =? 9) then
    Raise (ValueError "Expected a byte string of length 9.")
  else
    unpacked_bytes <- unpack STRUCT payload ;;
    piece_index <- int_at unpacked_bytes 2 ;;
    __init__ piece_index.

Definition to_bytes (self : message) : outcome bytes :=
  match self with
  | Have msg_len msg_id piece_index =>
      pack STRUCT [VInt msg_len; VInt msg_id; VInt piece_index]
  | _ => Raise TypeError
  end.

End Have.

(** [bin(n)] for a non-negative [n], and [str.lstrip(chars)]. *)
Fixpoint bin_pos (p : positive) : string :=
  match p with
  | xH => "1"
  | xO q => bin_pos q ++ "0"
  | xI q => bin_pos q ++ "1"
  end.

Definition bin (n : Z) : string :=
  match n with
  | Z0 => "0b0"
  | Zpos p => "0b" ++ bin_pos p
  | Zneg p => "-0b" ++ bin_pos p
  end.

Fixpoint mem_char (c : Ascii.ascii) (chars : string) : bool :=
  match chars with
  | EmptyString => false
  | String x r => Ascii.eqb x c || mem_char c r
  end.

Fixpoint lstrip (chars s : string) : string :=
  match s with
  | EmptyString => EmptyString
  | String c r => if mem_char c chars then lstrip chars r else s
  end.

Module Bitfield.

Definition BASE_LENGTH : Z := 1.
Definition ID : Z := 5.
Definition STRUCT (n : Z) : list fmt := [fI; fB; fs n].

(** The [isinstance(bitfield, bytes)] test holds of every
    [bitfield : bytes]. *)
Definition __init__ (bitfield : bytes) : outcome message :=
  Ok (Bitfield (BASE_LENGTH + len bitfield) ID bitfield).

Definition from_bytes (payload : bytes) : outcome message :=
  unpacked_bytes <-
    unpack (STRUCT (len payload - BASE_LENGTH - 4)) payload ;;
  bitfield <- bytes_at unpacked_bytes 2 ;;
  __init__ bitfield.

Definition to_bytes (self : message) : outcome bytes :=
  match self with
  | Bitfield msg_len msg_id bitfield =>
      pack (STRUCT (len bitfield))
        [VInt msg_len; VInt msg_id; VBytes bitfield]
  | _ => Raise TypeError
  end.

(** The inner loop of [pieces_status]: one boolean per character. *)
Fixpoint bits_status (bits : string) : list bool :=
  match bits with
  | EmptyString => []
  | String c r => Ascii.eqb c "1"%char :: bits_status r
  end.

Fixpoint pieces_of (bitfield : bytes) (pieces : list bool) : list bool :=
  match bitfield with
  | [] => pieces
  | byte_ :: rest =>
      let bits := lstrip "0b" (bin (ord byte_)) in
      pieces_of rest (pieces ++ bits_status bits)
  end.

Definition pieces_status (self : message) : outcome (list bool) :=
  match self with
  | Bitfield _ _ bitfield => Ok (pieces_of bitfield [])
  | _ => Raise TypeError
  end.

End Bitfield.

Module Request.

Definition LENGTH : Z := 13.
Definition ID : Z := 6.
Definition STRUCT : list fmt := [fI; fB; fI; fI; fI].

Definition __init__ (index begin length : Z) : outcome message :=
  Ok (Request LENGTH ID index begin length).

Definition from_bytes (payload : bytes) : outcome message :=
  if negb (len payload =? 17) then
    Raise (ValueError "Expected a byte string of length 17.")
  else
    unpacked_bytes <- unpack STRUCT payload ;;
    index <- int_at unpacked_bytes 2 ;;
    begin <- int_at unpacked_bytes 3 ;;
    length <- int_at unpacked_bytes 4 ;;
    __init__ index begin length.

Definition to_bytes (self : message) : outcome bytes :=
  match self with
  | Request msg_len msg_id index begin length =>
      pack STRUCT [VInt msg_len; VInt msg_id; VInt index; VInt begin;
                   VInt length]
  | _ => Raise TypeError
  end.

End Request.

Module Piece.

Definition BASE_LENGTH : Z := 9.
Definition ID : Z := 7.
Definition STRUCT (n : Z) : list fmt := [fI; fB; fI; fI; fs n].

Definition __init__ (index begin : Z) (block : bytes) : outcome message :=
  Ok (Piece (BASE_LENGTH + len block) ID index begin block).

Definition from_bytes (payload : bytes) : outcome message :=
  let str_len := len payload in
  unpacked_bytes <- unpack (STRUCT (str_len - BASE_LENGTH - 4)) payload ;;
  index <- int_at unpacked_bytes 2 ;;
  begin <- int_at unpacked_bytes 3 ;;
  block <- bytes_at unpacked_bytes 4 ;;
  __init__ index begin block.

Definition to_bytes (self : message) : outcome bytes :=
  match self with
  | Piece msg_len msg_id index begin block =>
      pack (STRUCT (len block))
        [VInt msg_len; VInt msg_id; VInt index; VInt begin; VBytes block]
  | _ => Raise TypeError
  end.

End Piece.

Module Cancel.

Definition LENGTH : Z := 13.
Definition ID : Z := 8.
Definition STRUCT : list fmt := [fI; fB; fI; fI; fI].

Definition __init__ (index begin length : Z) : outcome message :=
  Ok (Cancel LENGTH ID index begin length).

Definition from_bytes (payload : bytes) : outcome message :=
  if negb (len payload =? 17) then
    Raise (ValueError "Expected a byte string of length 17.")
  else
    unpacked_bytes <- unpack STRUCT payload ;;
    index <- int_at unpacked_bytes 2 ;;
    begin <- int_at unpacked_bytes 3 ;;
    length <- int_at unpacked_bytes 4 ;;
    __init__ index begin length.

Definition to_bytes (self : message) : outcome bytes :=
  match self with
  | Cancel msg_len msg_id index begin length =>
      pack STRUCT [VInt msg_len; VInt msg_id; VInt index; VInt begin;
                   VInt length]
  | _ => Raise TypeError
  end.

End Cancel.

Module Port.

Definition LENGTH : Z := 3.
Definition ID : Z := 9.
Definition STRUCT : list fmt := [fI; fB; fH].

(** [isinstance(port, int)] holds of every [port : Z]. *)
Definition isinstance_int (port : Z) : bool := true.

Definition __init__ (port : Z) : outcome message :=
  if negb (isinstance_int port) && (port <? 0) then
    Raise (ValueError "Invalid port argument.")
  else Ok (Port LENGTH ID port).

Definition from_bytes (payload : bytes) : outcome message :=
  if negb (len payload =? 7) then
    Raise (ValueError "Expected a byte string of length 7.")
  else
    unpacked_bytes <- unpack STRUCT payload ;;
    port <- int_at unpacked_bytes 2 ;;
    __init__ port.

Definition to_bytes (self : message) : outcome bytes :=
  match self with
  | Port msg_len msg_id port =>
      pack STRUCT [VInt msg_len; VInt msg_id; VInt port]
  | _ => Raise TypeError
  end.

End Port.

(** [msg.to_bytes()]: the method of the object's class. *)
Definition to_bytes (self : message) : outcome bytes :=
  match self with
  | Handshake _ _ _ _ _ _ => Handshake.to_bytes self
  | KeepAlive _ => BaseMessage.to_bytes self
  | Choke _ _ | Unchoke _ _ | Interested _ _ | NotInterested _ _ =>
      IDMessage.to_bytes self
  | Have _ _ _ => Have.to_bytes self
  | Bitfield _ _ _ => Bitfield.to_bytes self
  | Request _ _ _ _ _ => Request.to_bytes self
  | Piece _ _ _ _ _ => Piece.to_bytes self
  | Cancel _ _ _ _ _ => Cancel.to_bytes self
  | Port _ _ _ => Port.to_bytes self
  end.

(** An instance is validly constructed when some call of its class's
    constructor returned it. *)
Inductive constructed : message -> Prop :=
| c_Handshake info_hash peer_id m :
    Handshake.__init__ info_hash peer_id = Ok m -> constructed m
| c_KeepAlive m : KeepAlive.__init__ = Ok m -> constructed m
| c_Choke m : Choke.__init__ = Ok m -> constructed m
| c_Unchoke m : Unchoke.__init__ = Ok m -> constructed m
| c_Interested m : Interested.__init__ = Ok m -> constructed m
| c_NotInterested m : NotInterested.__init__ = Ok m -> constructed m
| c_Have piece_index m : Have.__init__ piece_index = Ok m -> constructed m
| c_Bitfield bitfield m : Bitfield.__init__ bitfield = Ok m -> constructed m
| c_Request index begin length m :
    Request.__init__ index begin length = Ok m -> constructed m
| c_Piece index begin block m :
    Piece.__init__ index begin block = Ok m -> constructed m
| c_Cancel index begin length m :
    Cancel.__init__ index begin length = Ok m -> constructed m
| c_Port port m : Port.__init__ port = Ok m -> constructed m.

(* ================================================================== *)
(** ** [messages/message_decoder.py] *)

Module MessageDecoder.

Definition _MESSAGE_CLASS (msg_id : Z) : option (bytes -> outcome message) :=
  match msg_id with
  | 0 => Some Choke.from_bytes
  | 1 => Some Unchoke.from_bytes
  | 2 => Some Interested.from_bytes
  | 3 => Some NotInterested.from_bytes
  | 4 => Some Have.from_bytes
  | 5 => Some Bitfield.from_bytes
  | 6 => Some Request.from_bytes
  | 7 => Some Piece.from_bytes
  | 8 => Some Cancel.from_bytes
  | 9 => Some Port.from_bytes
  | _ => None
  end.

(** The [isinstance(payload, bytes)] test holds of every
    [payload : bytes]. *)
Definition decode_message (payload : bytes) : outcome message :=
  if len payload <? 4 then
    Raise (InvalidMessageStructure
             "Valid messages must be at least 4 bytes in length.")
  else if len payload =? 4 then KeepAlive.__init__
  else
    first <- getitem payload 0 ;;
    if ord first =? 19 then Handshake.from_bytes payload
    else
      msg_id <-
        match unpack [fB] (slice payload 4 5) with
        | Raise StructError =>
            Raise (InvalidMessageStructure
              "Valid messages must have their 5th byte correspond to their ID.")
        | r => r
        end ;;
      msg_id <- int_at msg_id 0 ;;
      match
        match _MESSAGE_CLASS msg_id with
        | Some from_bytes => from_bytes payload
        | None => Raise KeyError
        end
      with
      | Raise KeyError => Raise (InvalidMessageStructure "Unknown message ID.")
      | r => r
      end.

End MessageDecoder.

Definition decode_message (payload : bytes) : outcome message :=
  MessageDecoder.decode_message payload.

(* ================================================================== *)
(** ** Vocabulary of the properties *)

(** The digits read back by Horner's rule. *)
Definition horner (ds : bytes) (acc : Z) : Z :=
  fold_left (fun a c => a * 10 + match digit_value c with
                                 | Some d => d
                                 | None => 0
                                 end) ds acc.

Definition all_digits (ds : bytes) : Prop :=
  Forall (fun c => is_digit c = true) ds.

(** The values of the bencoding data model: byte strings, integers,
    lists, and ordered mappings from byte strings, whose keys are
    pairwise distinct as the keys of a dictionary are. *)
Definition is_bytes (v : pyobj) : bool :=
  match v with
  | PyBytes _ => true
  | _ => false
  end.

Fixpoint distinct (ks : list pyobj) : bool :=
  match ks with
  | [] => true
  | k :: r =>
      negb (existsb (fun k' =>
                       match k, k' with
                       | PyBytes x, PyBytes y => bytes_eqb x y
                       | _, _ => false
                       end) r)
      && distinct r
  end.

Fixpoint is_value (v : pyobj) : bool :=
  match v with
  | PyInt _ => true
  | PyBytes _ => true
  | PyList l => forallb is_value l
  | PyOrderedDict d =>
      forallb (fun kv => is_bytes (fst kv) && is_value (snd kv)) d
      && distinct (map fst d)
  | _ => false
  end.

(** The bencoding of a value, as the grammar writes it: elements and
    key/value pairs in the order the value holds them. *)
Fixpoint bencoding (v : pyobj) : bytes :=
  match v with
  | PyInt i => b "i" ++ str_int i ++ b "e"
  | PyBytes s => str_int (len s) ++ b ":" ++ s
  | PyList l => b "l" ++ flat_map bencoding l ++ b "e"
  | PyOrderedDict d =>
      b "d" ++ flat_map (fun kv => bencoding (fst kv) ++ bencoding (snd kv)) d
        ++ b "e"
  | _ => []
  end.

(** Fuel that suffices to decode the bencoding of a value. *)
Fixpoint weight (v : pyobj) : nat :=
  match v with
  | PyList l => S (S (list_sum (map weight l)))
  | PyOrderedDict d => S (S (list_sum (map (fun kv => weight (snd kv)) d)))
  | _ => 1
  end.

(** Every object in [x], at any depth, has a type that is a key of
    [Encoder._encode_func]. *)
Fixpoint supported (x : pyobj) : bool :=
  match x with
  | PyInt _ | PyBool _ | PyStr _ | PyBytes _ => true
  | PyList l | PyTuple l => forallb supported l
  | PyDict d | PyOrderedDict d =>
      forallb (fun kv => supported (fst kv) && supported (snd kv)) d
  | PyOther _ => false
  end.

Definition is_surrogate (c : Z) : bool := (55296 <=? c) && (c <=? 57343).

(** No text string in [x], at any depth, holds a lone surrogate. *)
Fixpoint encodable_text (x : pyobj) : bool :=
  match x with
  | PyStr s => forallb (fun c => negb (is_surrogate c)) s
  | PyList l | PyTuple l => forallb encodable_text l
  | PyDict d | PyOrderedDict d =>
      forallb (fun kv => encodable_text (fst kv) && encodable_text (snd kv)) d
  | _ => true
  end.

(** The bit order the protocol defines for a bitfield: piece [8*i + p]
    is bit [p] of byte [i], counted from the most significant bit. *)
Definition bit_from_msb (c : byte) (p : Z) : bool := Z.testbit (ord c) (7 - p).

Definition expected_status (bitfield : bytes) : list bool :=
  flat_map (fun c => map (bit_from_msb c) [0; 1; 2; 3; 4; 5; 6; 7]) bitfield.

(** [x] can be packed as an unsigned integer of [width] bytes. *)
Definition fits (width : nat) (x : Z) : bool :=
  (0 <=? x) && (x <? 256 ^ Z.of_nat width).

(** Every integer attribute fits the wire field it is packed into. *)
Definition fields_fit (m : message) : bool :=
  match m with
  | Handshake _ pstr_len _ _ _ _ => fits 1 pstr_len
  | KeepAlive l => fits 4 l
  | Choke l i | Unchoke l i | Interested l i | NotInterested l i =>
      fits 4 l && fits 1 i
  | Have l i piece_index => fits 4 l && fits 1 i && fits 4 piece_index
  | Bitfield l i _ => fits 4 l && fits 1 i
  | Request l i index begin length | Cancel l i index begin length =>
      fits 4 l && fits 1 i && fits 4 index && fits 4 begin && fits 4 length
  | Piece l i index begin _ =>
      fits 4 l && fits 1 i && fits 4 index && fits 4 begin
  | Port l i port => fits 4 l && fits 1 i && fits 2 port
  end.

(** [v] is read back from its bencoding wherever the bencoding stands in
    the buffer, by any run with at least [weight v] units of fuel; the
    cursor ends just past it. *)
Definition decodes (v : pyobj) : Prop :=
  forall fuel pre post,
    (weight v <= fuel)%nat ->
    exists c r,
      bencoding v = c :: r /\ c <> x65 /\
      Decoder._bdecode (pre ++ bencoding v ++ post) fuel c (len pre)
      = Ok (v, len pre + len (bencoding v)).

(** [x] is appended to the chunks as its bencoding, whatever the chunks
    collected before. *)
Definition encodes (x : pyobj) : Prop :=
  forall acc, exists chunks,
    Encoder._encode_func x acc = Ok (acc ++ chunks)
    /\ List.concat chunks = bencoding x.

Definition pair_bencoding (kv : pyobj * pyobj) : bytes :=
  bencoding (fst kv) ++ bencoding (snd kv).

(** What [_encode_func] does with an object whose text strings can all
    be encoded. *)
Definition dispatch_outcome (x : pyobj) : Prop :=
  encodable_text x = true ->
  forall acc,
    if supported x then exists out, Encoder._encode_func x acc = Ok out
    else Encoder._encode_func x acc = Raise KeyError.

(** [type(msg).from_bytes]: the class method of the class of [msg]. *)
Definition class_from_bytes (msg : message) : bytes -> outcome message :=
  match msg with
  | Handshake _ _ _ _ _ _ => Handshake.from_bytes
  | KeepAlive _ => KeepAlive.from_bytes
  | Choke _ _ => Choke.from_bytes
  | Unchoke _ _ => Unchoke.from_bytes
  | Interested _ _ => Interested.from_bytes
  | NotInterested _ _ => NotInterested.from_bytes
  | Have _ _ _ => Have.from_bytes
  | Bitfield _ _ _ => Bitfield.from_bytes
  | Request _ _ _ _ _ => Request.from_bytes
  | Piece _ _ _ _ _ => Piece.from_bytes
  | Cancel _ _ _ _ _ => Cancel.from_bytes
  | Port _ _ _ => Port.from_bytes
  end.

Definition is_handshake (msg : message) : bool :=
  match msg with
  | Handshake _ _ _ _ _ _ => true
  | _ => false
  end.

(** A value has the type its format character packs, and a byte string
    has exactly the size of its field. *)
Definition exact_field (f : fmt) (v : sval) : Prop :=
  match f, v with
  | fs n, VBytes s => len s = n
  | fs _, VInt _ => False
  | _, VInt _ => True
  | _, VBytes _ => False
  end.

(** The number of set bits of a byte, and of a byte string. *)
Definition popcount (c : byte) : nat :=
  List.length (filter (fun p => bit_from_msb c p) [0; 1; 2; 3; 4; 5; 6; 7]).

Definition count_true (l : list bool) : nat :=
  List.length (filter (fun x => x) l).

(** What a successful [from_bytes] of the table returns. *)
Definition parsed_as (id : Z) (payload : bytes) (m : message) : Prop :=
  constructed m /\ is_handshake m = false
  /\ BaseMessage.msg_len m = len payload - 4
  /\ IDMessage.msg_id m = Ok id.

(** The booleans [pieces_status] appends for one byte. *)
Definition byte_status (c : byte) : list bool :=
  Bitfield.bits_status (lstrip "0b" (bin (ord c))).

(** The test of [_decode_int] for a leading zero or a negative zero. *)
Definition leading_zero (i : bytes) : bool :=
  (1 <? len i) &&
  match i with
  | i0 :: i1 :: _ => Byte.eqb i0 x30 || (Byte.eqb i0 x2d && Byte.eqb i1 x30)
  | _ => false
  end.

(** [d[key]] on a dictionary, for a byte-string [key]; [None] stands for
    [KeyError]. *)
Fixpoint dict_get (d : list (pyobj * pyobj)) (key : bytes) : option pyobj :=
  match d with
  | [] => None
  | (k, v) :: r =>
      match k with
      | PyBytes s => if bytes_eqb s key then Some v else dict_get r key
      | _ => dict_get r key
      end
  end.

(** The bencoding of the pairs [d] one after the other, as they would be
    written between ['d'] and ['e']; keys may repeat. *)
Definition pairs_bencoding (d : list (bytes * pyobj)) : bytes :=
  flat_map (fun kv => bencoding (PyBytes (fst kv)) ++ bencoding (snd kv)) d.

(** The dictionary [_decode_dict] has built after reading the pairs [d]. *)
Definition stored (d : list (bytes * pyobj)) (acc : list (pyobj * pyobj))
  : list (pyobj * pyobj) :=
  fold_left (fun a kv => setitem a (fst kv) (snd kv)) d acc.

(** The value of the last pair of [d] whose key is [key]. *)
Definition last_written (d : list (bytes * pyobj)) (key : bytes)
  : option pyobj :=
  fold_left (fun r kv => if bytes_eqb (fst kv) key then Some (snd kv) else r)
    d None.

(** The value of the data model that a native object is written as: a
    [bool] as the integer 1 or 0, a text string as the bytes of its code
    points (its encoding when the text is ASCII), a tuple as a list, a
    [dict] as an ordered mapping. *)
Fixpoint canonical (x : pyobj) : pyobj :=
  match x with
  | PyBool v => PyInt (if v then 1 else 0)
  | PyStr s => PyBytes (map chr s)
  | PyList l | PyTuple l => PyList (map canonical l)
  | PyDict d | PyOrderedDict d =>
      PyOrderedDict (map (fun kv => (canonical (fst kv), canonical (snd kv))) d)
  | _ => x
  end.

(** Every text string in [x], at any depth, is ASCII. *)
Fixpoint ascii_text (x : pyobj) : bool :=
  match x with
  | PyStr s => forallb (fun c => (0 <=? c) && (c <? 128)) s
  | PyList l | PyTuple l => forallb ascii_text l
  | PyDict d | PyOrderedDict d =>
      forallb (fun kv => ascii_text (fst kv) && ascii_text (snd kv)) d
  | _ => true
  end.

(** [x] is appended to the chunks as the bencoding of its canonical
    value. *)
Definition encodes_canonical (x : pyobj) : Prop :=
  forall acc, exists chunks,
    Encoder._encode_func x acc = Ok (acc ++ chunks)
    /\ List.concat chunks = bencoding (canonical x).

(** The payload sizes that the [from_bytes] of the class registered under
    [msg_id] accepts. *)
Definition accepted_size (msg_id n : Z) : bool :=
  match msg_id with
  | 0 | 1 | 2 | 3 => n =? 5
  | 4 => n =? 9
  | 5 => 5 <=? n
  | 6 | 8 => n =? 17
  | 7 => 13 <=? n
  | 9 => n =? 7
  | _ => false
  end.

(** ** Limits of the interpreter *)

(** Two limits of CPython bear on the codec and are not part of the
    package.  Converting an [int] to or from decimal text of more than
    [sys.get_int_max_str_digits()] digits, 4300 unless reconfigured, raises
    [ValueError], which [_decode_int] and [_decode_str] turn into their own
    errors and [encode] lets out.  A call nested deeper than
    [sys.getrecursionlimit()] frames, 1000 unless reconfigured, raises
    [RecursionError].  The properties that convert integers of any size or
    descend into objects of any depth are stated for objects within these
    limits. *)
Definition max_str_digits : Z := 4300.

(** A nesting depth that leaves half of the default 1000 frames to the
    caller and to the calls around the recursion. *)
Definition max_nesting : nat := 500.

(** The number of decimal digits of [i]. *)
Definition digit_count (i : Z) : Z := len (digits (Z.abs i)).

(** Every integer in [x], and the length of every string in [x], has at
    most [max_str_digits] digits. *)
Fixpoint in_limits (x : pyobj) : bool :=
  match x with
  | PyInt i => digit_count i <=? max_str_digits
  | PyStr s => digit_count (len s) <=? max_str_digits
  | PyBytes s => digit_count (len s) <=? max_str_digits
  | PyList l | PyTuple l => forallb in_limits l
  | PyDict d | PyOrderedDict d =>
      forallb (fun kv => in_limits (fst kv) && in_limits (snd kv)) d
  | _ => true
  end.

(** The number of containers nested in one another in [x]. *)
Fixpoint nesting (x : pyobj) : nat :=
  match x with
  | PyList l | PyTuple l => S (list_max (map nesting l))
  | PyDict d | PyOrderedDict d =>
      S (list_max (map (fun kv => Nat.max (nesting (fst kv)) (nesting (snd kv)))
                     d))
  | _ => O
  end.

Definition within_limits (x : pyobj) : bool :=
  in_limits x && (nesting x <=? max_nesting)%nat.

(** The keys and the values of the pairs [d] are within the limits. *)
Definition pairs_within_limits (d : list (bytes * pyobj)) : bool :=
  forallb (fun kv => within_limits (PyBytes (fst kv)) && within_limits (snd kv))
    d.

(* ================================================================== *)
(** * Properties *)

(** ** Byte strings: indexing, slicing, searching *)

Section BytesFacts.

Lemma len_app {A} (x y : list A) : len (x ++ y) = len x + len y.
Proof. unfold len. rewrite length_app. lia. Qed.

Lemma len_cons {A} (a : A) (x : list A) : len (a :: x) = 1 + len x.
Proof. unfold len. simpl List.length. lia. Qed.

Lemma len_nonneg {A} (x : list A) : 0 <= len x.
Proof. unfold len. lia. Qed.

Lemma to_nat_len {A} (x : list A) : Z.to_nat (len x) = List.length x.
Proof. unfold len. lia. Qed.

Lemma adjust_inside n i : 0 <= i <= n -> adjust n i = i.
Proof.
  intros H. unfold adjust.
  destruct (Z.ltb_spec i 0); lia.
Qed.

Lemma getitem_at pre c post :
  getitem (pre ++ c :: post) (len pre) = Ok c.
Proof.
  unfold getitem.
  pose proof (len_nonneg pre) as Hp. pose proof (len_nonneg post) as Hq.
  destruct (Z.ltb_spec (len pre) 0); [lia|].
  rewrite len_app, len_cons.
  destruct (Z.ltb_spec (len pre) 0); [lia|].
  destruct (Z.leb_spec (len pre + (1 + len post)) (len pre)); [lia|].
  simpl. rewrite to_nat_len, nth_error_app2 by lia.
  now rewrite Nat.sub_diag.
Qed.

Lemma slice_at pre mid post :
  slice (pre ++ mid ++ post) (len pre) (len pre + len mid) = mid.
Proof.
  unfold slice.
  pose proof (len_nonneg pre). pose proof (len_nonneg mid).
  pose proof (len_nonneg post).
  rewrite !adjust_inside by (rewrite !len_app; lia).
  rewrite to_nat_len, skipn_app, skipn_all, Nat.sub_diag. simpl.
  replace (Z.to_nat (len pre + len mid - len pre)) with (List.length mid)
    by (unfold len; lia).
  rewrite firstn_app, firstn_all, Nat.sub_diag. simpl.
  apply app_nil_r.
Qed.

Lemma index_of_first c skipped rest :
  ~ In c skipped -> index_of c (skipped ++ c :: rest) = Some (List.length skipped).
Proof.
  induction skipped as [|x r IH]; simpl; intros Hn.
  - now rewrite Byte.byte_dec_lb.
  - destruct (Byte.eqb x c) eqn:E.
    + apply Byte.byte_dec_bl in E. tauto.
    + rewrite IH by tauto. reflexivity.
Qed.

Lemma find_at pre skipped c post :
  ~ In c skipped ->
  find (pre ++ skipped ++ c :: post) c (len pre) = len pre + len skipped.
Proof.
  intros Hn. unfold find.
  pose proof (len_nonneg pre). pose proof (len_nonneg skipped).
  pose proof (len_nonneg post).
  rewrite adjust_inside by (rewrite !len_app, len_cons; lia).
  rewrite to_nat_len, skipn_app, skipn_all, Nat.sub_diag. simpl.
  now rewrite index_of_first.
Qed.

End BytesFacts.

(** ** Decimal text of integers *)

Section Decimal.

Lemma digit_value_char d :
  0 <= d < 10 -> digit_value (digit_char d) = Some d.
Proof.
  intros H.
  assert (d = 0 \/ d = 1 \/ d = 2 \/ d = 3 \/ d = 4 \/ d = 5 \/ d = 6
          \/ d = 7 \/ d = 8 \/ d = 9) as Hd by lia.
  repeat (destruct Hd as [-> | Hd]; [reflexivity|]).
  subst. reflexivity.
Qed.

Lemma digits_fuel_acc fuel : forall n acc,
  digits_fuel fuel n acc = digits_fuel fuel n [] ++ acc.
Proof.
  induction fuel as [|f IH]; intros n acc; simpl; [reflexivity|].
  destruct (n <? 10); [reflexivity|].
  rewrite (IH (n / 10) (_ :: acc)), (IH (n / 10) [_]).
  now rewrite <- app_assoc.
Qed.

Lemma digits_fuel_spec fuel : forall n,
  0 <= n < 2 ^ Z.of_nat fuel -> (1 <= fuel)%nat ->
  let ds := digits_fuel fuel n [] in
  all_digits ds /\ horner ds 0 = n
  /\ exists c r, ds = c :: r /\ (c = x30 -> n = 0 /\ r = []).
Proof.
  induction fuel as [|f IH]; intros n Hn Hf; [lia|].
  simpl. destruct (Z.ltb_spec n 10) as [Hlt|Hge].
  - assert (Hd : digit_value (digit_char n) = Some n)
      by (apply digit_value_char; lia).
    repeat split.
    + constructor; [|constructor]. unfold is_digit. now rewrite Hd.
    + unfold horner. simpl. rewrite Hd. lia.
    + exists (digit_char n), []. split; [reflexivity|].
      intros E. rewrite E in Hd. simpl in Hd. split; congruence.
  - assert (Hf' : (1 <= f)%nat).
    { destruct f; [|lia]. simpl in Hn. lia. }
    assert (Hn' : 0 <= n / 10 < 2 ^ Z.of_nat f).
    { split; [apply Z.div_pos; lia|].
      apply Z.div_lt_upper_bound; [lia|].
      replace (Z.of_nat (S f)) with (Z.succ (Z.of_nat f)) in Hn by lia.
      rewrite Z.pow_succ_r in Hn by lia. lia. }
    destruct (IH (n / 10) Hn' Hf') as (Hall & Hval & c & r & Hc & Hz).
    rewrite digits_fuel_acc.
    assert (Hd : digit_value (digit_char (n mod 10)) = Some (n mod 10)).
    { apply digit_value_char. apply Z.mod_pos_bound. lia. }
    repeat split.
    + apply Forall_app. split; [exact Hall|].
      constructor; [|constructor]. unfold is_digit. now rewrite Hd.
    + unfold horner in *. rewrite fold_left_app, Hval. simpl.
      rewrite Hd. pose proof (Z.div_mod n 10). lia.
    + rewrite Hc. exists c, (r ++ [digit_char (n mod 10)]).
      split; [reflexivity|].
      intros E. destruct (Hz E) as [Hz0 _].
      assert (n / 10 > 0) by (apply Z.lt_gt, Z.div_str_pos; lia). lia.
Qed.

Lemma digits_spec n :
  0 <= n ->
  all_digits (digits n) /\ horner (digits n) 0 = n
  /\ exists c r, digits n = c :: r /\ (c = x30 -> n = 0 /\ r = []).
Proof.
  intros Hn. unfold digits. apply digits_fuel_spec; [|lia].
  split; [lia|].
  destruct (Z.eq_dec n 0) as [->|Hnz]; [simpl; lia|].
  replace (Z.of_nat (S (Z.to_nat (Z.log2 n)))) with (Z.succ (Z.log2 n))
    by (pose proof (Z.log2_nonneg n); lia).
  apply Z.log2_spec. lia.
Qed.

Lemma is_digit_not c : is_digit c = true ->
  c <> x3a /\ c <> x65 /\ c <> x2b /\ c <> x2d /\ c <> x5f
  /\ is_space c = false.
Proof. destruct c; simpl; intros H; try discriminate H; repeat split; discriminate. Qed.

Lemma all_digits_not_in c ds :
  is_digit c = false -> all_digits ds -> ~ In c ds.
Proof.
  intros Hc Hall Hin. unfold all_digits in Hall.
  rewrite Forall_forall in Hall. apply Hall in Hin. congruence.
Qed.

Lemma scan_all_digits ds : forall acc,
  all_digits ds -> scan_digits ds false acc = Some (horner ds acc, []).
Proof.
  induction ds as [|c r IH]; intros acc Hall; [reflexivity|].
  inversion Hall as [|? ? Hc Hr]; subst. simpl.
  unfold is_digit in Hc. unfold horner. simpl.
  destruct (digit_value c); [|discriminate].
  now apply IH.
Qed.

Lemma int_of_bytes_unsigned c r :
  is_digit c = true ->
  int_of_bytes (c :: r) =
  match scan_digits (c :: r) false 0 with
  | Some (v, rest) =>
      match skip_spaces rest with
      | [] => Some (1 * v)
      | _ :: _ => None
      end
  | None => None
  end.
Proof. intros Hd. destruct c; try discriminate Hd; reflexivity. Qed.

Lemma int_of_bytes_negative c r :
  is_digit c = true ->
  int_of_bytes (x2d :: c :: r) =
  match scan_digits (c :: r) false 0 with
  | Some (v, rest) =>
      match skip_spaces rest with
      | [] => Some (-1 * v)
      | _ :: _ => None
      end
  | None => None
  end.
Proof. intros Hd. destruct c; try discriminate Hd; reflexivity. Qed.

Lemma int_of_digits n : 0 <= n -> int_of_bytes (digits n) = Some n.
Proof.
  intros Hn. destruct (digits_spec n Hn) as (Hall & Hval & c & r & Hc & _).
  assert (Hd : is_digit c = true).
  { rewrite Hc in Hall. now inversion Hall. }
  rewrite Hc, int_of_bytes_unsigned, <- Hc, scan_all_digits by assumption.
  cbn [skip_spaces]. now rewrite Hval, Z.mul_1_l.
Qed.

Lemma int_of_str_int i : int_of_bytes (str_int i) = Some i.
Proof.
  unfold str_int. destruct (Z.ltb_spec i 0) as [Hneg|Hpos].
  - destruct (digits_spec (- i)) as (Hall & Hval & c & r & Hc & _); [lia|].
    assert (Hd : is_digit c = true).
    { rewrite Hc in Hall. now inversion Hall. }
    rewrite Hc, int_of_bytes_negative, <- Hc, scan_all_digits by assumption.
    cbn [skip_spaces]. rewrite Hval. f_equal. lia.
  - now apply int_of_digits.
Qed.

(** The text of an integer never trips the leading-zero test of
    [_decode_int] and holds no ['e'] and no [':']. *)
Lemma str_int_shape i :
  ~ In x65 (str_int i) /\ ~ In x3a (str_int i)
  /\ ((1 <? len (str_int i)) &&
      match str_int i with
      | i0 :: i1 :: _ =>
          Byte.eqb i0 x30 || (Byte.eqb i0 x2d && Byte.eqb i1 x30)
      | _ => false
      end = false)
  /\ exists c r, str_int i = c :: r /\ (is_digit c = true \/ c = x2d).
Proof.
  unfold str_int. destruct (Z.ltb_spec i 0) as [Hneg|Hpos].
  - destruct (digits_spec (- i)) as (Hall & Hval & c & r & Hc & Hz); [lia|].
    repeat split.
    + intros [E|Hin]; [discriminate|].
      revert Hin. now apply all_digits_not_in.
    + intros [E|Hin]; [discriminate|].
      revert Hin. now apply all_digits_not_in.
    + rewrite Hc. simpl Byte.eqb.
      destruct (Byte.eqb c x30) eqn:E.
      * apply Byte.byte_dec_bl in E. destruct (Hz E). lia.
      * simpl. apply andb_false_r.
    + eauto.
  - destruct (digits_spec i Hpos) as (Hall & Hval & c & r & Hc & Hz).
    repeat split.
    + now apply all_digits_not_in.
    + now apply all_digits_not_in.
    + rewrite Hc. destruct r as [|c' r'].
      * reflexivity.
      * destruct (Byte.eqb c x30) eqn:E.
        -- apply Byte.byte_dec_bl in E. destruct (Hz E). discriminate.
        -- assert (Hd : is_digit c = true).
           { rewrite Hc in Hall. now inversion Hall. }
           destruct (is_digit_not c Hd) as (_ & _ & _ & Hm & _).
           destruct (Byte.eqb c x2d) eqn:E2.
           ++ apply Byte.byte_dec_bl in E2. contradiction.
           ++ simpl. apply andb_false_r.
    + exists c, r. split; [assumption|]. left.
      rewrite Hc in Hall. now inversion Hall.
Qed.

End Decimal.

(** ** The decoder reads back what the grammar writes *)

Section DecoderFacts.

Lemma bdecode_S data fuel curr_byte i :
  Decoder._bdecode data (S fuel) curr_byte i =
  if Byte.eqb curr_byte x6c then
    '(lst, j) <- Decoder.list_loop data fuel [] (i + 1) ;;
    Ok (PyList lst, j + 1)
  else if Byte.eqb curr_byte x64 then
    '(d, j) <- Decoder.dict_loop data fuel [] (i + 1) ;;
    Ok (PyOrderedDict d, j + 1)
  else if Byte.eqb curr_byte x69 then
    '(n, j) <- Decoder._decode_int data i ;; Ok (PyInt n, j)
  else if is_digit curr_byte then
    '(s, j) <- Decoder._decode_str data i ;; Ok (PyBytes s, j)
  else Raise KeyError.
Proof. reflexivity. Qed.

Lemma list_loop_S data fuel lst i :
  Decoder.list_loop data (S fuel) lst i =
  if i <? len data then
    c <- getitem data i ;;
    if negb (Byte.eqb c x65) then
      curr_byte <- getitem data i ;;
      '(element, j) <- Decoder._bdecode data fuel curr_byte i ;;
      Decoder.list_loop data fuel (lst ++ [element]) j
    else Ok (lst, i)
  else Ok (lst, i).
Proof. reflexivity. Qed.

Lemma dict_loop_S data fuel d i :
  Decoder.dict_loop data (S fuel) d i =
  if i <? len data then
    c <- getitem data i ;;
    if negb (Byte.eqb c x65) then
      curr_byte <- getitem data i ;;
      '(key, j) <- Decoder._decode_str data i ;;
      curr_byte <- getitem data j ;;
      '(val, k) <- Decoder._bdecode data fuel curr_byte j ;;
      Decoder.dict_loop data fuel (setitem d key val) k
    else Ok (d, i)
  else Ok (d, i).
Proof. reflexivity. Qed.

Lemma eqb_neq x y : x <> y -> Byte.eqb x y = false.
Proof.
  intros H. destruct (Byte.eqb x y) eqn:E; [|reflexivity].
  apply Byte.byte_dec_bl in E. contradiction.
Qed.

Lemma decode_str_at pre s post :
  Decoder._decode_str (pre ++ bencoding (PyBytes s) ++ post) (len pre)
  = Ok (s, len pre + len (bencoding (PyBytes s))).
Proof.
  pose proof (len_nonneg pre) as Hpre. pose proof (len_nonneg s) as Hs.
  cbn [bencoding]. unfold str_int.
  destruct (Z.ltb_spec (len s) 0) as [|_]; [lia|].
  destruct (digits_spec (len s) Hs) as (Hall & _ & _).
  set (ds := digits (len s)) in *.
  pose proof (len_nonneg ds) as Hds.
  change (b ":") with [x3a].
  replace (pre ++ (ds ++ [x3a] ++ s) ++ post)
    with (pre ++ ds ++ x3a :: (s ++ post))
    by (now rewrite <- !app_assoc).
  unfold Decoder._decode_str.
  rewrite find_at by (now apply all_digits_not_in).
  destruct (Z.eqb_spec (len pre + len ds) (-1)) as [|_]; [lia|].
  rewrite slice_at. unfold ds at 1. rewrite int_of_digits by assumption.
  f_equal. f_equal.
  - replace (pre ++ ds ++ x3a :: s ++ post)
      with ((pre ++ ds ++ [x3a]) ++ s ++ post)
      by (now rewrite <- !app_assoc).
    replace (len pre + len ds + 1) with (len (pre ++ ds ++ [x3a]))
      by (rewrite !len_app; change (len [x3a]) with 1; lia).
    apply slice_at.
  - rewrite !len_app. change (len [x3a]) with 1. lia.
Qed.

Lemma decode_int_at pre i post :
  Decoder._decode_int (pre ++ bencoding (PyInt i) ++ post) (len pre)
  = Ok (i, len pre + len (bencoding (PyInt i))).
Proof.
  pose proof (len_nonneg pre) as Hpre.
  destruct (str_int_shape i) as (He & _ & Hz & _).
  cbn [bencoding]. set (t := str_int i) in *.
  pose proof (len_nonneg t) as Ht.
  change (b "i") with [x69]. change (b "e") with [x65].
  replace (pre ++ ([x69] ++ t ++ [x65]) ++ post)
    with ((pre ++ [x69]) ++ t ++ x65 :: post)
    by (now rewrite <- !app_assoc).
  unfold Decoder._decode_int.
  replace (len pre + 1) with (len (pre ++ [x69]))
    by (rewrite len_app; reflexivity).
  rewrite find_at by assumption.
  destruct (Z.eqb_spec (len (pre ++ [x69]) + len t) (-1)) as [E|_].
  { rewrite len_app in E. change (len [x69]) with 1 in E. lia. }
  rewrite slice_at, Hz. unfold t at 1. rewrite int_of_str_int.
  f_equal. f_equal. rewrite !len_app.
  change (len [x69]) with 1. change (len [x65]) with 1. lia.
Qed.

Lemma digit_dispatch c :
  is_digit c = true ->
  Byte.eqb c x6c = false /\ Byte.eqb c x64 = false
  /\ Byte.eqb c x69 = false /\ c <> x65.
Proof.
  destruct c; simpl; intros H; try discriminate H;
    repeat split; discriminate.
Qed.

Lemma bytes_decodes s : decodes (PyBytes s).
Proof.
  intros fuel pre post Hw.
  destruct fuel as [|f]; [simpl in Hw; lia|].
  pose proof (len_nonneg s) as Hs.
  destruct (digits_spec (len s) Hs) as (Hall & _ & c & r & Hc & _).
  assert (Hd : is_digit c = true).
  { rewrite Hc in Hall. now inversion Hall. }
  destruct (digit_dispatch c Hd) as (E1 & E2 & E3 & E4).
  exists c, (r ++ b ":" ++ s). split; [|split; [assumption|]].
  - cbn [bencoding]. unfold str_int.
    destruct (Z.ltb_spec (len s) 0); [lia|]. now rewrite Hc.
  - rewrite bdecode_S, E1, E2, E3, Hd, decode_str_at. reflexivity.
Qed.

Lemma int_decodes i : decodes (PyInt i).
Proof.
  intros fuel pre post Hw.
  destruct fuel as [|f]; [simpl in Hw; lia|].
  exists x69, (str_int i ++ b "e").
  split; [reflexivity|]. split; [discriminate|].
  rewrite bdecode_S. cbn [Byte.eqb]. simpl Byte.eqb.
  rewrite decode_int_at. reflexivity.
Qed.

End DecoderFacts.

(** ** Induction over nested objects *)

Section PyobjInduction.

Variable P : pyobj -> Prop.
Hypothesis HInt : forall i, P (PyInt i).
Hypothesis HBool : forall v, P (PyBool v).
Hypothesis HStr : forall s, P (PyStr s).
Hypothesis HBytes : forall s, P (PyBytes s).
Hypothesis HList : forall l, Forall P l -> P (PyList l).
Hypothesis HTuple : forall l, Forall P l -> P (PyTuple l).
Hypothesis HDict :
  forall d, Forall (fun kv => P (fst kv) /\ P (snd kv)) d -> P (PyDict d).
Hypothesis HOrderedDict :
  forall d, Forall (fun kv => P (fst kv) /\ P (snd kv)) d ->
            P (PyOrderedDict d).
Hypothesis HOther : forall t, P (PyOther t).

Lemma pyobj_nested_ind : forall x, P x.
Proof.
  fix IH 1. intros [i|v|s|s|l|l|d|d|t].
  - apply HInt.
  - apply HBool.
  - apply HStr.
  - apply HBytes.
  - apply HList. induction l as [|x r IHl]; constructor; [apply IH|exact IHl].
  - apply HTuple. induction l as [|x r IHl]; constructor; [apply IH|exact IHl].
  - apply HDict. induction d as [|[k x] r IHd]; constructor;
      [split; apply IH|exact IHd].
  - apply HOrderedDict. induction d as [|[k x] r IHd]; constructor;
      [split; apply IH|exact IHd].
  - apply HOther.
Qed.

End PyobjInduction.

Ltac len_arith :=
  repeat (rewrite len_app || rewrite len_cons);
  change (len (@nil byte)) with 0; lia.

Section Containers.

Lemma weight_pos v : (1 <= weight v)%nat.
Proof. destruct v; cbn [weight]; lia. Qed.

Lemma list_loop_values l :
  Forall decodes l ->
  forall fuel acc pre post,
    (list_sum (map weight l) < fuel)%nat ->
    Decoder.list_loop (pre ++ flat_map bencoding l ++ x65 :: post)
      fuel acc (len pre)
    = Ok (acc ++ l, len pre + len (flat_map bencoding l)).
Proof.
  induction 1 as [|v l Hv _ IH]; intros fuel acc pre post Hfuel;
    (destruct fuel as [|f]; [lia|]); rewrite list_loop_S;
    pose proof (len_nonneg pre) as Hpre.
  - cbn [flat_map app].
    pose proof (len_nonneg post).
    destruct (Z.ltb_spec (len pre) (len (pre ++ x65 :: post))) as [_|E].
    2:{ rewrite len_app, len_cons in E. lia. }
    rewrite getitem_at. cbn. rewrite app_nil_r. do 2 f_equal.
    change (len (@nil byte)) with 0. lia.
  - change (list_sum (map weight (v :: l)))
      with (weight v + list_sum (map weight l))%nat in Hfuel.
    cbn [flat_map].
    pose proof (weight_pos v) as Hpos.
    destruct (Hv f pre (flat_map bencoding l ++ x65 :: post))
      as (c & r & Hc & Hne & Hdec); [lia|].
    rewrite <- app_assoc.
    set (data := pre ++ bencoding v ++ flat_map bencoding l ++ x65 :: post) in *.
    assert (Hdata : data = pre ++ c :: (r ++ flat_map bencoding l ++ x65 :: post)).
    { unfold data. now rewrite Hc. }
    assert (Hget : getitem data (len pre) = Ok c).
    { rewrite Hdata. apply getitem_at. }
    destruct (Z.ltb_spec (len pre) (len data)) as [_|E].
    2:{ rewrite Hdata, len_app, len_cons in E.
        pose proof (len_nonneg (r ++ flat_map bencoding l ++ x65 :: post)).
        lia. }
    rewrite Hget. cbn [bind]. rewrite (eqb_neq _ _ Hne). cbn [negb].
    rewrite Hdec. cbn [bind].
    replace (len pre + len (bencoding v)) with (len (pre ++ bencoding v))
      by apply len_app.
    unfold data. rewrite app_assoc.
    rewrite IH by lia.
    rewrite <- app_assoc, !len_app. do 2 f_equal. lia.
Qed.

Lemma list_decodes l : Forall decodes l -> decodes (PyList l).
Proof.
  intros Hl fuel pre post Hw. cbn [weight] in Hw.
  destruct fuel as [|f]; [lia|].
  exists x6c, (flat_map bencoding l ++ b "e").
  split; [reflexivity|]. split; [discriminate|].
  rewrite bdecode_S. change (Byte.eqb x6c x6c) with true. cbv iota.
  cbn [bencoding]. change (b "l") with [x6c]. change (b "e") with [x65].
  replace (pre ++ ([x6c] ++ flat_map bencoding l ++ [x65]) ++ post)
    with ((pre ++ [x6c]) ++ flat_map bencoding l ++ x65 :: post)
    by (now rewrite <- !app_assoc).
  replace (len pre + 1) with (len (pre ++ [x6c]))
    by (rewrite len_app; reflexivity).
  rewrite list_loop_values by (assumption || lia).
  cbn [bind app]. do 2 f_equal. len_arith.
Qed.

(** A key that the dictionary does not hold yet goes last. *)
Lemma setitem_new d : forall key val rest,
  distinct (map fst (d ++ (PyBytes key, val) :: rest)) = true ->
  setitem d key val = d ++ [(PyBytes key, val)].
Proof.
  induction d as [|[k x] d IH]; intros key val rest Hd; [reflexivity|].
  cbn [app map fst distinct] in Hd.
  apply andb_true_iff in Hd as [Hk Hd].
  cbn [setitem app]. rewrite (IH _ _ _ Hd).
  destruct k; try reflexivity.
  destruct (bytes_eqb s key) eqn:E; [|reflexivity].
  apply negb_true_iff in Hk.
  rewrite map_app, existsb_app in Hk.
  apply orb_false_iff in Hk as [_ Hk].
  cbn [map fst existsb] in Hk. rewrite E in Hk. discriminate Hk.
Qed.

Lemma dict_loop_values d :
  Forall (fun kv => is_bytes (fst kv) = true /\ decodes (snd kv)) d ->
  forall fuel acc pre post,
    (list_sum (map (fun kv => weight (snd kv)) d) < fuel)%nat ->
    distinct (map fst (acc ++ d)) = true ->
    Decoder.dict_loop (pre ++ flat_map pair_bencoding d ++ x65 :: post)
      fuel acc (len pre)
    = Ok (acc ++ d, len pre + len (flat_map pair_bencoding d)).
Proof.
  induction 1 as [|[k v] d [Hk Hv] _ IH]; intros fuel acc pre post Hfuel Hdis;
    (destruct fuel as [|f]; [lia|]); rewrite dict_loop_S;
    pose proof (len_nonneg pre) as Hpre.
  - cbn [flat_map app].
    pose proof (len_nonneg post).
    destruct (Z.ltb_spec (len pre) (len (pre ++ x65 :: post))) as [_|E].
    2:{ rewrite len_app, len_cons in E. lia. }
    rewrite getitem_at. cbn. rewrite app_nil_r. do 2 f_equal.
    change (len (@nil byte)) with 0. lia.
  - change (list_sum (map (fun kv => weight (snd kv)) ((k, v) :: d)))
      with (weight v + list_sum (map (fun kv => weight (snd kv)) d))%nat
      in Hfuel.
    cbn [flat_map fst snd] in *.
    destruct k as [| | |key| | | | |]; try discriminate Hk.
    change (pair_bencoding (PyBytes key, v))
      with (bencoding (PyBytes key) ++ bencoding v).
    rewrite <- !app_assoc.
    remember (flat_map pair_bencoding d ++ x65 :: post) as tail eqn:Etail.
    remember (pre ++ bencoding (PyBytes key) ++ bencoding v ++ tail)
      as data eqn:Edata.
    destruct (bytes_decodes key 1%nat pre (bencoding v ++ tail))
      as (c & r & Hc & Hne & _); [cbn; lia|].
    pose proof (weight_pos v) as Hpos.
    destruct (Hv f (pre ++ bencoding (PyBytes key)) tail)
      as (c' & r' & Hc' & _ & Hdec); [lia|].
    assert (Hdata : data = pre ++ c :: (r ++ bencoding v ++ tail)).
    { rewrite Edata. now rewrite Hc. }
    assert (Hget : getitem data (len pre) = Ok c).
    { rewrite Hdata. apply getitem_at. }
    destruct (Z.ltb_spec (len pre) (len data)) as [_|E].
    2:{ rewrite Hdata, len_app, len_cons in E.
        pose proof (len_nonneg (r ++ bencoding v ++ tail)). lia. }
    rewrite Hget. cbn [bind]. rewrite (eqb_neq _ _ Hne). cbn [negb].
    rewrite Edata at 1. rewrite decode_str_at. cbn [bind].
    replace (len pre + len (bencoding (PyBytes key)))
      with (len (pre ++ bencoding (PyBytes key))) by apply len_app.
    assert (Hdata' : data = (pre ++ bencoding (PyBytes key)) ++ bencoding v ++ tail).
    { rewrite Edata. now rewrite <- app_assoc. }
    assert (Hget' : getitem data (len (pre ++ bencoding (PyBytes key))) = Ok c').
    { rewrite Hdata', Hc'. apply getitem_at. }
    rewrite Hget'. cbn [bind]. rewrite Hdata', Hdec. cbn [bind].
    rewrite (setitem_new acc key v d Hdis).
    replace (len (pre ++ bencoding (PyBytes key)) + len (bencoding v))
      with (len ((pre ++ bencoding (PyBytes key)) ++ bencoding v))
      by apply len_app.
    rewrite Etail, (app_assoc _ (bencoding v)).
    rewrite IH; [|lia|now rewrite <- app_assoc].
    rewrite <- app_assoc. do 2 f_equal. len_arith.
Qed.

Lemma dict_decodes d :
  Forall (fun kv => is_bytes (fst kv) = true /\ decodes (snd kv)) d ->
  distinct (map fst d) = true ->
  decodes (PyOrderedDict d).
Proof.
  intros Hd Hdis fuel pre post Hw. cbn [weight] in Hw.
  destruct fuel as [|f]; [lia|].
  exists x64, (flat_map pair_bencoding d ++ b "e").
  split; [reflexivity|]. split; [discriminate|].
  rewrite bdecode_S. change (Byte.eqb x64 x6c) with false.
  change (Byte.eqb x64 x64) with true. cbv iota.
  cbn [bencoding]. change (b "d") with [x64]. change (b "e") with [x65].
  fold pair_bencoding.
  replace (pre ++ ([x64] ++ flat_map pair_bencoding d ++ [x65]) ++ post)
    with ((pre ++ [x64]) ++ flat_map pair_bencoding d ++ x65 :: post)
    by (now rewrite <- !app_assoc).
  replace (len pre + 1) with (len (pre ++ [x64]))
    by (rewrite len_app; reflexivity).
  rewrite dict_loop_values by (assumption || lia).
  cbn [bind app]. do 2 f_equal. len_arith.
Qed.

Lemma value_decodes : forall v, is_value v = true -> decodes v.
Proof.
  induction v as [i|w|s|s|l IH|l IH|d IH|d IH|t] using pyobj_nested_ind;
    intros Hv; try discriminate Hv.
  - apply int_decodes.
  - apply bytes_decodes.
  - apply list_decodes. cbn [is_value] in Hv.
    rewrite forallb_forall in Hv. rewrite Forall_forall in *.
    intros x Hx. apply IH; auto.
  - cbn [is_value] in Hv. apply andb_true_iff in Hv as [Hall Hdis].
    apply dict_decodes; [|assumption].
    rewrite forallb_forall in Hall. rewrite Forall_forall in *.
    intros kv Hkv. specialize (Hall kv Hkv).
    apply andb_true_iff in Hall as [Hk Hx].
    split; [assumption|]. now apply IH.
Qed.

End Containers.

(** ** The encoder writes the grammar *)

Section EncoderFacts.

Lemma for_each_values l :
  Forall encodes l ->
  forall acc, exists chunks,
    Encoder.for_each Encoder._encode_func l acc = Ok (acc ++ chunks)
    /\ List.concat chunks = flat_map bencoding l.
Proof.
  induction 1 as [|x l Hx _ IH]; intros acc.
  - exists []. now rewrite app_nil_r.
  - destruct (Hx acc) as (c1 & E1 & C1).
    destruct (IH (acc ++ c1)) as (c2 & E2 & C2).
    exists (c1 ++ c2). cbn [Encoder.for_each flat_map].
    rewrite E1. cbn [bind]. rewrite E2, concat_app, C1, C2.
    now rewrite app_assoc.
Qed.

Lemma for_each_pairs d :
  Forall (fun kv => encodes (fst kv) /\ encodes (snd kv)) d ->
  forall acc, exists chunks,
    Encoder.for_each
      (fun kv _bencoded =>
         _bencoded <- Encoder._encode_func (fst kv) _bencoded ;;
         Encoder._encode_func (snd kv) _bencoded) d acc
    = Ok (acc ++ chunks)
    /\ List.concat chunks = flat_map pair_bencoding d.
Proof.
  induction 1 as [|[k x] d [Hk Hx] _ IH]; intros acc.
  - exists []. now rewrite app_nil_r.
  - cbn [fst snd] in *.
    destruct (Hk acc) as (c1 & E1 & C1).
    destruct (Hx (acc ++ c1)) as (c2 & E2 & C2).
    destruct (IH ((acc ++ c1) ++ c2)) as (c3 & E3 & C3).
    exists (c1 ++ c2 ++ c3). cbn [Encoder.for_each flat_map fst snd].
    rewrite E1. cbn [bind]. rewrite E2. cbn [bind].
    rewrite E3, !concat_app, C1, C2, C3. unfold pair_bencoding at 2.
    cbn [fst snd]. now rewrite <- !app_assoc.
Qed.

Lemma value_encodes : forall v, is_value v = true -> encodes v.
Proof.
  induction v as [i|w|s|s|l IH|l IH|d IH|d IH|t] using pyobj_nested_ind;
    intros Hv; try discriminate Hv; intros acc.
  - exists [bencoding (PyInt i)]. split; [reflexivity|apply app_nil_r].
  - exists [bencoding (PyBytes s)]. split; [reflexivity|apply app_nil_r].
  - cbn [is_value] in Hv. rewrite forallb_forall in Hv.
    assert (Hl : Forall encodes l).
    { rewrite Forall_forall in *. intros x Hx. apply IH; auto. }
    destruct (for_each_values l Hl (acc ++ [b "l"])) as (ch & E & C).
    exists ([b "l"] ++ ch ++ [b "e"]).
    cbn [Encoder._encode_func]. rewrite E. cbn [bind].
    split; [now rewrite <- !app_assoc|].
    rewrite !concat_app, C. cbn [List.concat bencoding].
    now rewrite !app_nil_r.
  - cbn [is_value] in Hv. apply andb_true_iff in Hv as [Hall _].
    rewrite forallb_forall in Hall.
    assert (Hd : Forall (fun kv => encodes (fst kv) /\ encodes (snd kv)) d).
    { rewrite Forall_forall in *. intros kv Hkv.
      specialize (Hall kv Hkv). apply andb_true_iff in Hall as [Hk Hx].
      destruct (IH kv Hkv) as [IHk IHx]. split; [apply IHk|apply IHx]; auto.
      destruct (fst kv); try discriminate Hk. reflexivity. }
    destruct (for_each_pairs d Hd (acc ++ [b "d"])) as (ch & E & C).
    exists ([b "d"] ++ ch ++ [b "e"]).
    cbn [Encoder._encode_func]. rewrite E. cbn [bind].
    split; [now rewrite <- !app_assoc|].
    rewrite !concat_app, C. cbn [List.concat bencoding].
    now rewrite !app_nil_r.
Qed.

Lemma encode_value v : is_value v = true -> encode v = Ok (bencoding v).
Proof.
  intros Hv. destruct (value_encodes v Hv []) as (ch & E & C).
  unfold encode, Encoder.encode. rewrite E. cbn [app]. now rewrite C.
Qed.

Lemma decode_bencoding v fuel :
  is_value v = true -> (weight v <= fuel)%nat ->
  decode fuel (bencoding v) = Ok v.
Proof.
  intros Hv Hfuel.
  destruct (value_decodes v Hv fuel [] [] Hfuel) as (c & r & Hc & _ & Hdec).
  cbn [app] in Hdec. rewrite app_nil_r in Hdec.
  unfold decode, Decoder.decode.
  change (len (@nil byte)) with 0 in Hdec.
  assert (Hget : getitem (bencoding v) 0 = Ok c).
  { rewrite Hc. apply (getitem_at [] c r). }
  rewrite Hget. cbn [bind]. rewrite Hdec. cbn [bind].
  rewrite Hc at 1. rewrite Z.add_0_l, Z.eqb_refl. reflexivity.
Qed.

End EncoderFacts.

(** ** The bencoding codec *)



(** The literal examples of the grammar. *)
Example decode_literals :
  decode 4 (b "4:spam") = Ok (PyBytes (b "spam"))
  /\ decode 4 (b "i42e") = Ok (PyInt 42)
  /\ decode 4 (b "l4:spam4:eggse")
     = Ok (PyList [PyBytes (b "spam"); PyBytes (b "eggs")])
  /\ decode 4 (b "d3:cow3:moo4:spam4:eggse")
     = Ok (PyOrderedDict [(PyBytes (b "cow"), PyBytes (b "moo"));
                          (PyBytes (b "spam"), PyBytes (b "eggs"))]).
Proof. repeat split. Qed.

Example decode_rejected :
  decode 4 (b "3:ab") = Raise (InvalidTorrentFileBencoding TrailingBytes)
  /\ decode 4 (b "i03e") = Raise (InvalidTorrentFileBencoding (LeadingZero 1))
  /\ decode 4 (b "i-0e") = Raise (InvalidTorrentFileBencoding (LeadingZero 1))
  /\ decode 4 (b "l4:spam") = Raise (InvalidTorrentFileBencoding TrailingBytes)
  /\ decode 4 (b "i1ee") = Raise (InvalidTorrentFileBencoding TrailingBytes)
  /\ decode 4 (b "ie") = Raise (InvalidTorrentFileBencoding (InvalidInteger 1))
  /\ decode 4 (b "i12") = Raise (InvalidTorrentFileBencoding (MissingEnd 1))
  /\ decode 4 (b "12") = Raise (InvalidTorrentFileBencoding (MissingColon 0)).
Proof. repeat split. Qed.

(** C4.  The decoder lets other errors than its own escape: a leading
    byte outside its dispatch table raises [KeyError], a mapping whose
    last key has no value raises [IndexError], and the empty buffer raises
    [TypeError]. *)
Theorem decode_raises_foreign_errors (fuel : nat) :
  decode (S fuel) (b "x") = Raise KeyError
  /\ decode (S fuel) (b "e") = Raise KeyError
  /\ decode (S (S fuel)) (b "d3:ab") = Raise IndexError
  /\ decode fuel (b "") = Raise TypeError.
Proof. repeat split. Qed.

(** On [b"d0:0:-5:"] the decoder never returns: the key [-5:] moves the
    cursor back to the value [0:], after which the cursor is on that key
    again, with the same dictionary. *)
Lemma dict_loop_cycle_step (fuel : nat) :
  Decoder.dict_loop (b "d0:0:-5:") (S (S fuel)) [(PyBytes [], PyBytes [])] 5
  = Decoder.dict_loop (b "d0:0:-5:") (S fuel) [(PyBytes [], PyBytes [])] 5.
Proof.
  rewrite (dict_loop_S _ (S fuel)).
  change (5 <? len (b "d0:0:-5:")) with true. cbv iota.
  change (getitem (b "d0:0:-5:") 5) with (@Ok byte x2d). cbn [bind].
  change (negb (Byte.eqb x2d x65)) with true. cbv iota.
  change (Decoder._decode_str (b "d0:0:-5:") 5)
    with (@Ok (bytes * Z) ([], 3)). cbn [bind].
  change (getitem (b "d0:0:-5:") 3) with (@Ok byte x30). cbn [bind].
  rewrite bdecode_S.
  change (Byte.eqb x30 x6c) with false. change (Byte.eqb x30 x64) with false.
  change (Byte.eqb x30 x69) with false. change (is_digit x30) with true.
  cbv iota.
  change (Decoder._decode_str (b "d0:0:-5:") 3)
    with (@Ok (bytes * Z) ([], 5)). cbn [bind].
  reflexivity.
Qed.

Lemma dict_loop_cycles (fuel : nat) :
  Decoder.dict_loop (b "d0:0:-5:") fuel [(PyBytes [], PyBytes [])] 5
  = Diverged.
Proof.
  induction fuel as [|f IH]; [reflexivity|].
  destruct f as [|f']; [reflexivity|].
  now rewrite dict_loop_cycle_step.
Qed.

Theorem decode_diverges (fuel : nat) : decode fuel (b "d0:0:-5:") = Diverged.
Proof.
  destruct fuel as [|[|[|f]]]; try reflexivity.
  unfold decode, Decoder.decode.
  change (getitem (b "d0:0:-5:") 0) with (@Ok byte x64). cbn [bind].
  rewrite bdecode_S. change (Byte.eqb x64 x6c) with false.
  change (Byte.eqb x64 x64) with true. cbv iota.
  rewrite dict_loop_S.
  change (0 + 1 <? len (b "d0:0:-5:")) with true. cbv iota.
  change (getitem (b "d0:0:-5:") (0 + 1)) with (@Ok byte x30). cbn [bind].
  change (negb (Byte.eqb x30 x65)) with true. cbv iota.
  change (Decoder._decode_str (b "d0:0:-5:") (0 + 1))
    with (@Ok (bytes * Z) ([], 3)). cbn [bind].
  change (getitem (b "d0:0:-5:") 3) with (@Ok byte x30). cbn [bind].
  rewrite bdecode_S.
  change (Byte.eqb x30 x6c) with false. change (Byte.eqb x30 x64) with false.
  change (Byte.eqb x30 x69) with false. change (is_digit x30) with true.
  cbv iota.
  change (Decoder._decode_str (b "d0:0:-5:") 3)
    with (@Ok (bytes * Z) ([], 5)). cbn [bind].
  change (setitem [] [] (PyBytes [])) with [(PyBytes [], PyBytes [])].
  now rewrite dict_loop_cycles.
Qed.

(** C5.  The length of a byte string is whatever [int()] reads from the
    bytes before the colon: white space, underscores and, where the
    decoder does not dispatch on the first byte (the keys of a mapping), a
    sign are accepted, and a negative length moves the cursor backwards. *)
Theorem decode_str_accepts_non_decimal_length (fuel : nat) :
  decode (S fuel) (b "1 :a") = Ok (PyBytes (b "a"))
  /\ decode (S fuel) (b "1_0:0123456789") = Ok (PyBytes (b "0123456789"))
  /\ decode (S (S (S fuel))) (b "d+1:ai1ee")
     = Ok (PyOrderedDict [(PyBytes (b "a"), PyInt 1)])
  /\ decode (S (S (S fuel))) (b "d-2:abe")
     = Ok (PyOrderedDict [(PyBytes (b ""), PyBytes (b "ab"))]).
Proof. repeat split. Qed.

(** C6.  The digits of an integer are whatever [int()] accepts once the
    two leading-zero tests have passed: a plus sign, surrounding white
    space and underscores between digits are read, and a zero that follows
    white space or a plus sign is not seen as a leading zero. *)
Theorem decode_int_accepts_non_digits (fuel : nat) :
  decode (S fuel) (b "i+5e") = Ok (PyInt 5)
  /\ decode (S fuel) (b "i 5e") = Ok (PyInt 5)
  /\ decode (S fuel) (b "i1_0e") = Ok (PyInt 10)
  /\ decode (S fuel) (b "i 03e") = Ok (PyInt 3)
  /\ decode (S fuel) (b "i+0e") = Ok (PyInt 0).
Proof. repeat split. Qed.

(** ** Unsupported types *)

Section Unsupported.

Lemma utf8_ok c : is_surrogate c = false -> exists s, utf8 c = Ok s.
Proof.
  unfold utf8, is_surrogate. intros H. rewrite H.
  destruct (c <? 128); [eauto|].
  destruct (c <? 2048); [eauto|].
  destruct (c <? 65536); eauto.
Qed.

Lemma str_encode_ok s :
  forallb (fun c => negb (is_surrogate c)) s = true ->
  exists t, str_encode s = Ok t.
Proof.
  induction s as [|c r IH]; intros H; [now exists []|].
  cbn [forallb] in H. apply andb_true_iff in H as [Hc Hr].
  apply negb_true_iff in Hc.
  destruct (utf8_ok c Hc) as (x & Ex). destruct (IH Hr) as (y & Ey).
  exists (x ++ y). cbn [str_encode]. now rewrite Ex, Ey.
Qed.

Lemma for_each_outcome {A} (body : A -> list bytes -> outcome (list bytes))
      (sup enc : A -> bool) (l : list A) :
  Forall (fun x => enc x = true -> forall acc,
              if sup x then exists out, body x acc = Ok out
              else body x acc = Raise KeyError) l ->
  forallb enc l = true ->
  forall acc,
    if forallb sup l then exists out, Encoder.for_each body l acc = Ok out
    else Encoder.for_each body l acc = Raise KeyError.
Proof.
  induction 1 as [|x l Hx _ IH]; intros He acc; [now exists acc|].
  cbn [forallb] in *. apply andb_true_iff in He as [Hex Hel].
  specialize (Hx Hex acc). cbn [Encoder.for_each].
  destruct (sup x).
  - destruct Hx as (out & ->). cbn [bind andb]. now apply IH.
  - rewrite Hx. reflexivity.
Qed.

Lemma container_outcome {A} body (sup : A -> bool) l acc open :
  (if forallb sup l
   then exists out, Encoder.for_each body l (acc ++ [open]) = Ok out
   else Encoder.for_each body l (acc ++ [open]) = Raise KeyError) ->
  if forallb sup l
  then exists out,
      (_bencoded <- Encoder.for_each body l (acc ++ [open]) ;;
       Ok (_bencoded ++ [b "e"])) = Ok out
  else (_bencoded <- Encoder.for_each body l (acc ++ [open]) ;;
        Ok (_bencoded ++ [b "e"])) = Raise KeyError.
Proof.
  destruct (forallb sup l).
  - intros (out & ->). cbn [bind]. eauto.
  - intros ->. reflexivity.
Qed.

Lemma pair_outcome kv :
  dispatch_outcome (fst kv) /\ dispatch_outcome (snd kv) ->
  encodable_text (fst kv) && encodable_text (snd kv) = true ->
  forall acc,
    if supported (fst kv) && supported (snd kv)
    then exists out,
        (_bencoded <- Encoder._encode_func (fst kv) acc ;;
         Encoder._encode_func (snd kv) _bencoded) = Ok out
    else (_bencoded <- Encoder._encode_func (fst kv) acc ;;
          Encoder._encode_func (snd kv) _bencoded) = Raise KeyError.
Proof.
  intros [Hk Hx] He acc. apply andb_true_iff in He as [Hek Hex].
  specialize (Hk Hek acc).
  destruct (supported (fst kv)).
  - destruct Hk as (out & ->). cbn [bind andb]. now apply Hx.
  - rewrite Hk. reflexivity.
Qed.

Lemma encode_func_outcome : forall x, dispatch_outcome x.
Proof.
  induction x as [i|w|s|s|l IH|l IH|d IH|d IH|t] using pyobj_nested_ind;
    intros He acc; cbn [supported Encoder._encode_func].
  - eexists. reflexivity.
  - destruct w; eexists; reflexivity.
  - cbn [encodable_text] in He.
    destruct (str_encode_ok s He) as (t & Et).
    unfold Encoder._encode_str. rewrite Et. eexists. reflexivity.
  - eexists. reflexivity.
  - apply container_outcome.
    now apply (for_each_outcome _ supported encodable_text).
  - apply container_outcome.
    now apply (for_each_outcome _ supported encodable_text).
  - apply container_outcome.
    apply (for_each_outcome _
             (fun kv => supported (fst kv) && supported (snd kv))
             (fun kv => encodable_text (fst kv) && encodable_text (snd kv)));
      [|exact He].
    rewrite Forall_forall in *. intros kv Hkv. now apply pair_outcome, IH.
  - apply container_outcome.
    apply (for_each_outcome _
             (fun kv => supported (fst kv) && supported (snd kv))
             (fun kv => encodable_text (fst kv) && encodable_text (snd kv)));
      [|exact He].
    rewrite Forall_forall in *. intros kv Hkv. now apply pair_outcome, IH.
  - reflexivity.
Qed.

(** With encodable text, an object of an unsupported type at any depth
    makes [encode] fail with [InvalidBencodeDataType]. *)
Lemma encode_unsupported x :
  encodable_text x = true -> supported x = false ->
  encode x = Raise InvalidBencodeDataType.
Proof.
  intros He Hs. pose proof (encode_func_outcome x He []) as H.
  rewrite Hs in H. unfold encode, Encoder.encode. now rewrite H.
Qed.

Lemma encode_bool :
  encode (PyBool true) = Ok (b "i1e") /\ encode (PyBool false) = Ok (b "i0e").
Proof. split; reflexivity. Qed.

End Unsupported.

(** C9.  An object of an unsupported type that sits behind a text string
    with a lone surrogate is not reported as such: [s.encode()] raises
    [UnicodeEncodeError] first, and [encode] converts only [KeyError] and
    [UnicodeDecodeError]. *)
Theorem encode_unsupported_behind_surrogate :
  let x := PyList [PyStr [55296]; PyOther "NoneType"] in
  supported x = false /\ encode x = Raise UnicodeEncodeError.
Proof. split; reflexivity. Qed.

(** ** Wire messages *)

Section StructFacts.

Lemma pack_uint_fits width x :
  fits width x = true -> pack_uint width (VInt x) = Ok (be_bytes width x).
Proof. unfold fits, pack_uint. now intros ->. Qed.

Lemma pack_uint_overflow width x :
  fits width x = false -> pack_uint width (VInt x) = Raise StructError.
Proof. unfold fits, pack_uint. now intros ->. Qed.

Lemma pack_s_exact s : pack_s (len s) (VBytes s) = Ok s.
Proof.
  unfold pack_s. pose proof (len_nonneg s).
  destruct (Z.ltb_spec (len s) 0); [lia|].
  rewrite to_nat_len, firstn_all, Nat.sub_diag. cbn [repeat].
  now rewrite app_nil_r.
Qed.

Lemma be_int_single c : be_int [c] = ord c.
Proof. unfold be_int. cbn [fold_left]. lia. Qed.

End StructFacts.

(** C2.  [pieces_status] follows the stated bit order on [0b10100000],
    but a byte whose leading bits are clear yields fewer than eight
    booleans: [lstrip] removes the leading zeros of [bin(byte_)], so
    [0b00000001] gives the single boolean [true], for piece 0, where the
    bit order gives [true] for piece 7 alone; the pieces of every later
    byte move down with it. *)
Theorem pieces_status_drops_leading_zero_bits :
  Bitfield.__init__ [xa0] = Ok (Bitfield 2 5 [xa0])
  /\ Bitfield.pieces_status (Bitfield 2 5 [xa0])
     = Ok [true; false; true; false; false; false; false; false]
  /\ Bitfield.__init__ [x01] = Ok (Bitfield 2 5 [x01])
  /\ Bitfield.pieces_status (Bitfield 2 5 [x01]) = Ok [true]
  /\ expected_status [x01]
     = [false; false; false; false; false; false; false; true]
  /\ Bitfield.pieces_status (Bitfield 3 5 [x00; x80])
     = Ok [true; false; false; false; false; false; false; false]
  /\ expected_status [x00; x80]
     = [false; false; false; false; false; false; false; false;
        true; false; false; false; false; false; false; false].
Proof. repeat split. Qed.

(** Where every byte has its most significant bit set, [pieces_status]
    is the stated expansion. *)
Lemma bits_of_high_byte c :
  (128 <=? ord c) = true ->
  Bitfield.bits_status (lstrip "0b" (bin (ord c)))
  = map (bit_from_msb c) [0; 1; 2; 3; 4; 5; 6; 7].
Proof. destruct c; intros H; try discriminate H; reflexivity. Qed.

Lemma pieces_of_high_bytes bitfield :
  forallb (fun c => 128 <=? ord c) bitfield = true ->
  forall pieces,
    Bitfield.pieces_of bitfield pieces = pieces ++ expected_status bitfield.
Proof.
  induction bitfield as [|c r IH]; intros H pieces.
  - cbn. now rewrite app_nil_r.
  - cbn [forallb] in H. apply andb_true_iff in H as [Hc Hr].
    cbn [Bitfield.pieces_of]. rewrite (IH Hr), (bits_of_high_byte c Hc).
    unfold expected_status. cbn [flat_map]. now rewrite <- app_assoc.
Qed.

(** C3, as the code has it.  An instance that a constructor returned is
    serialized to a byte string whenever each of its integer attributes
    fits the unsigned field it is packed into; [to_bytes] is a function of
    the instance. *)
Theorem to_bytes_total_on_fitting_fields (m : message) :
  constructed m -> fields_fit m = true ->
  exists payload, to_bytes m = Ok payload.
Proof.
  intros _ Hfit. destruct m; cbn [fields_fit] in Hfit;
    repeat match goal with
           | H : _ && _ = true |- _ => apply andb_true_iff in H as [? ?]
           end;
    cbn [to_bytes BaseMessage.to_bytes IDMessage.to_bytes IDMessage.msg_id
         Handshake.to_bytes Have.to_bytes Bitfield.to_bytes Request.to_bytes
         Piece.to_bytes Cancel.to_bytes Port.to_bytes BaseMessage.msg_len
         bind pack Handshake.STRUCT Have.STRUCT Bitfield.STRUCT
         Request.STRUCT Piece.STRUCT Cancel.STRUCT Port.STRUCT];
    rewrite ?pack_uint_fits by assumption; cbn [bind];
    rewrite ?pack_s_exact; cbn [bind]; eauto.
  (* Handshake: the four fixed-width byte strings *)
  unfold pack_s. cbn [Z.ltb Z.compare bind]. eauto.
Qed.

Lemma to_bytes_total_on_fitting_fields_witness :
  exists payload, to_bytes (Have 5 4 7) = Ok payload.
Proof.
  apply to_bytes_total_on_fitting_fields.
  - apply (c_Have 7). reflexivity.
  - reflexivity.
Defined.

(** C3, as stated, fails: [Have(-1)] is constructed, and cannot be packed. *)
Lemma to_bytes_fails_on_constructed_instance :
  ~ (forall m, constructed m -> exists payload, to_bytes m = Ok payload).
Proof.
  intros H.
  destruct (H (Have 5 4 (-1)) (c_Have (-1) _ eq_refl)) as (payload & E).
  discriminate E.
Qed.

(** A constructed [Have] whose piece index does not fit 4 bytes is never
    serialized. *)
Lemma have_to_bytes_overflow piece_index :
  fits 4 piece_index = false ->
  exists m, Have.__init__ piece_index = Ok m /\ to_bytes m = Raise StructError.
Proof.
  intros H. eexists. split; [reflexivity|].
  cbn [to_bytes Have.to_bytes pack Have.STRUCT].
  change (pack_uint 4 (VInt Have.LENGTH)) with (@Ok bytes (be_bytes 4 5)).
  change (pack_uint 1 (VInt Have.ID)) with (@Ok bytes (be_bytes 1 4)).
  cbn [bind]. now rewrite (pack_uint_overflow 4 piece_index H).
Qed.

(** The constructor of [Port] returns for a negative port as well. *)
Example port_constructor_accepts_negative :
  Port.__init__ (-1) = Ok (Port 3 9 (-1))
  /\ to_bytes (Port 3 9 (-1)) = Raise StructError.
Proof. split; reflexivity. Qed.

(** ** The dispatcher *)

Section Dispatcher.

Ltac unfold_from_bytes :=
  unfold Choke.from_bytes, Unchoke.from_bytes, Interested.from_bytes,
    NotInterested.from_bytes, IDMessage.from_bytes, Have.from_bytes,
    Bitfield.from_bytes, Request.from_bytes, Piece.from_bytes,
    Cancel.from_bytes, Port.from_bytes, unpack.

Ltac split_tests :=
  repeat match goal with
         | |- context [if ?c then _ else _] => destruct c
         end.

(** No [from_bytes] of the table raises [KeyError], so the handler of
    the dispatcher only ever sees the failed look-up. *)
Lemma from_bytes_no_KeyError i from_bytes payload :
  MessageDecoder._MESSAGE_CLASS i = Some from_bytes ->
  from_bytes payload <> Raise KeyError.
Proof.
  intros H. unfold MessageDecoder._MESSAGE_CLASS in H.
  destruct i as [|p|p]; try discriminate H;
    repeat (destruct p as [p|p|]; try discriminate H);
    injection H as <-; unfold_from_bytes; split_tests; cbn; discriminate.
Qed.

Lemma table_keys i :
  i < 0 \/ 9 < i -> MessageDecoder._MESSAGE_CLASS i = None.
Proof.
  intros H. destruct i as [|p|p]; [lia| |reflexivity].
  repeat (destruct p as [p|p|]; try lia; try reflexivity).
Qed.

(** The dispatcher on a payload of five bytes or more whose first byte
    is not 19. *)
Lemma decode_message_tagged first p1 p2 p3 id rest :
  ord first <> 19 ->
  let payload := first :: p1 :: p2 :: p3 :: id :: rest in
  decode_message payload =
  match MessageDecoder._MESSAGE_CLASS (ord id) with
  | Some from_bytes => from_bytes payload
  | None => Raise (InvalidMessageStructure "Unknown message ID.")
  end.
Proof.
  intros Hfirst payload.
  unfold decode_message, MessageDecoder.decode_message.
  pose proof (len_nonneg rest) as Hrest.
  assert (Hlen : len payload = 5 + len rest).
  { unfold payload. rewrite !len_cons. lia. }
  destruct (Z.ltb_spec (len payload) 4); [lia|].
  destruct (Z.eqb_spec (len payload) 4); [lia|].
  change (getitem payload 0) with (getitem ([] ++ first :: tl payload) (len (@nil byte))).
  rewrite getitem_at. cbn [bind].
  destruct (Z.eqb_spec (ord first) 19); [contradiction|].
  change payload with ([first; p1; p2; p3] ++ [id] ++ rest) at 1.
  change 4 with (len [first; p1; p2; p3]) at 1.
  change 5 with (len [first; p1; p2; p3] + len [id]).
  rewrite slice_at.
  change (unpack [fB] [id]) with (@Ok (list sval) [VInt (be_int [id])]).
  cbn [bind int_at nth_error]. rewrite be_int_single.
  destruct (MessageDecoder._MESSAGE_CLASS (ord id)) as [from_bytes|] eqn:E;
    [|reflexivity].
  pose proof (from_bytes_no_KeyError _ _ payload E) as Hk.
  destruct (from_bytes payload) as [m|e|]; try reflexivity.
  destruct e; try reflexivity. contradiction.
Qed.

End Dispatcher.

(** C7.  The dispatcher rejects a payload of fewer than 4 bytes, answers
    [KeepAlive] on any payload of exactly 4 bytes, hands a longer payload
    whose first byte is 19 to [Handshake.from_bytes], and otherwise reads
    byte 4 as the identifier: identifiers 0 to 9 hand the whole payload to
    the [from_bytes] of Choke, Unchoke, Interested, NotInterested, Have,
    Bitfield, Request, Piece, Cancel and Port in that order, any other
    identifier fails with 'Unknown message ID.'; and the bytes of a [Choke]
    are dispatched to an equal [Choke]. *)
Theorem dispatcher_classifies :
  (forall payload,
      len payload < 4 ->
      decode_message payload =
      Raise (InvalidMessageStructure
               "Valid messages must be at least 4 bytes in length."))
  /\ (forall payload,
         len payload = 4 -> decode_message payload = Ok (KeepAlive 0))
  /\ (forall p1 p2 p3 p4 rest,
         let payload := x13 :: p1 :: p2 :: p3 :: p4 :: rest in
         decode_message payload = Handshake.from_bytes payload)
  /\ (forall first p1 p2 p3 id rest,
         ord first <> 19 ->
         let payload := first :: p1 :: p2 :: p3 :: id :: rest in
         (ord id = 0 -> decode_message payload = Choke.from_bytes payload)
         /\ (ord id = 1 -> decode_message payload = Unchoke.from_bytes payload)
         /\ (ord id = 2 -> decode_message payload = Interested.from_bytes payload)
         /\ (ord id = 3 -> decode_message payload = NotInterested.from_bytes payload)
         /\ (ord id = 4 -> decode_message payload = Have.from_bytes payload)
         /\ (ord id = 5 -> decode_message payload = Bitfield.from_bytes payload)
         /\ (ord id = 6 -> decode_message payload = Request.from_bytes payload)
         /\ (ord id = 7 -> decode_message payload = Piece.from_bytes payload)
         /\ (ord id = 8 -> decode_message payload = Cancel.from_bytes payload)
         /\ (ord id = 9 -> decode_message payload = Port.from_bytes payload)
         /\ (9 < ord id ->
             decode_message payload =
             Raise (InvalidMessageStructure "Unknown message ID.")))
  /\ (exists choke payload choke',
         Choke.__init__ = Ok choke /\ to_bytes choke = Ok payload
         /\ decode_message payload = Ok choke'
         /\ BaseMessage.__eq__ choke choke' = true).
Proof.
  split; [|split; [|split; [|split]]].
  - intros payload H. unfold decode_message, MessageDecoder.decode_message.
    destruct (Z.ltb_spec (len payload) 4); [reflexivity|lia].
  - intros payload H. unfold decode_message, MessageDecoder.decode_message.
    rewrite H. reflexivity.
  - intros p1 p2 p3 p4 rest payload.
    unfold decode_message, MessageDecoder.decode_message.
    pose proof (len_nonneg rest) as Hrest.
    assert (Hlen : len payload = 5 + len rest).
    { unfold payload. rewrite !len_cons. lia. }
    destruct (Z.ltb_spec (len payload) 4); [lia|].
    destruct (Z.eqb_spec (len payload) 4); [lia|].
    change (getitem payload 0)
      with (getitem ([] ++ x13 :: tl payload) (len (@nil byte))).
    rewrite getitem_at. reflexivity.
  - intros first p1 p2 p3 id rest Hfirst payload.
    pose proof (decode_message_tagged first p1 p2 p3 id rest Hfirst) as E.
    cbv zeta in E. fold payload in E.
    repeat split; intros Hid; rewrite E;
      try (rewrite Hid; reflexivity).
    now rewrite table_keys by lia.
  - exists (Choke 1 0), [x00; x00; x00; x01; x00], (Choke 1 0).
    repeat split.
Qed.

Lemma dispatcher_classifies_witness :
  decode_message [x00; x00; x00] =
  Raise (InvalidMessageStructure
           "Valid messages must be at least 4 bytes in length.")
  /\ decode_message [xff; x01; x02; x03] = Ok (KeepAlive 0)
  /\ decode_message [x00; x00; x00; x01; x01] = Unchoke.from_bytes [x00; x00; x00; x01; x01]
  /\ decode_message [x00; x00; x00; x01; x0a] =
     Raise (InvalidMessageStructure "Unknown message ID.").
Proof.
  destruct dispatcher_classifies as (Hshort & Hkeep & _ & Htag & _).
  split; [apply Hshort; reflexivity|].
  split; [apply Hkeep; reflexivity|].
  destruct (Htag x00 x00 x00 x01 x01 [] ltac:(discriminate))
    as (_ & H1 & _).
  split; [apply H1; reflexivity|].
  destruct (Htag x00 x00 x00 x01 x0a [] ltac:(discriminate))
    as (_ & _ & _ & _ & _ & _ & _ & _ & _ & _ & H10).
  apply H10. reflexivity.
Defined.

(** ** The handshake *)

Section HandshakeFacts.

Lemma exactly_20 (s : bytes) :
  len s = 20 ->
  exists c0 c1 c2 c3 c4 c5 c6 c7 c8 c9 d0 d1 d2 d3 d4 d5 d6 d7 d8 d9,
    s = [c0; c1; c2; c3; c4; c5; c6; c7; c8; c9;
         d0; d1; d2; d3; d4; d5; d6; d7; d8; d9].
Proof.
  intros H. unfold len in H.
  do 20 (destruct s as [|? s]; [cbn in H; lia|]).
  destruct s; [|cbn in H; lia].
  repeat eexists.
Qed.

Lemma handshake_roundtrip_bytes info_hash peer_id :
  len info_hash = 20 -> len peer_id = 20 ->
  exists payload,
    to_bytes (Handshake 68 19 BITTORRENT_PSTR_V1 Handshake.RESERVED
                info_hash peer_id) = Ok payload
    /\ len payload = 68
    /\ Handshake.from_bytes payload
       = Ok (Handshake 68 19 BITTORRENT_PSTR_V1 Handshake.RESERVED
               info_hash peer_id).
Proof.
  intros Hi Hp.
  destruct (exactly_20 _ Hi) as (? & ? & ? & ? & ? & ? & ? & ? & ? & ? & ?
                                 & ? & ? & ? & ? & ? & ? & ? & ? & ? & ->).
  destruct (exactly_20 _ Hp) as (? & ? & ? & ? & ? & ? & ? & ? & ? & ? & ?
                                 & ? & ? & ? & ? & ? & ? & ? & ? & ? & ->).
  eexists. split; [reflexivity|]. split; reflexivity.
Qed.

End HandshakeFacts.

(** C8.  [Handshake(info_hash, peer_id)] raises unless both arguments are
    20 bytes long; [Handshake.from_bytes] raises unless the payload is 68
    bytes long; and with two 20-byte arguments the constructed handshake is
    serialized to 68 bytes, which [Handshake.from_bytes] parses to an
    object equal to it. *)
Theorem handshake_lengths_and_roundtrip :
  (forall info_hash peer_id,
      len info_hash <> 20 \/ len peer_id <> 20 ->
      exists message,
        Handshake.__init__ info_hash peer_id = Raise (ValueError message))
  /\ (forall payload,
         len payload <> 68 ->
         exists message,
           Handshake.from_bytes payload = Raise (ValueError message))
  /\ (forall info_hash peer_id,
         len info_hash = 20 -> len peer_id = 20 ->
         exists handshake payload reparsed,
           Handshake.__init__ info_hash peer_id = Ok handshake
           /\ to_bytes handshake = Ok payload
           /\ len payload = 68
           /\ Handshake.from_bytes payload = Ok reparsed
           /\ BaseMessage.__eq__ handshake reparsed = true).
Proof.
  split; [|split].
  - intros info_hash peer_id H. unfold Handshake.__init__.
    destruct (Z.eqb_spec (len info_hash) 20); cbn [negb]; [|eauto].
    destruct (Z.eqb_spec (len peer_id) 20); cbn [negb]; [|eauto].
    destruct H; contradiction.
  - intros payload H. unfold Handshake.from_bytes.
    change Handshake.LENGTH with 68.
    destruct (Z.eqb_spec (len payload) 68); [contradiction|].
    cbn [negb]. eauto.
  - intros info_hash peer_id Hi Hp.
    destruct (handshake_roundtrip_bytes info_hash peer_id Hi Hp)
      as (payload & Hto & Hlen & Hfrom).
    eexists. exists payload. eexists.
    unfold Handshake.__init__. rewrite Hi, Hp. cbn [Z.eqb Pos.eqb negb].
    change Handshake.LENGTH with 68. change (len BITTORRENT_PSTR_V1) with 19.
    split; [reflexivity|]. split; [exact Hto|]. split; [exact Hlen|].
    split; [exact Hfrom|].
    unfold BaseMessage.__eq__.
    destruct (message_eq_dec _ _); [reflexivity|contradiction].
Qed.

Lemma handshake_lengths_and_roundtrip_witness :
  (exists message,
      Handshake.__init__ (b "short") (repeat x42 20) = Raise (ValueError message))
  /\ (exists message,
         Handshake.from_bytes (repeat x00 67) = Raise (ValueError message))
  /\ (exists handshake payload reparsed,
         Handshake.__init__ (repeat x41 20) (repeat x42 20) = Ok handshake
         /\ to_bytes handshake = Ok payload
         /\ len payload = 68
         /\ Handshake.from_bytes payload = Ok reparsed
         /\ BaseMessage.__eq__ handshake reparsed = true).
Proof.
  destruct handshake_lengths_and_roundtrip as (Hinit & Hfrom & Hround).
  split; [apply Hinit; left; discriminate|].
  split; [apply Hfrom; discriminate|].
  apply Hround; reflexivity.
Defined.

(** ** What [from_bytes] looks at *)

Section Header.

Lemma exactly_5 (s : bytes) :
  len s = 5 -> exists c0 c1 c2 c3 c4, s = [c0; c1; c2; c3; c4].
Proof.
  intros H. unfold len in H.
  do 5 (destruct s as [|? s]; [cbn in H; lia|]).
  destruct s; [|cbn in H; lia].
  repeat eexists.
Qed.

End Header.

(** C10.  The [from_bytes] of the fixed-size identified messages look at
    the length of the payload and at the bytes after the first five, and
    at nothing else: on any 5-byte buffer those of Choke, Unchoke,
    Interested and NotInterested return the one instance of their class;
    those of Have, Request, Cancel and Port give the same answer when the
    first five bytes are replaced by any other five, and what they return
    carries the length and identifier of the class, not of the payload.
    The identifier byte decides only in the dispatcher. *)
Theorem from_bytes_ignores_prefix_and_id :
  (forall payload,
      len payload = 5 ->
      Choke.from_bytes payload = Ok (Choke 1 0)
      /\ Unchoke.from_bytes payload = Ok (Unchoke 1 1)
      /\ Interested.from_bytes payload = Ok (Interested 1 2)
      /\ NotInterested.from_bytes payload = Ok (NotInterested 1 3))
  /\ (forall header header' fields,
         len header = 5 -> len header' = 5 ->
         Have.from_bytes (header ++ fields) = Have.from_bytes (header' ++ fields)
         /\ Request.from_bytes (header ++ fields)
            = Request.from_bytes (header' ++ fields)
         /\ Cancel.from_bytes (header ++ fields)
            = Cancel.from_bytes (header' ++ fields)
         /\ Port.from_bytes (header ++ fields)
            = Port.from_bytes (header' ++ fields))
  /\ (forall payload m,
         (Have.from_bytes payload = Ok m ->
          exists piece_index, m = Have 5 4 piece_index)
         /\ (Request.from_bytes payload = Ok m ->
             exists index begin length, m = Request 13 6 index begin length)
         /\ (Cancel.from_bytes payload = Ok m ->
             exists index begin length, m = Cancel 13 8 index begin length)
         /\ (Port.from_bytes payload = Ok m -> exists port, m = Port 3 9 port))
  /\ (Choke.from_bytes [xff; xff; xff; xff; x01] = Ok (Choke 1 0)
      /\ decode_message [xff; xff; xff; xff; x01] = Ok (Unchoke 1 1)
      /\ decode_message [xff; xff; xff; xff; x00] = Ok (Choke 1 0)).
Proof.
  split; [|split; [|split]].
  - intros payload H.
    unfold Choke.from_bytes, Unchoke.from_bytes, Interested.from_bytes,
      NotInterested.from_bytes, IDMessage.from_bytes.
    rewrite H. repeat split.
  - intros header header' fields H H'.
    destruct (exactly_5 _ H) as (? & ? & ? & ? & ? & ->).
    destruct (exactly_5 _ H') as (? & ? & ? & ? & ? & ->).
    unfold Have.from_bytes, Request.from_bytes, Cancel.from_bytes,
      Port.from_bytes, unpack, len.
    cbn [app List.length].
    repeat split;
      repeat match goal with
             | |- context [if ?c then _ else _] => destruct c
             end;
      reflexivity.
  - intros payload m.
    unfold Have.from_bytes, Request.from_bytes, Cancel.from_bytes,
      Port.from_bytes, unpack.
    repeat split; intros E;
      repeat match type of E with
             | context [if ?c then _ else _] => destruct c
             end;
      cbn in E; try discriminate E; injection E as <-; eauto.
  - repeat split.
Qed.

Lemma from_bytes_ignores_prefix_and_id_witness :
  Choke.from_bytes [x00; x00; x00; x63; x09] = Ok (Choke 1 0)
  /\ Have.from_bytes ([x00; x00; x00; x05; x04] ++ [x00; x00; x00; x07])
     = Have.from_bytes ([x0a; x0b; x0c; x0d; x0e] ++ [x00; x00; x00; x07])
  /\ exists piece_index,
      Have 5 4 7 = Have 5 4 piece_index.
Proof.
  destruct from_bytes_ignores_prefix_and_id as (Hfree & Hhdr & Hcls & _).
  split; [apply Hfree; reflexivity|].
  split; [apply Hhdr; reflexivity|].
  apply (proj1 (Hcls [x0a; x0b; x0c; x0d; x0e; x00; x00; x00; x07] (Have 5 4 7))).
  reflexivity.
Defined.


(* ================================================================== *)
(** * Further properties of the wire messages *)

Section StructRoundTrip.

Lemma ord_chr n : 0 <= n < 256 -> ord (chr n) = n.
Proof.
  intros H. unfold ord, chr.
  destruct (Byte.of_N (Z.to_N n)) as [c|] eqn:E.
  - apply Byte.to_of_N in E. rewrite E. lia.
  - apply Byte.of_N_None_iff in E. lia.
Qed.

Lemma be_int_snoc s c : be_int (s ++ [c]) = be_int s * 256 + ord c.
Proof. unfold be_int. now rewrite fold_left_app. Qed.

Lemma be_int_be_bytes width : forall x,
  0 <= x < 256 ^ Z.of_nat width -> be_int (be_bytes width x) = x.
Proof.
  induction width as [|w IH]; intros x Hx.
  - cbn in *. unfold be_int. cbn. lia.
  - cbn [be_bytes]. rewrite be_int_snoc.
    replace (Z.of_nat (S w)) with (Z.succ (Z.of_nat w)) in Hx by lia.
    rewrite Z.pow_succ_r in Hx by lia.
    rewrite IH, ord_chr.
    + pose proof (Z.div_mod x 256). lia.
    + apply Z.mod_pos_bound. lia.
    + split; [apply Z.div_pos; lia|].
      apply Z.div_lt_upper_bound; lia.
Qed.

Lemma be_bytes_len width x : len (be_bytes width x) = Z.of_nat width.
Proof.
  revert x. induction width as [|w IH]; intros x; [reflexivity|].
  cbn [be_bytes]. rewrite len_app, IH. change (len [chr (x mod 256)]) with 1.
  lia.
Qed.

Lemma pack_uint_ok width v x :
  pack_uint width v = Ok x ->
  exists i, v = VInt i /\ fits width i = true /\ x = be_bytes width i.
Proof.
  unfold pack_uint. destruct v as [i|s]; [|discriminate].
  fold (fits width i). destruct (fits width i) eqn:Hfit; [|discriminate].
  intros E. exists i. split; [reflexivity|]. split; [exact Hfit|congruence].
Qed.

(** What packing one field yields has the size of the field. *)
Lemma pack_field_len f v x :
  match f with
  | fI => pack_uint 4 v
  | fH => pack_uint 2 v
  | fB => pack_uint 1 v
  | fs n => pack_s n v
  end = Ok x ->
  len x = calcsize1 f /\ wellformed_fmt f = true.
Proof.
  destruct f as [| | |n]; cbn [calcsize1 wellformed_fmt];
    try (unfold pack_uint; destruct v as [i|s]; [|discriminate];
         destruct (_ && _); [|discriminate];
         intros E; injection E as <-; split; reflexivity).
  unfold pack_s. destruct v as [i|s]; [discriminate|].
  destruct (Z.ltb_spec n 0); [discriminate|].
  intros E. injection E as <-. split; [|apply Z.leb_le; lia].
  unfold len. rewrite length_app, length_firstn, repeat_length. lia.
Qed.

Lemma pack_len format : forall values payload,
  pack format values = Ok payload ->
  len payload = calcsize format /\ forallb wellformed_fmt format = true.
Proof.
  induction format as [|f r IH]; intros [|v vs] payload E;
    cbn [pack] in E; try discriminate E.
  - injection E as <-. split; reflexivity.
  - destruct (match f with
              | fI => pack_uint 4 v | fH => pack_uint 2 v
              | fB => pack_uint 1 v | fs n => pack_s n v
              end) as [x| |] eqn:Ex; try discriminate E.
    cbn [bind] in E.
    destruct (pack r vs) as [y| |] eqn:Ey; try discriminate E.
    cbn [bind] in E. injection E as <-.
    destruct (pack_field_len f v x Ex) as [Hx Hw].
    destruct (IH vs y Ey) as [Hy Hws].
    cbn [calcsize forallb]. rewrite len_app, Hx, Hy, Hw, Hws. now split.
Qed.

Lemma unpack_field_packed f v x rest :
  match f with
  | fI => pack_uint 4 v
  | fH => pack_uint 2 v
  | fB => pack_uint 1 v
  | fs n => pack_s n v
  end = Ok x ->
  exact_field f v ->
  unpack_fields [f] (x ++ rest) = [v]
  /\ skipn (Z.to_nat (calcsize1 f)) (x ++ rest) = rest.
Proof.
  intros E Hex. destruct (pack_field_len f v x E) as [Hlen _].
  assert (Hn : Z.to_nat (calcsize1 f) = List.length x).
  { rewrite <- Hlen. apply to_nat_len. }
  cbn [unpack_fields]. rewrite Hn.
  rewrite firstn_app, firstn_all, Nat.sub_diag, skipn_app, skipn_all,
    Nat.sub_diag.
  cbn [firstn skipn app]. rewrite app_nil_r. split; [|reflexivity].
  destruct f as [| | |n]; destruct v as [i|s]; cbn in Hex; try contradiction;
    try (apply pack_uint_ok in E as (j & Hj & Hfit & ->);
         injection Hj as <-; unfold fits in Hfit;
         apply andb_true_iff in Hfit as [H0 H1];
         apply Z.leb_le in H0; apply Z.ltb_lt in H1;
         rewrite be_int_be_bytes by lia; reflexivity).
  subst n. rewrite pack_s_exact in E. now injection E as <-.
Qed.

(** [struct.unpack] gives back what [struct.pack] was given, when every
    byte string has the size of its field. *)
Lemma unpack_pack format : forall values payload,
  pack format values = Ok payload ->
  Forall2 exact_field format values ->
  unpack format payload = Ok values.
Proof.
  intros values payload E Hex.
  destruct (pack_len format values payload E) as [Hlen Hwf].
  unfold unpack. rewrite Hwf, Hlen, Z.eqb_refl. cbn [andb]. f_equal.
  clear Hlen Hwf. revert payload E.
  induction Hex as [|f v r vs Hfv _ IH]; intros payload E; [reflexivity|].
  cbn [pack] in E.
  destruct (match f with
            | fI => pack_uint 4 v | fH => pack_uint 2 v
            | fB => pack_uint 1 v | fs n => pack_s n v
            end) as [x| |] eqn:Ex; try discriminate E.
  cbn [bind] in E.
  destruct (pack r vs) as [y| |] eqn:Ey; try discriminate E.
  cbn [bind] in E. injection E as <-.
  destruct (unpack_field_packed f v x y Ex Hfv) as [Hhead Htail].
  cbn [unpack_fields] in *. rewrite Htail. injection Hhead as ->.
  f_equal. now apply IH.
Qed.

End StructRoundTrip.

Section MessageRoundTrip.

Ltac ints_exact := repeat constructor.

(** Parsing back what [pack] wrote with a fixed format. *)
Lemma unpack_fixed format values payload size :
  pack format values = Ok payload ->
  Forall2 exact_field format values ->
  calcsize format = size ->
  len payload = size /\ unpack format payload = Ok values.
Proof.
  intros E Hex Hsize. split.
  - now rewrite (proj1 (pack_len _ _ _ E)).
  - now apply unpack_pack.
Qed.

Lemma have_roundtrip piece_index payload :
  to_bytes (Have 5 4 piece_index) = Ok payload ->
  Have.from_bytes payload = Ok (Have 5 4 piece_index).
Proof.
  intros E. cbn [to_bytes Have.to_bytes] in E.
  destruct (unpack_fixed _ _ _ 9 E) as [Hlen Hun];
    [ints_exact|reflexivity|].
  unfold Have.from_bytes. now rewrite Hlen, Hun.
Qed.

Lemma request_roundtrip index begin length payload :
  to_bytes (Request 13 6 index begin length) = Ok payload ->
  Request.from_bytes payload = Ok (Request 13 6 index begin length).
Proof.
  intros E. cbn [to_bytes Request.to_bytes] in E.
  destruct (unpack_fixed _ _ _ 17 E) as [Hlen Hun];
    [ints_exact|reflexivity|].
  unfold Request.from_bytes. now rewrite Hlen, Hun.
Qed.

Lemma cancel_roundtrip index begin length payload :
  to_bytes (Cancel 13 8 index begin length) = Ok payload ->
  Cancel.from_bytes payload = Ok (Cancel 13 8 index begin length).
Proof.
  intros E. cbn [to_bytes Cancel.to_bytes] in E.
  destruct (unpack_fixed _ _ _ 17 E) as [Hlen Hun];
    [ints_exact|reflexivity|].
  unfold Cancel.from_bytes. now rewrite Hlen, Hun.
Qed.

Lemma port_roundtrip port payload :
  to_bytes (Port 3 9 port) = Ok payload ->
  Port.from_bytes payload = Ok (Port 3 9 port).
Proof.
  intros E. cbn [to_bytes Port.to_bytes] in E.
  destruct (unpack_fixed _ _ _ 7 E) as [Hlen Hun];
    [ints_exact|reflexivity|].
  unfold Port.from_bytes. now rewrite Hlen, Hun.
Qed.

Lemma bitfield_roundtrip bitfield payload :
  to_bytes (Bitfield (1 + len bitfield) 5 bitfield) = Ok payload ->
  Bitfield.from_bytes payload = Ok (Bitfield (1 + len bitfield) 5 bitfield).
Proof.
  intros E. cbn [to_bytes Bitfield.to_bytes] in E.
  destruct (unpack_fixed _ _ _ (5 + len bitfield) E) as [Hlen Hun].
  - repeat constructor.
  - cbn [calcsize Bitfield.STRUCT calcsize1]. lia.
  - unfold Bitfield.from_bytes. rewrite Hlen.
    replace (5 + len bitfield - Bitfield.BASE_LENGTH - 4) with (len bitfield)
      by (unfold Bitfield.BASE_LENGTH; lia).
    now rewrite Hun.
Qed.

Lemma piece_roundtrip index begin block payload :
  to_bytes (Piece (9 + len block) 7 index begin block) = Ok payload ->
  Piece.from_bytes payload = Ok (Piece (9 + len block) 7 index begin block).
Proof.
  intros E. cbn [to_bytes Piece.to_bytes] in E.
  destruct (unpack_fixed _ _ _ (13 + len block) E) as [Hlen Hun].
  - repeat constructor.
  - cbn [calcsize Piece.STRUCT calcsize1]. lia.
  - unfold Piece.from_bytes. rewrite Hlen.
    replace (13 + len block - Piece.BASE_LENGTH - 4) with (len block)
      by (unfold Piece.BASE_LENGTH; lia).
    now rewrite Hun.
Qed.

Lemma handshake_init_inv info_hash peer_id m :
  Handshake.__init__ info_hash peer_id = Ok m ->
  len info_hash = 20 /\ len peer_id = 20
  /\ m = Handshake 68 19 BITTORRENT_PSTR_V1 Handshake.RESERVED info_hash peer_id.
Proof.
  unfold Handshake.__init__.
  destruct (Z.eqb_spec (len info_hash) 20); [|discriminate].
  destruct (Z.eqb_spec (len peer_id) 20); [|discriminate].
  cbn [negb]. intros E. injection E as <-. repeat split; assumption.
Qed.

End MessageRoundTrip.

(** X1.  Whatever instance a constructor returned, if [to_bytes] packs
    it, the [from_bytes] of its class parses those bytes back to the same
    instance. *)
Theorem message_roundtrip (m : message) (payload : bytes) :
  constructed m -> to_bytes m = Ok payload ->
  class_from_bytes m payload = Ok m
  /\ BaseMessage.__eq__ m m = true.
Proof.
  intros Hc E. split.
  2:{ unfold BaseMessage.__eq__.
      destruct (message_eq_dec m m); [reflexivity|contradiction]. }
  destruct Hc as [ih pid m H|m H|m H|m H|m H|m H|p m H|bf m H
                 |i bg l m H|i bg bl m H|i bg l m H|p m H].
  - apply handshake_init_inv in H as (Hi & Hp & ->).
    destruct (handshake_roundtrip_bytes ih pid Hi Hp) as (payload' & E' & _ & F).
    rewrite E in E'. injection E' as ->. exact F.
  - injection H as <-. injection E as <-. reflexivity.
  - injection H as <-. injection E as <-. reflexivity.
  - injection H as <-. injection E as <-. reflexivity.
  - injection H as <-. injection E as <-. reflexivity.
  - injection H as <-. injection E as <-. reflexivity.
  - injection H as <-. now apply have_roundtrip.
  - injection H as <-. now apply bitfield_roundtrip.
  - injection H as <-. now apply request_roundtrip.
  - injection H as <-. now apply piece_roundtrip.
  - injection H as <-. now apply cancel_roundtrip.
  - injection H as <-. now apply port_roundtrip.
Qed.

Lemma message_roundtrip_witness :
  class_from_bytes (Piece 18 7 3 16384 (b "foobarbaz"))
    ([x00; x00; x00; x12; x07; x00; x00; x00; x03; x00; x00; x40; x00]
       ++ b "foobarbaz")
  = Ok (Piece 18 7 3 16384 (b "foobarbaz")).
Proof.
  apply message_roundtrip.
  - apply (c_Piece 3 16384 (b "foobarbaz")). reflexivity.
  - reflexivity.
Defined.

Section DispatcherRoundTrip.

Lemma pack_header l i fr vr payload :
  pack (fI :: fB :: fr) (VInt l :: VInt i :: vr) = Ok payload ->
  exists rest,
    payload = be_bytes 4 l ++ be_bytes 1 i ++ rest
    /\ fits 4 l = true /\ fits 1 i = true.
Proof.
  cbn [pack]. intros E.
  destruct (pack_uint 4 (VInt l)) as [x| |] eqn:Ex; try discriminate E.
  cbn [bind] in E.
  destruct (pack_uint 1 (VInt i)) as [y| |] eqn:Ey; try discriminate E.
  cbn [bind] in E.
  destruct (pack fr vr) as [z| |]; try discriminate E.
  cbn [bind] in E. injection E as <-.
  apply pack_uint_ok in Ex as (l' & Hl & Hfl & ->). injection Hl as <-.
  apply pack_uint_ok in Ey as (i' & Hi & Hfi & ->). injection Hi as <-.
  exists z. repeat split; assumption.
Qed.

(** The dispatcher on the bytes of an identified message whose length
    prefix does not start with the byte 19. *)
Lemma decode_message_packed l i fr vr payload from_bytes :
  pack (fI :: fB :: fr) (VInt l :: VInt i :: vr) = Ok payload ->
  ~ (318767104 <= l < 335544320) ->
  MessageDecoder._MESSAGE_CLASS i = Some from_bytes ->
  decode_message payload = from_bytes payload.
Proof.
  intros E Hl Hcls.
  destruct (pack_header _ _ _ _ _ E) as (rest & -> & Hfl & Hfi).
  unfold fits in Hfl, Hfi.
  apply andb_true_iff in Hfl as [Hl0 Hl1]. apply Z.leb_le in Hl0.
  apply Z.ltb_lt in Hl1. change (256 ^ Z.of_nat 4) with 4294967296 in Hl1.
  apply andb_true_iff in Hfi as [Hi0 Hi1]. apply Z.leb_le in Hi0.
  apply Z.ltb_lt in Hi1. change (256 ^ Z.of_nat 1) with 256 in Hi1.
  cbn [be_bytes app].
  assert (Hfirst : ord (chr ((l / 256 / 256 / 256) mod 256)) <> 19).
  { rewrite ord_chr by (apply Z.mod_pos_bound; lia).
    Z.div_mod_to_equations. lia. }
  pose proof (decode_message_tagged _ (chr ((l / 256 / 256) mod 256))
                (chr ((l / 256) mod 256)) (chr (l mod 256))
                (chr (i mod 256)) rest Hfirst) as D.
  cbv zeta in D. rewrite D.
  rewrite ord_chr by (apply Z.mod_pos_bound; lia).
  rewrite Z.mod_small by lia. now rewrite Hcls.
Qed.

Lemma decode_message_first_19 p1 p2 p3 p4 rest :
  decode_message (x13 :: p1 :: p2 :: p3 :: p4 :: rest)
  = Handshake.from_bytes (x13 :: p1 :: p2 :: p3 :: p4 :: rest).
Proof.
  set (payload := x13 :: p1 :: p2 :: p3 :: p4 :: rest).
  unfold decode_message, MessageDecoder.decode_message.
  pose proof (len_nonneg rest) as Hrest.
  assert (Hlen : len payload = 5 + len rest).
  { unfold payload. rewrite !len_cons. lia. }
  destruct (Z.ltb_spec (len payload) 4); [lia|].
  destruct (Z.eqb_spec (len payload) 4); [lia|].
  change (getitem payload 0)
    with (getitem ([] ++ x13 :: tl payload) (len (@nil byte))).
  rewrite getitem_at. reflexivity.
Qed.

End DispatcherRoundTrip.

Ltac as_pack E :=
  cbn [to_bytes Have.to_bytes Bitfield.to_bytes Request.to_bytes
       Piece.to_bytes Cancel.to_bytes Port.to_bytes Have.STRUCT
       Bitfield.STRUCT Request.STRUCT Piece.STRUCT Cancel.STRUCT
       Port.STRUCT] in E.

(** X2.  The dispatcher gives back every constructed instance from its
    bytes, provided the instance is a handshake or its length prefix does
    not start with the byte 19 (a length from 318767104 up to 335544319),
    which the dispatcher takes for the first byte of a handshake. *)
Theorem dispatcher_roundtrip (m : message) (payload : bytes) :
  constructed m -> to_bytes m = Ok payload ->
  is_handshake m = true
  \/ ~ (318767104 <= BaseMessage.msg_len m < 335544320) ->
  decode_message payload = Ok m.
Proof.
  intros Hc E Hcond.
  destruct Hc as [ih pid m H|m H|m H|m H|m H|m H|p m H|bf m H
                 |i bg l m H|i bg bl m H|i bg l m H|p m H].
  - apply handshake_init_inv in H as (Hi & Hp & ->).
    destruct (exactly_20 _ Hi) as (? & ? & ? & ? & ? & ? & ? & ? & ? & ? & ?
                                   & ? & ? & ? & ? & ? & ? & ? & ? & ? & ->).
    destruct (exactly_20 _ Hp) as (? & ? & ? & ? & ? & ? & ? & ? & ? & ? & ?
                                   & ? & ? & ? & ? & ? & ? & ? & ? & ? & ->).
    injection E as <-. reflexivity.
  - injection H as <-. injection E as <-. reflexivity.
  - injection H as <-. injection E as <-. reflexivity.
  - injection H as <-. injection E as <-. reflexivity.
  - injection H as <-. injection E as <-. reflexivity.
  - injection H as <-. injection E as <-. reflexivity.
  - injection H as <-.
    pose proof E as P. as_pack P.
    rewrite (decode_message_packed _ _ _ _ _ Have.from_bytes P);
      [now apply have_roundtrip|intros [Hlo _]; apply Hlo; reflexivity|reflexivity].
  - injection H as <-. destruct Hcond as [Hh|Hl]; [discriminate Hh|].
    pose proof E as P. as_pack P.
    rewrite (decode_message_packed _ _ _ _ _ Bitfield.from_bytes P);
      [now apply bitfield_roundtrip|exact Hl|reflexivity].
  - injection H as <-.
    pose proof E as P. as_pack P.
    rewrite (decode_message_packed _ _ _ _ _ Request.from_bytes P);
      [now apply request_roundtrip|intros [Hlo _]; apply Hlo; reflexivity|reflexivity].
  - injection H as <-. destruct Hcond as [Hh|Hl]; [discriminate Hh|].
    pose proof E as P. as_pack P.
    rewrite (decode_message_packed _ _ _ _ _ Piece.from_bytes P);
      [now apply piece_roundtrip|exact Hl|reflexivity].
  - injection H as <-.
    pose proof E as P. as_pack P.
    rewrite (decode_message_packed _ _ _ _ _ Cancel.from_bytes P);
      [now apply cancel_roundtrip|intros [Hlo _]; apply Hlo; reflexivity|reflexivity].
  - injection H as <-.
    pose proof E as P. as_pack P.
    rewrite (decode_message_packed _ _ _ _ _ Port.from_bytes P);
      [now apply port_roundtrip|intros [Hlo _]; apply Hlo; reflexivity|reflexivity].
Qed.

Lemma dispatcher_roundtrip_witness :
  decode_message ([x00; x00; x00; x0a; x05] ++ b "foobarbaz")
  = Ok (Bitfield 10 5 (b "foobarbaz")).
Proof.
  apply dispatcher_roundtrip.
  - apply (c_Bitfield (b "foobarbaz")). reflexivity.
  - reflexivity.
  - right. cbn. lia.
Defined.

(** X3.  A payload longer than four bytes that starts with the byte 19 is
    tried as a handshake only: unless it is 68 bytes long the dispatcher
    raises the [ValueError] of [Handshake.from_bytes], whatever its fifth
    byte says. *)
Theorem dispatcher_first_byte_19 (p1 p2 p3 p4 : byte) (rest : bytes) :
  len rest <> 63 ->
  exists message,
    decode_message (x13 :: p1 :: p2 :: p3 :: p4 :: rest)
    = Raise (ValueError message).
Proof.
  intros Hlen. rewrite decode_message_first_19.
  unfold Handshake.from_bytes. change Handshake.LENGTH with 68.
  rewrite !len_cons.
  destruct (Z.eqb_spec (1 + (1 + (1 + (1 + (1 + len rest))))) 68); [lia|].
  cbn [negb]. eauto.
Qed.

Lemma dispatcher_first_byte_19_witness :
  exists message,
    decode_message [x13; x00; x00; x0a; x05; x61; x62]
    = Raise (ValueError message).
Proof.
  apply (dispatcher_first_byte_19 x00 x00 x0a x05 [x61; x62]).
  discriminate.
Defined.

Tactic Notation "explode" ident(s) hyp(H) integer(n) :=
  unfold len in H;
  do n (destruct s as [|? s]; [cbn in H; lia|]);
  destruct s; [|cbn in H; lia].

Section Framing.

Lemma firstn_be_bytes l rest :
  firstn 4 (be_bytes 4 l ++ rest) = be_bytes 4 l.
Proof. reflexivity. Qed.

Lemma framing_of_pack l i fr vr payload :
  pack (fI :: fB :: fr) (VInt l :: VInt i :: vr) = Ok payload ->
  calcsize (fI :: fB :: fr) = 4 + l ->
  len payload = 4 + l /\ be_int (firstn 4 payload) = l.
Proof.
  intros E Hsize. split.
  - now rewrite (proj1 (pack_len _ _ _ E)).
  - destruct (pack_header _ _ _ _ _ E) as (rest & -> & Hfl & _).
    rewrite firstn_be_bytes. apply be_int_be_bytes.
    unfold fits in Hfl. apply andb_true_iff in Hfl as [H0 H1].
    apply Z.leb_le in H0. apply Z.ltb_lt in H1. lia.
Qed.

End Framing.

(** X4.  The bytes of every constructed instance other than a handshake
    start with a 4-byte big-endian length that counts exactly the bytes
    after it, and that length is the instance's [msg_len]. *)
Theorem length_prefix_counts_rest (m : message) (payload : bytes) :
  constructed m -> to_bytes m = Ok payload -> is_handshake m = false ->
  len payload = 4 + BaseMessage.msg_len m
  /\ be_int (firstn 4 payload) = len payload - 4.
Proof.
  intros Hc E Hh.
  assert (H : len payload = 4 + BaseMessage.msg_len m
              /\ be_int (firstn 4 payload) = BaseMessage.msg_len m).
  2:{ destruct H as [H1 H2]. split; [exact H1|]. rewrite H1, H2. lia. }
  destruct Hc as [ih pid m H|m H|m H|m H|m H|m H|p m H|bf m H
                 |i bg l m H|i bg bl m H|i bg l m H|p m H].
  - apply handshake_init_inv in H as (_ & _ & ->). discriminate Hh.
  - injection H as <-. injection E as <-. split; reflexivity.
  - injection H as <-. injection E as <-. split; reflexivity.
  - injection H as <-. injection E as <-. split; reflexivity.
  - injection H as <-. injection E as <-. split; reflexivity.
  - injection H as <-. injection E as <-. split; reflexivity.
  - injection H as <-. as_pack E. now apply (framing_of_pack _ _ _ _ _ E).
  - assert (Hm : m = Bitfield (Bitfield.BASE_LENGTH + len bf) Bitfield.ID bf)
      by (unfold Bitfield.__init__ in H; congruence).
    subst m. as_pack E. apply (framing_of_pack _ _ _ _ _ E).
    cbn [calcsize calcsize1]. unfold Bitfield.BASE_LENGTH. lia.
  - injection H as <-. as_pack E. now apply (framing_of_pack _ _ _ _ _ E).
  - assert (Hm : m = Piece (Piece.BASE_LENGTH + len bl) Piece.ID i bg bl)
      by (unfold Piece.__init__ in H; congruence).
    subst m. as_pack E. apply (framing_of_pack _ _ _ _ _ E).
    cbn [calcsize calcsize1]. unfold Piece.BASE_LENGTH. lia.
  - injection H as <-. as_pack E. now apply (framing_of_pack _ _ _ _ _ E).
  - unfold Port.__init__ in H. cbn in H. injection H as <-. as_pack E.
    now apply (framing_of_pack _ _ _ _ _ E).
Qed.

Lemma length_prefix_counts_rest_witness :
  len ([x00; x00; x00; x0a; x05] ++ b "foobarbaz")
  = 4 + BaseMessage.msg_len (Bitfield 10 5 (b "foobarbaz"))
  /\ be_int (firstn 4 ([x00; x00; x00; x0a; x05] ++ b "foobarbaz"))
     = len ([x00; x00; x00; x0a; x05] ++ b "foobarbaz") - 4.
Proof.
  apply length_prefix_counts_rest.
  - apply (c_Bitfield (b "foobarbaz")). reflexivity.
  - reflexivity.
  - reflexivity.
Defined.

(** X5.  The [from_bytes] of Have, Request, Cancel and Port succeed on
    exactly the buffers of 9, 17, 17 and 7 bytes, whatever those bytes
    are, and return the big-endian reading of the bytes after the fifth;
    on any other length they raise [ValueError]. *)
Theorem fixed_size_from_bytes (payload : bytes) :
  (len payload = 9 ->
   Have.from_bytes payload = Ok (Have 5 4 (be_int (slice payload 5 9))))
  /\ (len payload <> 9 ->
      Have.from_bytes payload
      = Raise (ValueError "Expected a byte string of length 9."))
  /\ (len payload = 17 ->
      Request.from_bytes payload
      = Ok (Request 13 6 (be_int (slice payload 5 9))
              (be_int (slice payload 9 13)) (be_int (slice payload 13 17)))
      /\ Cancel.from_bytes payload
         = Ok (Cancel 13 8 (be_int (slice payload 5 9))
                 (be_int (slice payload 9 13)) (be_int (slice payload 13 17))))
  /\ (len payload <> 17 ->
      Request.from_bytes payload
      = Raise (ValueError "Expected a byte string of length 17.")
      /\ Cancel.from_bytes payload
         = Raise (ValueError "Expected a byte string of length 17."))
  /\ (len payload = 7 ->
      Port.from_bytes payload = Ok (Port 3 9 (be_int (slice payload 5 7))))
  /\ (len payload <> 7 ->
      Port.from_bytes payload
      = Raise (ValueError "Expected a byte string of length 7.")).
Proof.
  repeat split.
  - intros H. explode payload H 9. reflexivity.
  - intros H. unfold Have.from_bytes.
    destruct (Z.eqb_spec (len payload) 9); [contradiction|reflexivity].
  - explode payload H 17. reflexivity.
  - explode payload H 17. reflexivity.
  - unfold Request.from_bytes.
    destruct (Z.eqb_spec (len payload) 17); [contradiction|reflexivity].
  - unfold Cancel.from_bytes.
    destruct (Z.eqb_spec (len payload) 17); [contradiction|reflexivity].
  - intros H. explode payload H 7. reflexivity.
  - intros H. unfold Port.from_bytes.
    destruct (Z.eqb_spec (len payload) 7); [contradiction|reflexivity].
Qed.

Lemma fixed_size_from_bytes_witness :
  Have.from_bytes [xff; xff; xff; xff; xff; x00; x00; x01; x02]
  = Ok (Have 5 4 258)
  /\ Port.from_bytes [x00; x00; x00; x03; x09; xc3]
     = Raise (ValueError "Expected a byte string of length 7.").
Proof.
  split.
  - apply (proj1 (fixed_size_from_bytes
                    [xff; xff; xff; xff; xff; x00; x00; x01; x02])).
    reflexivity.
  - apply (fixed_size_from_bytes [x00; x00; x00; x03; x09; xc3]).
    discriminate.
Defined.

Section VariableSize.

Lemma at_least_5 (s : bytes) :
  5 <= len s -> exists c0 c1 c2 c3 c4 rest, s = c0 :: c1 :: c2 :: c3 :: c4 :: rest.
Proof.
  intros H. unfold len in H.
  do 5 (destruct s as [|? s]; [cbn in H; lia|]).
  repeat eexists.
Qed.

Lemma bitfield_from_bytes_short payload :
  len payload < 5 -> Bitfield.from_bytes payload = Raise StructError.
Proof.
  intros H. unfold Bitfield.from_bytes, unpack, Bitfield.STRUCT.
  cbn [forallb wellformed_fmt]. unfold Bitfield.BASE_LENGTH.
  destruct (Z.leb_spec 0 (len payload - 1 - 4)); [lia|]. reflexivity.
Qed.

Lemma bitfield_from_bytes_long payload :
  5 <= len payload ->
  Bitfield.from_bytes payload
  = Ok (Bitfield (len payload - 4) 5 (skipn 5 payload)).
Proof.
  intros H.
  destruct (at_least_5 _ H) as (c0 & c1 & c2 & c3 & c4 & rest & ->).
  unfold Bitfield.from_bytes, unpack, Bitfield.STRUCT, Bitfield.BASE_LENGTH.
  cbn [forallb wellformed_fmt calcsize calcsize1].
  rewrite !len_cons in *. pose proof (len_nonneg rest) as Hr.
  replace (1 + (1 + (1 + (1 + (1 + len rest)))) - 1 - 4) with (len rest) by lia.
  destruct (Z.leb_spec 0 (len rest)); [|lia].
  replace (4 + (1 + (len rest + 0))) with (1 + (1 + (1 + (1 + (1 + len rest)))))
    by lia.
  rewrite Z.eqb_refl. cbn [andb bind unpack_fields calcsize1].
  change (Z.to_nat 4) with 4%nat. change (Z.to_nat 1) with 1%nat.
  cbn [skipn firstn bytes_at nth_error].
  rewrite to_nat_len, firstn_all. cbn [bind]. unfold Bitfield.__init__.
  do 2 f_equal. unfold Bitfield.BASE_LENGTH. lia.
Qed.

Lemma at_least_13 (s : bytes) :
  13 <= len s ->
  exists c0 c1 c2 c3 c4 c5 c6 c7 c8 c9 c10 c11 c12 rest,
    s = c0 :: c1 :: c2 :: c3 :: c4 :: c5 :: c6 :: c7 :: c8 :: c9
           :: c10 :: c11 :: c12 :: rest.
Proof.
  intros H. unfold len in H.
  do 13 (destruct s as [|? s]; [cbn in H; lia|]).
  repeat eexists.
Qed.

Lemma piece_from_bytes_short payload :
  len payload < 13 -> Piece.from_bytes payload = Raise StructError.
Proof.
  intros H. unfold Piece.from_bytes, unpack, Piece.STRUCT.
  cbn [forallb wellformed_fmt]. unfold Piece.BASE_LENGTH.
  destruct (Z.leb_spec 0 (len payload - 9 - 4)); [lia|]. reflexivity.
Qed.

Lemma piece_from_bytes_long payload :
  13 <= len payload ->
  Piece.from_bytes payload
  = Ok (Piece (len payload - 4) 7 (be_int (firstn 4 (skipn 5 payload)))
          (be_int (firstn 4 (skipn 9 payload))) (skipn 13 payload)).
Proof.
  intros H.
  destruct (at_least_13 _ H)
    as (c0 & c1 & c2 & c3 & c4 & c5 & c6 & c7 & c8 & c9 & c10 & c11 & c12
        & rest & ->).
  unfold Piece.from_bytes, unpack, Piece.STRUCT, Piece.BASE_LENGTH.
  cbn [forallb wellformed_fmt calcsize calcsize1].
  rewrite !len_cons in *. pose proof (len_nonneg rest) as Hr.
  match goal with
  | |- context [0 <=? ?n] => replace n with (len rest) by lia
  end.
  destruct (Z.leb_spec 0 (len rest)); [|lia].
  match goal with
  | |- context [?a =? ?c] => replace c with a by lia
  end.
  rewrite Z.eqb_refl. cbn [andb bind unpack_fields calcsize1].
  change (Z.to_nat 4) with 4%nat. change (Z.to_nat 1) with 1%nat.
  cbn [skipn firstn bytes_at int_at nth_error bind].
  rewrite to_nat_len, firstn_all. cbn [bind]. unfold Piece.__init__.
  do 2 f_equal. unfold Piece.BASE_LENGTH. lia.
Qed.

End VariableSize.

(** X6.  [Bitfield.from_bytes] and [Piece.from_bytes] fail with
    [struct.error] on buffers shorter than 5 and 13 bytes, and on every
    longer buffer they succeed: the payload is everything after the fixed
    fields and the length of the instance is the length of the buffer
    minus four, whatever the first five bytes of the buffer say. *)
Theorem variable_size_from_bytes (payload : bytes) :
  (len payload < 5 -> Bitfield.from_bytes payload = Raise StructError)
  /\ (5 <= len payload ->
      Bitfield.from_bytes payload
      = Ok (Bitfield (len payload - 4) 5 (skipn 5 payload)))
  /\ (len payload < 13 -> Piece.from_bytes payload = Raise StructError)
  /\ (13 <= len payload ->
      Piece.from_bytes payload
      = Ok (Piece (len payload - 4) 7 (be_int (firstn 4 (skipn 5 payload)))
              (be_int (firstn 4 (skipn 9 payload))) (skipn 13 payload))).
Proof.
  split; [apply bitfield_from_bytes_short|].
  split; [apply bitfield_from_bytes_long|].
  split; [apply piece_from_bytes_short|apply piece_from_bytes_long].
Qed.

Lemma variable_size_from_bytes_witness :
  Bitfield.from_bytes [x00; x00; x00; x01] = Raise StructError
  /\ Bitfield.from_bytes [xff; xff; xff; xff; x63; xa0; x01]
     = Ok (Bitfield 3 5 [xa0; x01]).
Proof.
  split.
  - apply (variable_size_from_bytes [x00; x00; x00; x01]). reflexivity.
  - apply (variable_size_from_bytes [xff; xff; xff; xff; x63; xa0; x01]).
    discriminate.
Defined.

Section HandshakeParsing.

Lemma handshake_from_bytes_68 payload :
  len payload = 68 ->
  Handshake.from_bytes payload
  = Ok (Handshake 68 19 BITTORRENT_PSTR_V1 Handshake.RESERVED
          (slice payload 28 48) (slice payload 48 68)).
Proof. intros H. explode payload H 68. reflexivity. Qed.

Lemma handshake_from_bytes_inv payload m :
  Handshake.from_bytes payload = Ok m ->
  len payload = 68 /\ constructed m /\ is_handshake m = true.
Proof.
  intros E. destruct (Z.eq_dec (len payload) 68) as [H|H].
  - split; [exact H|].
    pose proof H as H'. explode payload H' 68.
    injection E as <-. split; [|reflexivity].
    match goal with
    | |- constructed (Handshake _ _ _ _ ?ih ?pid) =>
        apply (c_Handshake ih pid); reflexivity
    end.
  - unfold Handshake.from_bytes in E. change Handshake.LENGTH with 68 in E.
    destruct (Z.eqb_spec (len payload) 68); [contradiction|discriminate E].
Qed.

End HandshakeParsing.

(** X7.  [Handshake.from_bytes] accepts every buffer of 68 bytes: bytes
    28 to 47 become the info hash and bytes 48 to 67 the peer id, and the
    first 28 bytes (protocol-string length, protocol string, reserved
    bytes) are not compared with anything, the instance always carrying
    the version 1 protocol string and zero reserved bytes. *)
Theorem handshake_from_bytes_any_68 (payload : bytes) :
  len payload = 68 ->
  Handshake.from_bytes payload
  = Ok (Handshake 68 19 BITTORRENT_PSTR_V1 Handshake.RESERVED
          (slice payload 28 48) (slice payload 48 68)).
Proof. apply handshake_from_bytes_68. Qed.

Lemma handshake_from_bytes_any_68_witness :
  Handshake.from_bytes (repeat xff 28 ++ repeat x41 20 ++ repeat x42 20)
  = Ok (Handshake 68 19 BITTORRENT_PSTR_V1 Handshake.RESERVED
          (repeat x41 20) (repeat x42 20)).
Proof.
  apply (handshake_from_bytes_any_68
           (repeat xff 28 ++ repeat x41 20 ++ repeat x42 20)).
  reflexivity.
Defined.

Section DispatcherSound.

Lemma ord_19 c : ord c = 19 -> c = x13.
Proof. destruct c; intros H; try reflexivity; discriminate H. Qed.

Lemma table_inv i from_bytes :
  MessageDecoder._MESSAGE_CLASS i = Some from_bytes ->
  (i = 0 /\ from_bytes = Choke.from_bytes)
  \/ (i = 1 /\ from_bytes = Unchoke.from_bytes)
  \/ (i = 2 /\ from_bytes = Interested.from_bytes)
  \/ (i = 3 /\ from_bytes = NotInterested.from_bytes)
  \/ (i = 4 /\ from_bytes = Have.from_bytes)
  \/ (i = 5 /\ from_bytes = Bitfield.from_bytes)
  \/ (i = 6 /\ from_bytes = Request.from_bytes)
  \/ (i = 7 /\ from_bytes = Piece.from_bytes)
  \/ (i = 8 /\ from_bytes = Cancel.from_bytes)
  \/ (i = 9 /\ from_bytes = Port.from_bytes).
Proof.
  intros H. unfold MessageDecoder._MESSAGE_CLASS in H.
  destruct i as [|p|p]; try discriminate H;
    repeat (destruct p as [p|p|]; try discriminate H);
    injection H as <-; tauto.
Qed.

Lemma id_only_inv cls payload m id :
  IDMessage.from_bytes (Ok cls) payload = Ok m ->
  constructed cls -> is_handshake cls = false ->
  BaseMessage.msg_len cls = 1 -> IDMessage.msg_id cls = Ok id ->
  parsed_as id payload m.
Proof.
  unfold IDMessage.from_bytes.
  destruct (Z.eqb_spec (len payload) 5) as [H|H]; [|discriminate].
  cbn [negb]. intros E. injection E as <-. intros Hc Hh Hl Hi.
  repeat split; try assumption. rewrite Hl, H. reflexivity.
Qed.

Lemma have_inv payload m :
  Have.from_bytes payload = Ok m -> parsed_as 4 payload m.
Proof.
  unfold parsed_as, Have.from_bytes, unpack.
  destruct (Z.eqb_spec (len payload) 9) as [H|H]; [|discriminate].
  rewrite H. cbn. intros E. injection E as <-.
  repeat split. eapply c_Have. reflexivity.
Qed.

Lemma request_inv payload m :
  Request.from_bytes payload = Ok m -> parsed_as 6 payload m.
Proof.
  unfold parsed_as, Request.from_bytes, unpack.
  destruct (Z.eqb_spec (len payload) 17) as [H|H]; [|discriminate].
  rewrite H. cbn. intros E. injection E as <-.
  repeat split. eapply c_Request. reflexivity.
Qed.

Lemma cancel_inv payload m :
  Cancel.from_bytes payload = Ok m -> parsed_as 8 payload m.
Proof.
  unfold parsed_as, Cancel.from_bytes, unpack.
  destruct (Z.eqb_spec (len payload) 17) as [H|H]; [|discriminate].
  rewrite H. cbn. intros E. injection E as <-.
  repeat split. eapply c_Cancel. reflexivity.
Qed.

Lemma port_inv payload m :
  Port.from_bytes payload = Ok m -> parsed_as 9 payload m.
Proof.
  unfold parsed_as, Port.from_bytes, unpack.
  destruct (Z.eqb_spec (len payload) 7) as [H|H]; [|discriminate].
  rewrite H. cbn. intros E. injection E as <-.
  repeat split. eapply c_Port. reflexivity.
Qed.

Lemma bitfield_inv payload m :
  Bitfield.from_bytes payload = Ok m -> parsed_as 5 payload m.
Proof.
  intros E. destruct (Z.lt_ge_cases (len payload) 5) as [H|H].
  - rewrite bitfield_from_bytes_short in E by assumption. discriminate E.
  - rewrite bitfield_from_bytes_long in E by assumption.
    assert (Hm : m = Bitfield (len payload - 4) 5 (skipn 5 payload))
      by congruence.
    subst m. repeat split.
    apply (c_Bitfield (skipn 5 payload)). unfold Bitfield.__init__.
    do 2 f_equal. unfold Bitfield.BASE_LENGTH, len.
    rewrite length_skipn. unfold len in H. lia.
Qed.

Lemma piece_inv payload m :
  Piece.from_bytes payload = Ok m -> parsed_as 7 payload m.
Proof.
  intros E. destruct (Z.lt_ge_cases (len payload) 13) as [H|H].
  - rewrite piece_from_bytes_short in E by assumption. discriminate E.
  - rewrite piece_from_bytes_long in E by assumption.
    match type of E with
    | Ok ?x = Ok m => assert (Hm : m = x) by congruence
    end.
    subst m. repeat split.
    eapply (c_Piece _ _ (skipn 13 payload)). unfold Piece.__init__.
    do 2 f_equal. unfold Piece.BASE_LENGTH, len.
    rewrite length_skipn. unfold len in H. lia.
Qed.

Lemma table_parsed i from_bytes payload m :
  MessageDecoder._MESSAGE_CLASS i = Some from_bytes ->
  from_bytes payload = Ok m -> parsed_as i payload m.
Proof.
  intros Ht E.
  destruct (table_inv _ _ Ht)
    as [[-> ->]|[[-> ->]|[[-> ->]|[[-> ->]|[[-> ->]|[[-> ->]|[[-> ->]
       |[[-> ->]|[[-> ->]|[-> ->]]]]]]]]]].
  - apply (id_only_inv (Choke 1 0)); try reflexivity; [exact E|].
    now apply c_Choke.
  - apply (id_only_inv (Unchoke 1 1)); try reflexivity; [exact E|].
    now apply c_Unchoke.
  - apply (id_only_inv (Interested 1 2)); try reflexivity; [exact E|].
    now apply c_Interested.
  - apply (id_only_inv (NotInterested 1 3)); try reflexivity; [exact E|].
    now apply c_NotInterested.
  - now apply have_inv.
  - now apply bitfield_inv.
  - now apply request_inv.
  - now apply piece_inv.
  - now apply cancel_inv.
  - now apply port_inv.
Qed.

End DispatcherSound.

(** X8.  Whatever the dispatcher returns is an instance some constructor
    built.  A handshake is returned only for a buffer of 68 bytes that
    starts with the byte 19; any other instance has as its length the
    length of the buffer minus four, not what the first four bytes of the
    buffer say, and, unless it is the keep-alive of a 4-byte buffer, has
    as its identifier the fifth byte of the buffer. *)
Theorem dispatcher_sound (payload : bytes) (m : message) :
  decode_message payload = Ok m ->
  constructed m
  /\ (is_handshake m = true -> len payload = 68 /\ hd_error payload = Some x13)
  /\ (is_handshake m = false -> BaseMessage.msg_len m = len payload - 4)
  /\ (is_handshake m = false -> len payload <> 4 ->
      exists id, nth_error payload 4 = Some id
                 /\ IDMessage.msg_id m = Ok (ord id)).
Proof.
  intros E.
  destruct payload as [|first [|p1 [|p2 [|p3 [|id rest]]]]];
    try discriminate E.
  - (* four bytes *)
    injection E as <-. split; [now apply c_KeepAlive|].
    split; [discriminate|]. split; [reflexivity|]. intros _ H.
    now contradiction H.
  - destruct (Byte.byte_eq_dec first x13) as [->|Hfirst].
    + rewrite decode_message_first_19 in E.
      apply handshake_from_bytes_inv in E as (Hlen & Hc & Hh).
      split; [exact Hc|]. split; [now split|].
      split; intros Hn; rewrite Hh in Hn; discriminate Hn.
    + assert (Hord : ord first <> 19).
      { intros H. now apply ord_19 in H. }
      pose proof (decode_message_tagged first p1 p2 p3 id rest Hord) as D.
      cbv zeta in D. rewrite D in E.
      destruct (MessageDecoder._MESSAGE_CLASS (ord id)) as [fb|] eqn:Ht;
        [|discriminate E].
      destruct (table_parsed _ _ _ _ Ht E) as (Hc & Hh & Hl & Hi).
      split; [exact Hc|].
      split; [intros Hn; rewrite Hh in Hn; discriminate Hn|].
      split; [intros _; exact Hl|].
      intros _ _. exists id. split; [reflexivity|exact Hi].
Qed.

Lemma dispatcher_sound_witness :
  constructed (Have 5 4 258)
  /\ (is_handshake (Have 5 4 258) = false ->
      BaseMessage.msg_len (Have 5 4 258)
      = len [x00; x00; x00; x63; x04; x00; x00; x01; x02] - 4).
Proof.
  destruct (dispatcher_sound [x00; x00; x00; x63; x04; x00; x00; x01; x02]
              (Have 5 4 258) eq_refl) as (Hc & _ & Hl & _).
  split; assumption.
Defined.


(* ================================================================== *)
(** * Further properties of [pieces_status] *)

Section PiecesStatus.

Lemma pieces_of_app bitfield : forall pieces,
  Bitfield.pieces_of bitfield pieces
  = pieces ++ flat_map byte_status bitfield.
Proof.
  induction bitfield as [|c r IH]; intros pieces.
  - cbn. now rewrite app_nil_r.
  - cbn [Bitfield.pieces_of flat_map]. rewrite IH.
    fold (byte_status c). now rewrite <- app_assoc.
Qed.

Lemma byte_status_count c : count_true (byte_status c) = popcount c.
Proof. destruct c; reflexivity. Qed.

Lemma byte_status_length c :
  (List.length (byte_status c) <= 8)%nat
  /\ (List.length (byte_status c) = 8%nat <-> (128 <=? ord c) = true).
Proof. destruct c; split; try (cbn; lia); split; intros H; try reflexivity; discriminate H. Qed.

Lemma count_true_app x y : count_true (x ++ y) = (count_true x + count_true y)%nat.
Proof. unfold count_true. now rewrite filter_app, length_app. Qed.

Lemma status_count bitfield :
  count_true (flat_map byte_status bitfield) = list_sum (map popcount bitfield).
Proof.
  induction bitfield as [|c r IH]; [reflexivity|].
  cbn [flat_map map list_sum fold_right]. fold (list_sum (map popcount r)).
  now rewrite count_true_app, byte_status_count, IH.
Qed.

Lemma status_length bitfield :
  (List.length (flat_map byte_status bitfield) <= 8 * List.length bitfield)%nat
  /\ (List.length (flat_map byte_status bitfield) = (8 * List.length bitfield)%nat
      -> forallb (fun c => 128 <=? ord c) bitfield = true).
Proof.
  induction bitfield as [|c r [IH1 IH2]]; [split; [cbn; lia|reflexivity]|].
  cbn [flat_map forallb List.length]. rewrite length_app.
  destruct (byte_status_length c) as [Hc1 Hc2].
  split; [lia|]. intros H.
  assert (Hc : List.length (byte_status c) = 8%nat) by lia.
  rewrite (proj1 Hc2 Hc). cbn [andb]. apply IH2. lia.
Qed.

Lemma expected_status_length bitfield :
  List.length (expected_status bitfield) = (8 * List.length bitfield)%nat.
Proof.
  unfold expected_status. induction bitfield as [|c r IH]; [reflexivity|].
  cbn [flat_map List.length]. rewrite length_app, IH. cbn. lia.
Qed.

End PiecesStatus.

(** X9.  [pieces_status] never loses or invents an available piece: the
    number of [True] it returns is the number of set bits of the bitfield,
    and it returns at most eight booleans per byte. *)
Theorem pieces_status_counts_set_bits (l i : Z) (bitfield : bytes) :
  exists pieces,
    Bitfield.pieces_status (Bitfield l i bitfield) = Ok pieces
    /\ count_true pieces = list_sum (map popcount bitfield)
    /\ (List.length pieces <= 8 * List.length bitfield)%nat.
Proof.
  eexists. split; [reflexivity|].
  rewrite pieces_of_app. cbn [app].
  split; [apply status_count|apply status_length].
Qed.

(** X10.  [pieces_status] is the most-significant-bit-first expansion of
    the bitfield, eight booleans per byte, exactly when every byte of the
    bitfield has its most significant bit set. *)
Theorem pieces_status_msb_first_iff (l i : Z) (bitfield : bytes) :
  Bitfield.pieces_status (Bitfield l i bitfield)
  = Ok (expected_status bitfield)
  <-> forallb (fun c => 128 <=? ord c) bitfield = true.
Proof.
  cbn [Bitfield.pieces_status]. split.
  - intros E. injection E as E. rewrite pieces_of_app in E. cbn [app] in E.
    apply status_length. rewrite E. apply expected_status_length.
  - intros H. now rewrite pieces_of_high_bytes.
Qed.

Lemma pieces_status_msb_first_iff_witness :
  Bitfield.pieces_status (Bitfield 3 5 [xff; x80])
  = Ok (expected_status [xff; x80]).
Proof.
  apply (proj2 (pieces_status_msb_first_iff 3 5 [xff; x80])). reflexivity.
Defined.


(* ================================================================== *)
(** * Further properties of the decoder *)

Section TopLevel.

Lemma decode_top data fuel c r :
  data = c :: r ->
  decode fuel data =
  ('(res, i) <- Decoder._bdecode data fuel c 0 ;;
   if negb (i =? len data) then
     Raise (InvalidTorrentFileBencoding TrailingBytes)
   else Ok res).
Proof. intros ->. reflexivity. Qed.

Lemma decode_int_span span post :
  ~ In x65 span ->
  Decoder._decode_int (x69 :: span ++ x65 :: post) 0 =
  if leading_zero span then
    Raise (InvalidTorrentFileBencoding (LeadingZero 1))
  else
    match int_of_bytes span with
    | None => Raise (InvalidTorrentFileBencoding (InvalidInteger 1))
    | Some z => Ok (z, len span + 2)
    end.
Proof.
  intros He. unfold Decoder._decode_int.
  pose proof (len_nonneg span) as Hs.
  pose proof (find_at [x69] span x65 post He) as Hfind.
  cbn [app] in Hfind. change (len [x69]) with 1 in Hfind.
  change (0 + 1) with 1. rewrite Hfind.
  destruct (Z.eqb_spec (1 + len span) (-1)) as [E|_]; [lia|].
  pose proof (slice_at [x69] span (x65 :: post)) as Hslice.
  cbn [app] in Hslice. change (len [x69]) with 1 in Hslice.
  rewrite Hslice. fold (leading_zero span).
  destruct (leading_zero span); [reflexivity|].
  destruct (int_of_bytes span); [|reflexivity].
  do 2 f_equal. lia.
Qed.

Lemma decode_str_span c span body post :
  ~ In x3a (c :: span) ->
  Decoder._decode_str ((c :: span) ++ x3a :: body ++ post) 0 =
  match int_of_bytes (c :: span) with
  | None => Raise (InvalidTorrentFileBencoding (InvalidLength 0))
  | Some n =>
      Ok (slice ((c :: span) ++ x3a :: body ++ post)
            (len (c :: span) + 1) (len (c :: span) + 1 + n),
          len (c :: span) + 1 + n)
  end.
Proof.
  intros Hc. unfold Decoder._decode_str.
  set (t := c :: span) in *.
  pose proof (len_nonneg t) as Ht.
  pose proof (find_at [] t x3a (body ++ post) Hc) as Hfind.
  cbn [app] in Hfind. change (len (@nil byte)) with 0 in Hfind.
  rewrite Z.add_0_l in Hfind. rewrite Hfind.
  destruct (Z.eqb_spec (len t) (-1)) as [E|_]; [lia|].
  pose proof (slice_at [] t (x3a :: body ++ post)) as Hslice.
  cbn [app] in Hslice. change (len (@nil byte)) with 0 in Hslice.
  rewrite Z.add_0_l in Hslice. rewrite Hslice.
  destruct (int_of_bytes t); reflexivity.
Qed.

End TopLevel.

(** X11.  A buffer ['i' span 'e'] whose span holds no ['e'] and has at
    most [max_str_digits] bytes decodes as follows: if the span is longer
    than one byte and starts with ['0'] or with ['-0'] the decoder raises
    its leading-zero error; otherwise the result is whatever [int()] makes
    of the span, the invalid-integer error when [int()] refuses it. *)
Theorem decode_integer_buffer (fuel : nat) (span : bytes) :
  ~ In x65 span -> len span <= max_str_digits ->
  decode (S fuel) (b "i" ++ span ++ b "e") =
  if leading_zero span then
    Raise (InvalidTorrentFileBencoding (LeadingZero 1))
  else
    match int_of_bytes span with
    | None => Raise (InvalidTorrentFileBencoding (InvalidInteger 1))
    | Some z => Ok (PyInt z)
    end.
Proof.
  intros He _. change (b "i" ++ span ++ b "e") with (x69 :: span ++ [x65]).
  rewrite (decode_top _ _ x69 (span ++ [x65]) eq_refl), bdecode_S.
  change (Byte.eqb x69 x6c) with false. change (Byte.eqb x69 x64) with false.
  change (Byte.eqb x69 x69) with true. cbv iota.
  rewrite decode_int_span by assumption.
  destruct (leading_zero span); [reflexivity|].
  destruct (int_of_bytes span); [|reflexivity].
  cbn [bind]. rewrite len_cons, len_app. change (len [x65]) with 1.
  destruct (Z.eqb_spec (len span + 2) (1 + (len span + 1))); [reflexivity|lia].
Qed.

Lemma decode_integer_buffer_witness :
  decode 1 (b "i" ++ b "-12" ++ b "e") = Ok (PyInt (-12))
  /\ decode 1 (b "i" ++ b "007" ++ b "e")
     = Raise (InvalidTorrentFileBencoding (LeadingZero 1))
  /\ decode 1 (b "i" ++ b "1x" ++ b "e")
     = Raise (InvalidTorrentFileBencoding (InvalidInteger 1)).
Proof.
  split; [|split].
  - apply (decode_integer_buffer 0 (b "-12")); [|unfold max_str_digits; cbn; lia].
    intros H. cbn in H. intuition discriminate.
  - apply (decode_integer_buffer 0 (b "007")); [|unfold max_str_digits; cbn; lia].
    intros H. cbn in H. intuition discriminate.
  - apply (decode_integer_buffer 0 (b "1x")); [|unfold max_str_digits; cbn; lia].
    intros H. cbn in H. intuition discriminate.
Defined.

(** X12.  A buffer [span ':' body] whose span starts with a digit, holds
    no [':'] and has at most [max_str_digits] bytes decodes to [body]
    exactly when [int()] reads the span as the length of [body]; when
    [int()] reads another number, larger or smaller, the decoder raises its
    byte-count error, and when [int()] refuses the span it raises its
    invalid-length error. *)
Theorem decode_string_buffer (fuel : nat) (c : byte) (span body : bytes) :
  is_digit c = true -> ~ In x3a (c :: span) ->
  len (c :: span) <= max_str_digits ->
  decode (S fuel) ((c :: span) ++ b ":" ++ body) =
  match int_of_bytes (c :: span) with
  | None => Raise (InvalidTorrentFileBencoding (InvalidLength 0))
  | Some n =>
      if n =? len body then Ok (PyBytes body)
      else Raise (InvalidTorrentFileBencoding TrailingBytes)
  end.
Proof.
  intros Hd Hc _.
  replace ((c :: span) ++ b ":" ++ body)
    with ((c :: span) ++ x3a :: body ++ []) by (now rewrite app_nil_r).
  rewrite (decode_top ((c :: span) ++ x3a :: body ++ []) _ c
             (span ++ x3a :: body ++ []) eq_refl), bdecode_S.
  destruct (digit_dispatch c Hd) as (-> & -> & -> & _). rewrite Hd.
  rewrite decode_str_span by assumption.
  destruct (int_of_bytes (c :: span)) as [n|]; [|reflexivity].
  cbn [bind]. set (t := c :: span) in *.
  pose proof (len_nonneg t) as Ht.
  assert (Hlen : len (t ++ x3a :: body ++ []) = len t + 1 + len body).
  { rewrite len_app, len_cons, len_app. change (len (@nil byte)) with 0. lia. }
  rewrite Hlen.
  destruct (Z.eqb_spec n (len body)) as [->|Hn].
  - rewrite Z.eqb_refl. cbn [negb]. do 2 f_equal.
    replace (t ++ x3a :: body ++ []) with ((t ++ [x3a]) ++ body ++ [])
      by (now rewrite <- app_assoc).
    replace (len t + 1) with (len (t ++ [x3a]))
      by (rewrite len_app; reflexivity).
    apply slice_at.
  - destruct (Z.eqb_spec (len t + 1 + n) (len t + 1 + len body));
      [lia|reflexivity].
Qed.

Lemma decode_string_buffer_witness :
  decode 1 (b "4" ++ b ":" ++ b "spam") = Ok (PyBytes (b "spam"))
  /\ decode 1 (b "9" ++ b ":" ++ b "spam")
     = Raise (InvalidTorrentFileBencoding TrailingBytes)
  /\ decode 1 (b "2" ++ b ":" ++ b "spam")
     = Raise (InvalidTorrentFileBencoding TrailingBytes).
Proof.
  split; [|split].
  - apply (decode_string_buffer 0 x34 [] (b "spam"));
      [reflexivity| |unfold max_str_digits; cbn; lia].
    intros H. cbn in H. intuition discriminate.
  - apply (decode_string_buffer 0 x39 [] (b "spam"));
      [reflexivity| |unfold max_str_digits; cbn; lia].
    intros H. cbn in H. intuition discriminate.
  - apply (decode_string_buffer 0 x32 [] (b "spam"));
      [reflexivity| |unfold max_str_digits; cbn; lia].
    intros H. cbn in H. intuition discriminate.
Defined.

(** X13.  Nothing may follow the top-level value: the bencoding of a
    value within the limits of the interpreter, followed by at least one
    more byte, is rejected with the byte-count error. *)
Theorem decode_rejects_trailing_bytes (fuel : nat) (v : pyobj) (c : byte)
        (rest : bytes) :
  is_value v = true -> within_limits v = true -> (weight v <= fuel)%nat ->
  decode fuel (bencoding v ++ c :: rest)
  = Raise (InvalidTorrentFileBencoding TrailingBytes).
Proof.
  intros Hv _ Hfuel.
  destruct (value_decodes v Hv fuel [] (c :: rest) Hfuel)
    as (c0 & r0 & Hc & _ & Hdec).
  cbn [app] in Hdec. change (len (@nil byte)) with 0 in Hdec.
  assert (Hd : bencoding v ++ c :: rest = c0 :: (r0 ++ c :: rest)).
  { now rewrite Hc. }
  rewrite (decode_top _ _ _ _ Hd), Hdec. cbn [bind].
  rewrite len_app, len_cons. pose proof (len_nonneg rest).
  destruct (Z.eqb_spec (0 + len (bencoding v))
              (len (bencoding v) + (1 + len rest))); [lia|reflexivity].
Qed.

Lemma decode_rejects_trailing_bytes_witness :
  decode 3 (bencoding (PyList [PyInt 1]) ++ x65 :: [])
  = Raise (InvalidTorrentFileBencoding TrailingBytes).
Proof.
  apply decode_rejects_trailing_bytes; [reflexivity|reflexivity|cbn; lia].
Defined.

Section DecodedValues.

Lemma bind_inv {A B} (m : outcome A) (k : A -> outcome B) r :
  bind m k = Ok r -> exists a, m = Ok a /\ k a = Ok r.
Proof. destruct m as [a| |]; cbn; intros H; try discriminate H. eauto. Qed.

(** [d[key] = val] keeps a well-formed mapping well-formed. *)
Lemma setitem_value d key val :
  is_value (PyOrderedDict d) = true -> is_value val = true ->
  is_value (PyOrderedDict (setitem d key val)) = true
  /\ (forall k, existsb (fun k' => match k, k' with
                                   | PyBytes x, PyBytes y => bytes_eqb x y
                                   | _, _ => false
                                   end) (map fst d) = false ->
                match k with
                | PyBytes x => bytes_eqb x key = false
                | _ => True
                end ->
                existsb (fun k' => match k, k' with
                                   | PyBytes x, PyBytes y => bytes_eqb x y
                                   | _, _ => false
                                   end) (map fst (setitem d key val)) = false).
Proof.
  intros Hd Hval. induction d as [|[k v] d IH].
  - split.
    + cbn. now rewrite Hval.
    + intros k _ Hk. cbn. destruct k; try reflexivity. now rewrite Hk.
  - cbn [is_value forallb map fst snd distinct] in Hd.
    apply andb_true_iff in Hd as [Hall Hdis].
    apply andb_true_iff in Hall as [Hkv Hall].
    apply andb_true_iff in Hkv as [Hk Hv].
    apply andb_true_iff in Hdis as [Hfresh Hdis].
    apply negb_true_iff in Hfresh.
    destruct k as [| | |s| | | | |]; try discriminate Hk.
    assert (Hd' : is_value (PyOrderedDict d) = true).
    { cbn [is_value]. now rewrite Hall, Hdis. }
    destruct (IH Hd') as [IH1 IH2]. cbn [setitem].
    destruct (bytes_eqb s key) eqn:E.
    + split.
      * cbn [is_value forallb map fst snd distinct is_bytes].
        now rewrite Hval, Hall, Hfresh, Hdis.
      * intros k Hk' _. exact Hk'.
    + split.
      * cbn [is_value] in IH1. apply andb_true_iff in IH1 as [IHall IHdis].
        cbn [is_value forallb map fst snd distinct is_bytes].
        rewrite Hv, IHall, IHdis, (IH2 (PyBytes s) Hfresh E). reflexivity.
      * intros k Hk' Hkey. cbn [map fst existsb] in *.
        apply orb_false_iff in Hk' as [Hks Hkd].
        rewrite Hks. cbn [orb]. now apply IH2.
Qed.

Lemma decoded_values data fuel :
  (forall c i v j,
      Decoder._bdecode data fuel c i = Ok (v, j) -> is_value v = true)
  /\ (forall lst i lst' j,
         Decoder.list_loop data fuel lst i = Ok (lst', j) ->
         forallb is_value lst = true -> forallb is_value lst' = true)
  /\ (forall d i d' j,
         Decoder.dict_loop data fuel d i = Ok (d', j) ->
         is_value (PyOrderedDict d) = true ->
         is_value (PyOrderedDict d') = true).
Proof.
  induction fuel as [|f (IHv & IHl & IHd)].
  - repeat split; intros; discriminate.
  - split; [|split].
    + intros c i v j E. rewrite bdecode_S in E.
      destruct (Byte.eqb c x6c).
      { apply bind_inv in E as ([lst k] & El & E). injection E as <- _.
        cbn [is_value]. now apply (IHl _ _ _ _ El). }
      destruct (Byte.eqb c x64).
      { apply bind_inv in E as ([d k] & Ed & E). injection E as <- _.
        now apply (IHd _ _ _ _ Ed). }
      destruct (Byte.eqb c x69).
      { apply bind_inv in E as ([n k] & _ & E). now injection E as <- _. }
      destruct (is_digit c); [|discriminate E].
      apply bind_inv in E as ([s k] & _ & E). now injection E as <- _.
    + intros lst i lst' j E Hlst. rewrite list_loop_S in E.
      destruct (i <? len data); [|now injection E as <- _].
      apply bind_inv in E as (c & _ & E).
      destruct (negb (Byte.eqb c x65)); [|now injection E as <- _].
      apply bind_inv in E as (c' & _ & E).
      apply bind_inv in E as ([el k] & Eel & E).
      apply (IHl _ _ _ _ E). rewrite forallb_app, Hlst. cbn.
      now rewrite (IHv _ _ _ _ Eel).
    + intros d i d' j E Hd. rewrite dict_loop_S in E.
      destruct (i <? len data); [|now injection E as <- _].
      apply bind_inv in E as (c & _ & E).
      destruct (negb (Byte.eqb c x65)); [|now injection E as <- _].
      apply bind_inv in E as (c' & _ & E).
      apply bind_inv in E as ([key k] & _ & E).
      apply bind_inv in E as (c'' & _ & E).
      apply bind_inv in E as ([val k'] & Eval & E).
      apply (IHd _ _ _ _ E).
      apply setitem_value; [assumption|]. now apply (IHv _ _ _ _ Eval).
Qed.

Lemma decode_is_value fuel data v :
  decode fuel data = Ok v -> is_value v = true.
Proof.
  unfold decode, Decoder.decode. intros E.
  destruct data as [|c r]; [discriminate E|].
  apply bind_inv in E as (c' & _ & E).
  apply bind_inv in E as ([res i] & Eres & E).
  destruct (negb (i =? len (c :: r))); [discriminate E|].
  injection E as <-.
  now apply (proj1 (decoded_values (c :: r) fuel) _ _ _ _ Eres).
Qed.

End DecodedValues.

(** X14.  Whatever [decode] returns is a value of the data model: byte
    strings, integers, lists and ordered mappings only, every mapping
    keyed by byte strings that are pairwise distinct. *)
Theorem decode_returns_values (fuel : nat) (data : bytes) (v : pyobj) :
  decode fuel data = Ok v -> is_value v = true.
Proof. apply decode_is_value. Qed.

Lemma decode_returns_values_witness :
  is_value (PyOrderedDict [(PyBytes (b "a"), PyInt 2)]) = true.
Proof.
  apply (decode_returns_values 4 (b "d1:ai1e1:ai2ee")). reflexivity.
Defined.

(** X15.  Whatever [decode] returns can be encoded again, and decoding
    that encoding returns the same value: the info dictionary of a decoded
    metainfo file always has an encoding to hash. *)
Theorem decoded_value_reencodes (fuel : nat) (data : bytes) (v : pyobj) :
  decode fuel data = Ok v ->
  exists data',
    encode v = Ok data'
    /\ forall fuel', (weight v <= fuel')%nat -> decode fuel' data' = Ok v.
Proof.
  intros E. apply decode_is_value in E.
  exists (bencoding v). split; [now apply encode_value|].
  intros fuel' Hf. now apply decode_bencoding.
Qed.

Lemma decoded_value_reencodes_witness :
  exists data',
    encode (PyInt 5) = Ok data'
    /\ forall fuel', (weight (PyInt 5) <= fuel')%nat ->
                     decode fuel' data' = Ok (PyInt 5).
Proof. apply (decoded_value_reencodes 1 (b "i+5e")). reflexivity. Defined.


Section Loops.

Lemma bytes_eqb_eq x y : bytes_eqb x y = true <-> x = y.
Proof.
  unfold bytes_eqb. destruct (list_eq_dec Byte.byte_eq_dec x y); split;
    intros H; try reflexivity; try assumption; try discriminate H.
  contradiction.
Qed.

Lemma getitem_past data : getitem data (len data) = Raise IndexError.
Proof.
  unfold getitem. pose proof (len_nonneg data).
  destruct (Z.ltb_spec (len data) 0); [lia|].
  destruct (Z.ltb_spec (len data) 0); [lia|].
  destruct (Z.leb_spec (len data) (len data)); [reflexivity|lia].
Qed.

(** The loop of [_decode_list] over the bencodings of the values [l],
    whatever follows them. *)
Lemma list_loop_prefix l :
  Forall decodes l ->
  forall f acc pre tail,
    (list_sum (map weight l) <= f)%nat ->
    Decoder.list_loop (pre ++ flat_map bencoding l ++ tail)
      (List.length l + f) acc (len pre)
    = Decoder.list_loop (pre ++ flat_map bencoding l ++ tail)
        f (acc ++ l) (len pre + len (flat_map bencoding l)).
Proof.
  induction 1 as [|v l Hv _ IH]; intros f acc pre tail Hf.
  - cbn [List.length flat_map app Nat.add]. rewrite app_nil_r.
    now change (len (@nil byte)) with 0; rewrite Z.add_0_r.
  - change (list_sum (map weight (v :: l)))
      with (weight v + list_sum (map weight l))%nat in Hf.
    pose proof (weight_pos v) as Hpos.
    cbn [List.length flat_map Nat.add]. rewrite list_loop_S.
    destruct (Hv (List.length l + f)%nat pre (flat_map bencoding l ++ tail))
      as (c & r & Hc & Hne & Hdec); [lia|].
    rewrite <- app_assoc.
    remember (pre ++ bencoding v ++ flat_map bencoding l ++ tail) as data
      eqn:Edata.
    assert (Hdata : data = pre ++ c :: (r ++ flat_map bencoding l ++ tail)).
    { rewrite Edata. now rewrite Hc. }
    assert (Hget : getitem data (len pre) = Ok c).
    { rewrite Hdata. apply getitem_at. }
    destruct (Z.ltb_spec (len pre) (len data)) as [_|E].
    2:{ rewrite Hdata, len_app, len_cons in E.
        pose proof (len_nonneg (r ++ flat_map bencoding l ++ tail)).
        pose proof (len_nonneg pre). lia. }
    rewrite Hget. cbn [bind]. rewrite (eqb_neq _ _ Hne). cbn [negb].
    rewrite Hdec. cbn [bind].
    replace (len pre + len (bencoding v)) with (len (pre ++ bencoding v))
      by apply len_app.
    rewrite Edata, app_assoc, IH by lia.
    rewrite <- !app_assoc. cbn [app]. f_equal. len_arith.
Qed.

(** The loop of [_decode_dict] over the pairs [d], whatever follows. *)
Lemma dict_loop_prefix d :
  Forall (fun kv : bytes * pyobj => decodes (snd kv)) d ->
  forall f acc pre tail,
    (list_sum (map (fun kv => weight (snd kv)) d) <= f)%nat ->
    Decoder.dict_loop (pre ++ pairs_bencoding d ++ tail)
      (List.length d + f) acc (len pre)
    = Decoder.dict_loop (pre ++ pairs_bencoding d ++ tail)
        f (stored d acc) (len pre + len (pairs_bencoding d)).
Proof.
  unfold pairs_bencoding.
  induction 1 as [|[key v] d Hv _ IH]; intros f acc pre tail Hf.
  - cbn [List.length flat_map app Nat.add stored fold_left].
    now change (len (@nil byte)) with 0; rewrite Z.add_0_r.
  - change (list_sum (map (fun kv => weight (snd kv)) ((key, v) :: d)))
      with (weight v + list_sum (map (fun kv => weight (snd kv)) d))%nat in Hf.
    cbn [fst snd] in Hv. pose proof (weight_pos v) as Hpos.
    cbn [List.length flat_map Nat.add fst snd stored fold_left].
    rewrite dict_loop_S. rewrite <- !app_assoc.
    remember (flat_map (fun kv : bytes * pyobj =>
                          bencoding (PyBytes (fst kv)) ++ bencoding (snd kv)) d
              ++ tail) as rest eqn:Erest.
    remember (pre ++ bencoding (PyBytes key) ++ bencoding v ++ rest)
      as data eqn:Edata.
    destruct (bytes_decodes key 1%nat pre (bencoding v ++ rest))
      as (c & r & Hc & Hne & _); [cbn; lia|].
    destruct (Hv (List.length d + f)%nat (pre ++ bencoding (PyBytes key)) rest)
      as (c' & r' & Hc' & _ & Hdec); [lia|].
    assert (Hdata : data = pre ++ c :: (r ++ bencoding v ++ rest)).
    { rewrite Edata. now rewrite Hc. }
    assert (Hget : getitem data (len pre) = Ok c).
    { rewrite Hdata. apply getitem_at. }
    destruct (Z.ltb_spec (len pre) (len data)) as [_|E].
    2:{ rewrite Hdata, len_app, len_cons in E.
        pose proof (len_nonneg (r ++ bencoding v ++ rest)).
        pose proof (len_nonneg pre). lia. }
    rewrite Hget. cbn [bind]. rewrite (eqb_neq _ _ Hne). cbn [negb].
    rewrite Edata at 1. rewrite decode_str_at. cbn [bind].
    replace (len pre + len (bencoding (PyBytes key)))
      with (len (pre ++ bencoding (PyBytes key))) by apply len_app.
    assert (Hdata' : data = (pre ++ bencoding (PyBytes key)) ++ bencoding v ++ rest).
    { rewrite Edata. now rewrite <- app_assoc. }
    assert (Hget' : getitem data (len (pre ++ bencoding (PyBytes key))) = Ok c').
    { rewrite Hdata', Hc'. apply getitem_at. }
    rewrite Hget'. cbn [bind]. rewrite Hdata', Hdec. cbn [bind].
    replace (len (pre ++ bencoding (PyBytes key)) + len (bencoding v))
      with (len ((pre ++ bencoding (PyBytes key)) ++ bencoding v))
      by apply len_app.
    rewrite Erest, (app_assoc _ (bencoding v)).
    rewrite IH by lia. unfold stored.
    rewrite <- !app_assoc. f_equal. len_arith.
Qed.

Lemma dict_get_setitem a k v key :
  dict_get (setitem a k v) key
  = if bytes_eqb k key then Some v else dict_get a key.
Proof.
  induction a as [|[k0 x] r IH].
  - reflexivity.
  - cbn [setitem]. destruct k0; cbn [dict_get]; try exact IH.
    destruct (bytes_eqb s k) eqn:Esk.
    + apply bytes_eqb_eq in Esk. subst s. cbn [dict_get].
      destruct (bytes_eqb k key); reflexivity.
    + cbn [dict_get]. rewrite IH.
      destruct (bytes_eqb s key) eqn:Eskey; [|reflexivity].
      apply bytes_eqb_eq in Eskey. subst s.
      destruct (bytes_eqb k key) eqn:Ek; [|reflexivity].
      apply bytes_eqb_eq in Ek. subst k.
      rewrite (proj2 (bytes_eqb_eq key key) eq_refl) in Esk. discriminate Esk.
Qed.

Lemma dict_get_stored d : forall acc key,
  dict_get (stored d acc) key
  = match fold_left (fun r kv => if bytes_eqb (fst kv) key
                                 then Some (snd kv) else r) d None with
    | Some v => Some v
    | None => dict_get acc key
    end.
Proof.
  unfold stored.
  induction d as [|[k v] d IH] using rev_ind; intros acc key; [reflexivity|].
  rewrite !fold_left_app. cbn [fold_left fst snd].
  rewrite dict_get_setitem.
  destruct (bytes_eqb k key); [reflexivity|apply IH].
Qed.

End Loops.

(** X16.  A mapping may be written with repeated keys: when the keys and
    values written are within the limits of the interpreter, the decoder
    accepts it, and under every key the decoded mapping holds the value of
    the last pair written with that key. *)
Theorem decode_mapping_last_write_wins (fuel : nat) (d : list (bytes * pyobj)) :
  forallb (fun kv => is_value (snd kv)) d = true ->
  pairs_within_limits d = true ->
  (2 + List.length d + list_sum (map (fun kv => weight (snd kv)) d) <= fuel)%nat ->
  decode fuel (b "d" ++ pairs_bencoding d ++ b "e")
  = Ok (PyOrderedDict (stored d []))
  /\ forall key, dict_get (stored d []) key = last_written d key.
Proof.
  intros Hd _ Hfuel. split.
  2:{ intros key. rewrite dict_get_stored. unfold last_written.
      now destruct (fold_left _ d None). }
  assert (Hdec : Forall (fun kv : bytes * pyobj => decodes (snd kv)) d).
  { rewrite forallb_forall in Hd. rewrite Forall_forall.
    intros kv Hkv. apply value_decodes. now apply Hd. }
  set (w := list_sum (map (fun kv => weight (snd kv)) d)) in *.
  replace fuel with (S (List.length d + S (fuel - 2 - List.length d)))%nat by lia.
  change (b "d" ++ pairs_bencoding d ++ b "e")
    with ([x64] ++ pairs_bencoding d ++ [x65]).
  rewrite (decode_top _ _ x64 (pairs_bencoding d ++ [x65]) eq_refl), bdecode_S.
  change (Byte.eqb x64 x6c) with false. change (Byte.eqb x64 x64) with true.
  cbv iota. change (0 + 1) with (len [x64]).
  rewrite (dict_loop_prefix d Hdec _ [] [x64] [x65]) by (fold w; lia).
  rewrite dict_loop_S.
  pose proof (len_nonneg (pairs_bencoding d)) as Hp.
  assert (Hlen : len ([x64] ++ pairs_bencoding d ++ [x65])
                 = len (pairs_bencoding d) + 2).
  { rewrite !len_app. change (len [x64]) with 1. change (len [x65]) with 1. lia. }
  rewrite Hlen. change (len [x64]) with 1.
  destruct (Z.ltb_spec (1 + len (pairs_bencoding d))
              (len (pairs_bencoding d) + 2)); [|lia].
  replace (1 + len (pairs_bencoding d))
    with (len ([x64] ++ pairs_bencoding d))
    by (rewrite len_app; reflexivity).
  rewrite app_assoc, getitem_at. cbn [bind].
  change (negb (Byte.eqb x65 x65)) with false. cbv iota. cbn [bind].
  change (x64 :: pairs_bencoding d ++ [x65])
    with ([x64] ++ pairs_bencoding d ++ [x65]).
  rewrite Hlen, len_app. change (len [x64]) with 1.
  destruct (Z.eqb_spec (1 + len (pairs_bencoding d) + 1)
              (len (pairs_bencoding d) + 2)); [reflexivity|lia].
Qed.

Lemma decode_mapping_last_write_wins_witness :
  decode 8 (b "d" ++ pairs_bencoding [(b "a", PyInt 1); (b "b", PyInt 7);
                                      (b "a", PyInt 2)] ++ b "e")
  = Ok (PyOrderedDict [(PyBytes (b "a"), PyInt 2); (PyBytes (b "b"), PyInt 7)])
  /\ dict_get [(PyBytes (b "a"), PyInt 2); (PyBytes (b "b"), PyInt 7)] (b "a")
     = Some (PyInt 2).
Proof.
  destruct (decode_mapping_last_write_wins 8
              [(b "a", PyInt 1); (b "b", PyInt 7); (b "a", PyInt 2)]
              eq_refl eq_refl ltac:(cbn; lia)) as [Hd Hg].
  split; [exact Hd|]. exact (Hg (b "a")).
Defined.


Section Unterminated.

Lemma decode_open_list fuel l :
  Forall decodes l ->
  (2 + List.length l + list_sum (map weight l) <= fuel)%nat ->
  decode fuel (b "l" ++ flat_map bencoding l)
  = Raise (InvalidTorrentFileBencoding TrailingBytes).
Proof.
  intros Hdec Hfuel.
  replace (b "l" ++ flat_map bencoding l)
    with ([x6c] ++ flat_map bencoding l ++ []) by now rewrite app_nil_r.
  replace fuel with (S (List.length l + S (fuel - 2 - List.length l)))%nat by lia.
  rewrite (decode_top _ _ x6c (flat_map bencoding l ++ []) eq_refl), bdecode_S.
  change (Byte.eqb x6c x6c) with true. cbv iota. change (0 + 1) with (len [x6c]).
  rewrite (list_loop_prefix l Hdec _ [] [x6c] []) by lia.
  rewrite list_loop_S.
  change (x6c :: flat_map bencoding l ++ [])
    with ([x6c] ++ flat_map bencoding l ++ []).
  rewrite !app_nil_r, !len_app.
  destruct (Z.ltb_spec (len [x6c] + len (flat_map bencoding l))
              (len [x6c] + len (flat_map bencoding l))); [lia|].
  cbn [bind].
  destruct (Z.eqb_spec (len [x6c] + len (flat_map bencoding l) + 1)
              (len [x6c] + len (flat_map bencoding l))); [lia|reflexivity].
Qed.

Lemma decode_open_dict fuel d :
  Forall (fun kv : bytes * pyobj => decodes (snd kv)) d ->
  (2 + List.length d + list_sum (map (fun kv => weight (snd kv)) d) <= fuel)%nat ->
  decode fuel (b "d" ++ pairs_bencoding d)
  = Raise (InvalidTorrentFileBencoding TrailingBytes).
Proof.
  intros Hdec Hfuel.
  replace (b "d" ++ pairs_bencoding d)
    with ([x64] ++ pairs_bencoding d ++ []) by now rewrite app_nil_r.
  replace fuel with (S (List.length d + S (fuel - 2 - List.length d)))%nat by lia.
  rewrite (decode_top _ _ x64 (pairs_bencoding d ++ []) eq_refl), bdecode_S.
  change (Byte.eqb x64 x6c) with false. change (Byte.eqb x64 x64) with true.
  cbv iota. change (0 + 1) with (len [x64]).
  rewrite (dict_loop_prefix d Hdec _ [] [x64] []) by lia.
  rewrite dict_loop_S.
  change (x64 :: pairs_bencoding d ++ [])
    with ([x64] ++ pairs_bencoding d ++ []).
  rewrite !app_nil_r, !len_app.
  destruct (Z.ltb_spec (len [x64] + len (pairs_bencoding d))
              (len [x64] + len (pairs_bencoding d))); [lia|].
  cbn [bind].
  destruct (Z.eqb_spec (len [x64] + len (pairs_bencoding d) + 1)
              (len [x64] + len (pairs_bencoding d))); [lia|reflexivity].
Qed.

Lemma decode_key_without_value fuel d key :
  Forall (fun kv : bytes * pyobj => decodes (snd kv)) d ->
  (2 + List.length d + list_sum (map (fun kv => weight (snd kv)) d) <= fuel)%nat ->
  decode fuel (b "d" ++ pairs_bencoding d ++ bencoding (PyBytes key))
  = Raise IndexError.
Proof.
  intros Hdec Hfuel.
  change (b "d" ++ pairs_bencoding d ++ bencoding (PyBytes key))
    with ([x64] ++ pairs_bencoding d ++ bencoding (PyBytes key)).
  replace fuel with (S (List.length d + S (fuel - 2 - List.length d)))%nat by lia.
  rewrite (decode_top _ _ x64 (pairs_bencoding d ++ bencoding (PyBytes key))
             eq_refl), bdecode_S.
  change (Byte.eqb x64 x6c) with false. change (Byte.eqb x64 x64) with true.
  cbv iota. change (0 + 1) with (len [x64]).
  rewrite (dict_loop_prefix d Hdec _ [] [x64] (bencoding (PyBytes key))) by lia.
  rewrite dict_loop_S.
  destruct (bytes_decodes key 1%nat ([x64] ++ pairs_bencoding d) [])
    as (c & r & Hc & Hne & _); [cbn; lia|].
  remember ([x64] ++ pairs_bencoding d ++ bencoding (PyBytes key)) as data
    eqn:Edata.
  assert (Hdata : data = ([x64] ++ pairs_bencoding d) ++ c :: r).
  { rewrite Edata, Hc. now rewrite <- app_assoc. }
  assert (Hdata' : data = ([x64] ++ pairs_bencoding d)
                          ++ bencoding (PyBytes key) ++ []).
  { rewrite Edata. now rewrite app_nil_r, <- app_assoc. }
  replace (len [x64] + len (pairs_bencoding d))
    with (len ([x64] ++ pairs_bencoding d)) by apply len_app.
  destruct (Z.ltb_spec (len ([x64] ++ pairs_bencoding d)) (len data)) as [_|E].
  2:{ rewrite Hdata, len_app, len_cons in E. pose proof (len_nonneg r). lia. }
  assert (Hget : getitem data (len ([x64] ++ pairs_bencoding d)) = Ok c).
  { rewrite Hdata. apply getitem_at. }
  rewrite Hget. cbn [bind]. rewrite (eqb_neq _ _ Hne). cbn [negb].
  rewrite Hdata' at 1. rewrite decode_str_at. cbn [bind].
  replace (len ([x64] ++ pairs_bencoding d) + len (bencoding (PyBytes key)))
    with (len data) by (rewrite Hdata', !len_app; len_arith).
  rewrite getitem_past. reflexivity.
Qed.

End Unterminated.

(** X17.  A list or a mapping whose closing ['e'] is missing is never
    accepted: after any number of complete elements or pairs, within the
    limits of the interpreter, the buffer is refused with the byte-count
    error; a mapping that stops right after a key makes the look-up of the
    next byte fail with [IndexError]. *)
Theorem decode_unterminated_container
  (fuel : nat) (l : list pyobj) (d : list (bytes * pyobj)) (key : bytes) :
  forallb is_value l = true ->
  forallb (fun kv => is_value (snd kv)) d = true ->
  forallb within_limits l = true ->
  pairs_within_limits d = true ->
  within_limits (PyBytes key) = true ->
  (2 + List.length l + list_sum (map weight l) <= fuel)%nat ->
  (2 + List.length d + list_sum (map (fun kv => weight (snd kv)) d) <= fuel)%nat ->
  decode fuel (b "l" ++ flat_map bencoding l)
  = Raise (InvalidTorrentFileBencoding TrailingBytes)
  /\ decode fuel (b "d" ++ pairs_bencoding d)
     = Raise (InvalidTorrentFileBencoding TrailingBytes)
  /\ decode fuel (b "d" ++ pairs_bencoding d ++ bencoding (PyBytes key))
     = Raise IndexError.
Proof.
  intros Hl Hd _ _ _ Hfl Hfd.
  assert (Hdl : Forall decodes l).
  { rewrite forallb_forall in Hl. rewrite Forall_forall.
    intros v Hv. apply value_decodes. now apply Hl. }
  assert (Hdd : Forall (fun kv : bytes * pyobj => decodes (snd kv)) d).
  { rewrite forallb_forall in Hd. rewrite Forall_forall.
    intros kv Hkv. apply value_decodes. now apply Hd. }
  split; [|split].
  - now apply decode_open_list.
  - now apply decode_open_dict.
  - now apply decode_key_without_value.
Qed.

Lemma decode_unterminated_container_witness :
  decode 4 (b "li1e")
  = Raise (InvalidTorrentFileBencoding TrailingBytes)
  /\ decode 4 (b "d1:ai1e")
     = Raise (InvalidTorrentFileBencoding TrailingBytes)
  /\ decode 4 (b "d1:ai1e1:b") = Raise IndexError.
Proof.
  exact (decode_unterminated_container 4 [PyInt 1] [(b "a", PyInt 1)] (b "b")
           eq_refl eq_refl eq_refl eq_refl eq_refl
           ltac:(cbn; lia) ltac:(cbn; lia)).
Defined.


Section NativeObjects.

Lemma str_encode_ascii s :
  forallb (fun c => (0 <=? c) && (c <? 128)) s = true ->
  str_encode s = Ok (map chr s).
Proof.
  induction s as [|c r IH]; intros H; [reflexivity|].
  cbn [forallb] in H. apply andb_true_iff in H as [Hc Hr].
  apply andb_true_iff in Hc as [_ Hc].
  cbn [str_encode map]. unfold utf8. rewrite Hc. cbn [bind].
  rewrite (IH Hr). reflexivity.
Qed.

Lemma len_map {A B} (f : A -> B) (l : list A) : len (map f l) = len l.
Proof. unfold len. now rewrite length_map. Qed.

Lemma for_each_canonical l :
  Forall encodes_canonical l ->
  forall acc, exists chunks,
    Encoder.for_each Encoder._encode_func l acc = Ok (acc ++ chunks)
    /\ List.concat chunks = flat_map bencoding (map canonical l).
Proof.
  induction 1 as [|x l Hx _ IH]; intros acc.
  - exists []. now rewrite app_nil_r.
  - destruct (Hx acc) as (c1 & E1 & C1).
    destruct (IH (acc ++ c1)) as (c2 & E2 & C2).
    exists (c1 ++ c2). cbn [Encoder.for_each flat_map map].
    rewrite E1. cbn [bind]. rewrite E2, concat_app, C1, C2.
    now rewrite app_assoc.
Qed.

Lemma for_each_pairs_canonical d :
  Forall (fun kv => encodes_canonical (fst kv) /\ encodes_canonical (snd kv)) d ->
  forall acc, exists chunks,
    Encoder.for_each
      (fun kv _bencoded =>
         _bencoded <- Encoder._encode_func (fst kv) _bencoded ;;
         Encoder._encode_func (snd kv) _bencoded) d acc
    = Ok (acc ++ chunks)
    /\ List.concat chunks
       = flat_map (fun kv => bencoding (fst kv) ++ bencoding (snd kv))
           (map (fun kv => (canonical (fst kv), canonical (snd kv))) d).
Proof.
  induction 1 as [|[k x] d [Hk Hx] _ IH]; intros acc.
  - exists []. now rewrite app_nil_r.
  - cbn [fst snd] in *.
    destruct (Hk acc) as (c1 & E1 & C1).
    destruct (Hx (acc ++ c1)) as (c2 & E2 & C2).
    destruct (IH ((acc ++ c1) ++ c2)) as (c3 & E3 & C3).
    exists (c1 ++ c2 ++ c3). cbn [Encoder.for_each flat_map map fst snd].
    rewrite E1. cbn [bind]. rewrite E2. cbn [bind].
    rewrite E3, !concat_app, C1, C2, C3.
    now rewrite <- !app_assoc.
Qed.

Lemma native_encodes : forall x,
  ascii_text x = true -> is_value (canonical x) = true -> encodes_canonical x.
Proof.
  assert (Hlist : forall l,
             Forall (fun x => ascii_text x = true ->
                              is_value (canonical x) = true ->
                              encodes_canonical x) l ->
             forallb ascii_text l = true ->
             forallb is_value (map canonical l) = true ->
             Forall encodes_canonical l).
  { intros l IH Ha Hv. rewrite forallb_forall in Ha, Hv.
    rewrite Forall_forall in *. intros x Hx. apply IH; auto.
    apply Hv. now apply in_map. }
  assert (Hdict : forall d,
             Forall (fun kv =>
                       (ascii_text (fst kv) = true ->
                        is_value (canonical (fst kv)) = true ->
                        encodes_canonical (fst kv)) /\
                       (ascii_text (snd kv) = true ->
                        is_value (canonical (snd kv)) = true ->
                        encodes_canonical (snd kv))) d ->
             forallb (fun kv => ascii_text (fst kv) && ascii_text (snd kv)) d
             = true ->
             forallb (fun kv => is_bytes (fst kv) && is_value (snd kv))
               (map (fun kv => (canonical (fst kv), canonical (snd kv))) d)
             = true ->
             Forall (fun kv => encodes_canonical (fst kv)
                               /\ encodes_canonical (snd kv)) d).
  { intros d IH Ha Hv. rewrite forallb_forall in Ha, Hv.
    rewrite Forall_forall in *. intros kv Hkv.
    specialize (Ha kv Hkv). apply andb_true_iff in Ha as [Hak Hav].
    specialize (Hv _ (in_map (fun kv => (canonical (fst kv), canonical (snd kv)))
                        d kv Hkv)).
    cbn [fst snd] in Hv. apply andb_true_iff in Hv as [Hvk Hvv].
    destruct (IH kv Hkv) as [IHk IHx]. split; [apply IHk|apply IHx]; auto.
    destruct (canonical (fst kv)); try discriminate Hvk. reflexivity. }
  induction x as [i|w|s|s|l IH|l IH|d IH|d IH|t] using pyobj_nested_ind;
    intros Ha Hv; try discriminate Hv; intros acc.
  - exists [bencoding (PyInt i)]. split; [reflexivity|apply app_nil_r].
  - exists [bencoding (canonical (PyBool w))].
    split; [destruct w; reflexivity|apply app_nil_r].
  - exists [bencoding (canonical (PyStr s))]. cbn [ascii_text] in Ha.
    cbn [Encoder._encode_func]. unfold Encoder._encode_str.
    rewrite (str_encode_ascii s Ha). cbn [bind canonical bencoding].
    rewrite len_map. split; [reflexivity|apply app_nil_r].
  - exists [bencoding (PyBytes s)]. split; [reflexivity|apply app_nil_r].
  - cbn [ascii_text] in Ha. cbn [canonical is_value] in Hv.
    destruct (for_each_canonical l (Hlist l IH Ha Hv) (acc ++ [b "l"]))
      as (ch & E & C).
    exists ([b "l"] ++ ch ++ [b "e"]).
    cbn [Encoder._encode_func]. rewrite E. cbn [bind].
    split; [now rewrite <- !app_assoc|].
    rewrite !concat_app, C. cbn [List.concat canonical bencoding].
    now rewrite !app_nil_r.
  - cbn [ascii_text] in Ha. cbn [canonical is_value] in Hv.
    destruct (for_each_canonical l (Hlist l IH Ha Hv) (acc ++ [b "l"]))
      as (ch & E & C).
    exists ([b "l"] ++ ch ++ [b "e"]).
    cbn [Encoder._encode_func]. rewrite E. cbn [bind].
    split; [now rewrite <- !app_assoc|].
    rewrite !concat_app, C. cbn [List.concat canonical bencoding].
    now rewrite !app_nil_r.
  - cbn [ascii_text] in Ha. cbn [canonical is_value] in Hv.
    apply andb_true_iff in Hv as [Hall _].
    destruct (for_each_pairs_canonical d (Hdict d IH Ha Hall) (acc ++ [b "d"]))
      as (ch & E & C).
    exists ([b "d"] ++ ch ++ [b "e"]).
    cbn [Encoder._encode_func]. rewrite E. cbn [bind].
    split; [now rewrite <- !app_assoc|].
    rewrite !concat_app, C. cbn [List.concat canonical bencoding].
    now rewrite !app_nil_r.
  - cbn [ascii_text] in Ha. cbn [canonical is_value] in Hv.
    apply andb_true_iff in Hv as [Hall _].
    destruct (for_each_pairs_canonical d (Hdict d IH Ha Hall) (acc ++ [b "d"]))
      as (ch & E & C).
    exists ([b "d"] ++ ch ++ [b "e"]).
    cbn [Encoder._encode_func]. rewrite E. cbn [bind].
    split; [now rewrite <- !app_assoc|].
    rewrite !concat_app, C. cbn [List.concat canonical bencoding].
    now rewrite !app_nil_r.
Qed.

End NativeObjects.

(** X18.  Native objects outside the decoder's data model are written as
    the value they stand for: a [bool] as 1 or 0, ASCII text as its bytes, a
    tuple as a list, a [dict] as an ordered mapping.  When that value is in
    the data model (mapping keys are text or byte strings, pairwise distinct
    once encoded) and the object is within the limits of the interpreter,
    [encode] succeeds with its bencoding and [decode] gives that value
    back, not the object that was passed in. *)
Theorem decode_encode_native (x : pyobj) (fuel : nat) :
  ascii_text x = true ->
  is_value (canonical x) = true ->
  within_limits x = true ->
  (weight (canonical x) <= fuel)%nat ->
  encode x = Ok (bencoding (canonical x))
  /\ decode fuel (bencoding (canonical x)) = Ok (canonical x).
Proof.
  intros Ha Hv _ Hfuel. split.
  - destruct (native_encodes x Ha Hv []) as (ch & E & C).
    unfold encode, Encoder.encode. rewrite E. cbn [app]. now rewrite C.
  - now apply decode_bencoding.
Qed.

Lemma decode_encode_native_witness :
  encode (PyDict [(PyStr [97], PyTuple [PyBool true; PyStr [104; 105]])])
  = Ok (b "d1:ali1e2:hiee")
  /\ decode 6 (b "d1:ali1e2:hiee")
     = Ok (PyOrderedDict [(PyBytes (b "a"),
                           PyList [PyInt 1; PyBytes (b "hi")])]).
Proof.
  exact (decode_encode_native
           (PyDict [(PyStr [97], PyTuple [PyBool true; PyStr [104; 105]])]) 6
           eq_refl eq_refl eq_refl ltac:(cbn; lia)).
Defined.


Section TextStrings.

Lemma utf8_size c :
  is_surrogate c = false ->
  exists x, utf8 c = Ok x
            /\ if c <? 128 then len x = 1 else 2 <= len x.
Proof.
  intros Hs. unfold utf8. unfold is_surrogate in Hs. rewrite Hs.
  destruct (c <? 128); [eexists; split; reflexivity|].
  destruct (c <? 2048); [eexists; split; [reflexivity|cbn; lia]|].
  destruct (c <? 65536); eexists; (split; [reflexivity|cbn; lia]).
Qed.

Lemma str_encode_size s :
  forallb (fun c => negb (is_surrogate c)) s = true ->
  exists body, str_encode s = Ok body
    /\ if forallb (fun c => c <? 128) s then len body = len s
       else len s < len body.
Proof.
  induction s as [|c r IH]; intros H.
  - exists []. split; reflexivity.
  - cbn [forallb] in H. apply andb_true_iff in H as [Hc Hr].
    apply negb_true_iff in Hc.
    destruct (utf8_size c Hc) as (x & Ex & Lx).
    destruct (IH Hr) as (y & Ey & Ly).
    exists (x ++ y). cbn [str_encode forallb]. rewrite Ex. cbn [bind].
    rewrite Ey. cbn [bind]. split; [reflexivity|].
    rewrite len_app, len_cons.
    destruct (c <? 128); cbn [andb];
      destruct (forallb (fun c => c <? 128) r); lia.
Qed.

(** A buffer made of the decimal text of [n], a colon and [body]. *)
Lemma decode_counted fuel n body :
  0 <= n ->
  decode (S fuel) (str_int n ++ b ":" ++ body) =
  if n =? len body then Ok (PyBytes body)
  else Raise (InvalidTorrentFileBencoding TrailingBytes).
Proof.
  intros Hn.
  destruct (str_int_shape n) as (_ & Hcolon & _ & c & span & Hc & Hd).
  destruct Hd as [Hd|Hminus].
  2:{ exfalso. subst c. unfold str_int in Hc.
      destruct (Z.ltb_spec n 0) as [|_]; [lia|].
      destruct (digits_spec n Hn) as (Hall & _).
      rewrite Hc in Hall. inversion Hall as [|? ? Hx _]. discriminate Hx. }
  pose proof (int_of_str_int n) as Hint.
  rewrite Hc in Hcolon, Hint. rewrite Hc.
  replace ((c :: span) ++ b ":" ++ body)
    with ((c :: span) ++ x3a :: body ++ []) by (now rewrite app_nil_r).
  rewrite (decode_top ((c :: span) ++ x3a :: body ++ []) _ c
             (span ++ x3a :: body ++ []) eq_refl), bdecode_S.
  destruct (digit_dispatch c Hd) as (-> & -> & -> & _). rewrite Hd.
  rewrite decode_str_span by assumption. rewrite Hint.
  cbn [bind]. set (t := c :: span) in *.
  pose proof (len_nonneg t) as Ht.
  assert (Hlen : len (t ++ x3a :: body ++ []) = len t + 1 + len body).
  { rewrite len_app, len_cons, len_app. change (len (@nil byte)) with 0. lia. }
  rewrite Hlen.
  destruct (Z.eqb_spec n (len body)) as [->|Hne].
  - rewrite Z.eqb_refl. cbn [negb]. do 2 f_equal.
    replace (t ++ x3a :: body ++ []) with ((t ++ [x3a]) ++ body ++ [])
      by (now rewrite <- app_assoc).
    replace (len t + 1) with (len (t ++ [x3a]))
      by (rewrite len_app; reflexivity).
    apply slice_at.
  - destruct (Z.eqb_spec (len t + 1 + n) (len t + 1 + len body));
      [lia|reflexivity].
Qed.

End TextStrings.

(** X19.  A text string without lone surrogates is written with the
    number of its code points as the length, followed by its UTF-8 bytes.
    The decoder therefore reads the buffer back, as those bytes, exactly
    when the text is ASCII; for any other text it raises its byte-count
    error on the encoder's own output. *)
Theorem encode_text_counts_code_points (fuel : nat) (s : list Z) :
  forallb (fun c => negb (is_surrogate c)) s = true ->
  exists body,
    str_encode s = Ok body
    /\ encode (PyStr s) = Ok (str_int (len s) ++ b ":" ++ body)
    /\ decode (S fuel) (str_int (len s) ++ b ":" ++ body)
       = if forallb (fun c => c <? 128) s then Ok (PyBytes body)
         else Raise (InvalidTorrentFileBencoding TrailingBytes).
Proof.
  intros Hs. destruct (str_encode_size s Hs) as (body & E & L).
  exists body. split; [exact E|]. split.
  - unfold encode, Encoder.encode. cbn [Encoder._encode_func].
    unfold Encoder._encode_str. rewrite E. cbn [bind app List.concat].
    now rewrite app_nil_r.
  - rewrite decode_counted by apply len_nonneg.
    destruct (forallb (fun c => c <? 128) s).
    + rewrite L, Z.eqb_refl. reflexivity.
    + destruct (Z.eqb_spec (len s) (len body)); [lia|reflexivity].
Qed.

Lemma encode_text_counts_code_points_witness :
  exists body,
    str_encode [233] = Ok body
    /\ encode (PyStr [233]) = Ok (str_int 1 ++ b ":" ++ body)
    /\ decode 1 (str_int 1 ++ b ":" ++ body)
       = Raise (InvalidTorrentFileBencoding TrailingBytes).
Proof.
  exact (encode_text_counts_code_points 0 [233] eq_refl).
Defined.


(** X20.  An instance that a constructor returned and one of whose integer
    attributes does not fit its wire field is never serialized, not even
    truncated: [to_bytes] raises [struct.error]. *)
Theorem to_bytes_struct_error (m : message) :
  constructed m -> fields_fit m = false -> to_bytes m = Raise StructError.
Proof.
  intros _ Hfit. destruct m; cbn [fields_fit] in Hfit;
    cbn [to_bytes BaseMessage.to_bytes IDMessage.to_bytes IDMessage.msg_id
         Handshake.to_bytes Have.to_bytes Bitfield.to_bytes Request.to_bytes
         Piece.to_bytes Cancel.to_bytes Port.to_bytes BaseMessage.msg_len
         bind pack Handshake.STRUCT Have.STRUCT Bitfield.STRUCT
         Request.STRUCT Piece.STRUCT Cancel.STRUCT Port.STRUCT];
    repeat match goal with
           | |- context [pack_uint ?w (VInt ?x)] =>
               let E := fresh "E" in
               destruct (fits w x) eqn:E;
               [rewrite (pack_uint_fits w x E)
               |rewrite (pack_uint_overflow w x E)];
               cbn [bind]
           end;
    try reflexivity;
    repeat match goal with
           | H : fits _ _ = true |- _ => rewrite H in Hfit; clear H
           end;
    discriminate Hfit.
Qed.

Lemma to_bytes_struct_error_witness :
  Port.__init__ 70000 = Ok (Port 3 9 70000)
  /\ to_bytes (Port 3 9 70000) = Raise StructError.
Proof.
  split; [reflexivity|].
  apply to_bytes_struct_error; [apply (c_Port 70000)|]; reflexivity.
Defined.


Section Fuel.

Lemma bind_mono {A B} (m m' : outcome A) (k k' : A -> outcome B) :
  (m <> Diverged -> m' = m) ->
  (forall a, m = Ok a -> k a <> Diverged -> k' a = k a) ->
  bind m k <> Diverged -> bind m' k' = bind m k.
Proof.
  intros Hm Hk H. destruct m as [a|e|].
  - rewrite Hm by discriminate. cbn [bind] in *. now apply Hk.
  - rewrite Hm by discriminate. reflexivity.
  - now contradiction H.
Qed.

(** A run that ends, with a value or an exception, ends the same way with
    any larger amount of fuel. *)
Lemma fuel_mono data fuel : forall fuel', (fuel <= fuel')%nat ->
  (forall c i, Decoder._bdecode data fuel c i <> Diverged ->
               Decoder._bdecode data fuel' c i = Decoder._bdecode data fuel c i)
  /\ (forall acc i, Decoder.list_loop data fuel acc i <> Diverged ->
        Decoder.list_loop data fuel' acc i = Decoder.list_loop data fuel acc i)
  /\ (forall acc i, Decoder.dict_loop data fuel acc i <> Diverged ->
        Decoder.dict_loop data fuel' acc i = Decoder.dict_loop data fuel acc i).
Proof.
  induction fuel as [|f IH]; intros fuel' Hle.
  - repeat split; intros; now contradiction H.
  - destruct fuel' as [|f']; [lia|].
    destruct (IH f' ltac:(lia)) as (IHb & IHl & IHd).
    repeat split.
    + intros c i. rewrite !bdecode_S.
      destruct (Byte.eqb c x6c).
      { apply bind_mono; [apply IHl|reflexivity]. }
      destruct (Byte.eqb c x64).
      { apply bind_mono; [apply IHd|reflexivity]. }
      reflexivity.
    + intros acc i. rewrite !list_loop_S.
      destruct (i <? len data); [|reflexivity].
      apply bind_mono; [reflexivity|]. intros c _.
      destruct (negb (Byte.eqb c x65)); [|reflexivity].
      apply bind_mono; [reflexivity|]. intros c' _.
      apply bind_mono; [apply IHb|]. intros [element j] _. apply IHl.
    + intros acc i. rewrite !dict_loop_S.
      destruct (i <? len data); [|reflexivity].
      apply bind_mono; [reflexivity|]. intros c _.
      destruct (negb (Byte.eqb c x65)); [|reflexivity].
      apply bind_mono; [reflexivity|]. intros c' _.
      apply bind_mono; [reflexivity|]. intros [key j] _.
      apply bind_mono; [reflexivity|]. intros c'' _.
      apply bind_mono; [apply IHb|]. intros [val j'] _. apply IHd.
Qed.

Lemma decode_fuel_mono data fuel fuel' :
  (fuel <= fuel')%nat -> decode fuel data <> Diverged ->
  decode fuel' data = decode fuel data.
Proof.
  intros Hle. unfold decode, Decoder.decode.
  destruct data as [|c0 r]; [reflexivity|]. cbv iota.
  apply bind_mono; [reflexivity|]. intros c _.
  apply bind_mono; [apply (fuel_mono (c0 :: r) fuel fuel' Hle)|reflexivity].
Qed.

End Fuel.


Section BackwardCursor.

(** [_decode_str] at the start of [span ':' ...], for a span that [int()]
    reads as [n], of either sign. *)
Lemma decode_str_signed pre span post n :
  ~ In x3a span -> int_of_bytes span = Some n ->
  exists s,
    Decoder._decode_str (pre ++ span ++ x3a :: post) (len pre)
    = Ok (s, len pre + len span + 1 + n).
Proof.
  intros Hc Hint. unfold Decoder._decode_str.
  pose proof (len_nonneg pre). pose proof (len_nonneg span).
  rewrite find_at by assumption.
  destruct (Z.eqb_spec (len pre + len span) (-1)) as [|_]; [lia|].
  rewrite slice_at, Hint. eexists. reflexivity.
Qed.

(** Once the cursor of [_decode_dict] stands on the key [-5:] that
    follows the two bytes [0:], it comes back there after every iteration. *)
Lemma dict_loop_backward pre post fuel : forall acc,
  Decoder.dict_loop (pre ++ b "0:" ++ b "-5:" ++ post) fuel acc (len pre + 2)
  = Diverged.
Proof.
  set (data := pre ++ b "0:" ++ b "-5:" ++ post).
  pose proof (len_nonneg pre) as Hpre. pose proof (len_nonneg post) as Hpost.
  assert (Hlen : len data = len pre + 5 + len post).
  { unfold data. rewrite !len_app. change (len (b "0:")) with 2.
    change (len (b "-5:")) with 3. lia. }
  assert (Hkey : exists s, Decoder._decode_str data (len pre + 2)
                           = Ok (s, len pre)).
  { destruct (decode_str_signed (pre ++ b "0:") (b "-5") post (-5))
      as (s & E); [cbn; intuition discriminate|reflexivity|].
    exists s. unfold data.
    replace (pre ++ b "0:" ++ b "-5:" ++ post)
      with ((pre ++ b "0:") ++ b "-5" ++ x3a :: post)
      by (now rewrite <- !app_assoc).
    replace (len pre + 2) with (len (pre ++ b "0:"))
      by (rewrite len_app; reflexivity).
    rewrite E. do 2 f_equal. rewrite len_app.
    change (len (b "0:")) with 2. change (len (b "-5")) with 2. lia. }
  assert (Hval : exists s, Decoder._decode_str data (len pre)
                           = Ok (s, len pre + 2)).
  { destruct (decode_str_signed pre (b "0") (b "-5:" ++ post) 0)
      as (s & E); [cbn; intuition discriminate|reflexivity|].
    exists s. unfold data. change (b "0:" ++ b "-5:" ++ post)
      with (b "0" ++ x3a :: b "-5:" ++ post).
    rewrite E. do 2 f_equal. change (len (b "0")) with 1. lia. }
  assert (Hminus : getitem data (len pre + 2) = Ok x2d).
  { unfold data.
    replace (pre ++ b "0:" ++ b "-5:" ++ post)
      with ((pre ++ b "0:") ++ x2d :: (b "5:" ++ post))
      by (now rewrite <- !app_assoc).
    replace (len pre + 2) with (len (pre ++ b "0:"))
      by (rewrite len_app; reflexivity).
    apply getitem_at. }
  assert (Hzero : getitem data (len pre) = Ok x30).
  { unfold data. apply (getitem_at pre x30). }
  destruct Hkey as (key & Hkey). destruct Hval as (val & Hval).
  induction fuel as [|f IH]; intros acc; [reflexivity|].
  rewrite dict_loop_S, Hlen.
  destruct (Z.ltb_spec (len pre + 2) (len pre + 5 + len post)); [|lia].
  rewrite Hminus. cbn [bind]. change (negb (Byte.eqb x2d x65)) with true.
  cbv iota. rewrite Hkey. cbn [bind]. rewrite Hzero. cbn [bind].
  destruct f as [|f']; [reflexivity|].
  rewrite bdecode_S.
  change (Byte.eqb x30 x6c) with false. change (Byte.eqb x30 x64) with false.
  change (Byte.eqb x30 x69) with false. change (is_digit x30) with true.
  cbv iota. rewrite Hval. cbn [bind]. apply IH.
Qed.

Lemma pairs_bencoding_snoc d key :
  pairs_bencoding (d ++ [(key, PyBytes [])])
  = pairs_bencoding d ++ bencoding (PyBytes key) ++ b "0:".
Proof.
  unfold pairs_bencoding. rewrite flat_map_app. cbn [flat_map fst snd].
  rewrite app_nil_r. reflexivity.
Qed.

Lemma decode_backward_enough fuel d key post :
  Forall (fun kv : bytes * pyobj => decodes (snd kv)) d ->
  (3 + List.length d + list_sum (map (fun kv => weight (snd kv)) d) <= fuel)%nat ->
  decode fuel (b "d" ++ pairs_bencoding (d ++ [(key, PyBytes [])])
               ++ b "-5:" ++ post)
  = Diverged.
Proof.
  intros Hd Hfuel.
  assert (Hd' : Forall (fun kv : bytes * pyobj => decodes (snd kv))
                  (d ++ [(key, PyBytes [])])).
  { apply Forall_app. split; [assumption|].
    constructor; [apply bytes_decodes|constructor]. }
  assert (Hw : list_sum (map (fun kv : bytes * pyobj => weight (snd kv))
                           (d ++ [(key, PyBytes [])]))
               = (list_sum (map (fun kv => weight (snd kv)) d) + 1)%nat).
  { rewrite map_app, list_sum_app. reflexivity. }
  assert (Hn : List.length (d ++ [(key, PyBytes [])]) = S (List.length d)).
  { rewrite length_app. cbn [List.length]. lia. }
  set (d' := d ++ [(key, PyBytes [])]) in *.
  replace fuel with (S (List.length d' + (fuel - 1 - List.length d')))%nat by lia.
  change (b "d" ++ pairs_bencoding d' ++ b "-5:" ++ post)
    with ([x64] ++ pairs_bencoding d' ++ b "-5:" ++ post).
  rewrite (decode_top _ _ x64 (pairs_bencoding d' ++ b "-5:" ++ post) eq_refl),
    bdecode_S.
  change (Byte.eqb x64 x6c) with false. change (Byte.eqb x64 x64) with true.
  cbv iota. change (0 + 1) with (len [x64]).
  rewrite (dict_loop_prefix d' Hd' _ [] [x64] (b "-5:" ++ post)) by lia.
  subst d'. rewrite !pairs_bencoding_snoc.
  replace ([x64] ++ (pairs_bencoding d ++ bencoding (PyBytes key) ++ b "0:")
           ++ b "-5:" ++ post)
    with (([x64] ++ pairs_bencoding d ++ bencoding (PyBytes key))
          ++ b "0:" ++ b "-5:" ++ post)
    by (now rewrite <- !app_assoc).
  replace (len [x64]
           + len (pairs_bencoding d ++ bencoding (PyBytes key) ++ b "0:"))
    with (len ([x64] ++ pairs_bencoding d ++ bencoding (PyBytes key)) + 2)
    by (rewrite !len_app; change (len (b "0:")) with 2; lia).
  rewrite dict_loop_backward. reflexivity.
Qed.

End BackwardCursor.

(** X21.  The decoder does not return on every buffer.  A string length
    may be negative, which moves the cursor backwards: in a mapping, after
    any complete pairs within the limits of the interpreter, a pair whose
    value is the empty string [0:] followed by the key [-5:] sends the
    cursor back onto that value for ever, whatever follows.  No amount of
    fuel gives a value or an exception; the loop runs in one call of
    [_decode_dict], two calls deep, so the stack does not grow. *)
Theorem decode_loops_forever
  (fuel : nat) (d : list (bytes * pyobj)) (key post : bytes) :
  forallb (fun kv => is_value (snd kv)) d = true ->
  pairs_within_limits d = true ->
  within_limits (PyBytes key) = true ->
  decode fuel (b "d" ++ pairs_bencoding (d ++ [(key, PyBytes [])])
               ++ b "-5:" ++ post)
  = Diverged.
Proof.
  intros Hd _ _.
  assert (Hdec : Forall (fun kv : bytes * pyobj => decodes (snd kv)) d).
  { rewrite forallb_forall in Hd. rewrite Forall_forall.
    intros kv Hkv. apply value_decodes. now apply Hd. }
  set (data := b "d" ++ pairs_bencoding (d ++ [(key, PyBytes [])])
               ++ b "-5:" ++ post).
  set (n := (3 + List.length d
             + list_sum (map (fun kv : bytes * pyobj => weight (snd kv)) d))%nat).
  assert (Hbig : decode (Nat.max fuel n) data = Diverged).
  { apply decode_backward_enough; [assumption|]. fold n. lia. }
  destruct (decode fuel data) as [v|e|] eqn:E; [| |reflexivity].
  - rewrite (decode_fuel_mono data fuel (Nat.max fuel n)) in Hbig;
      [rewrite E in Hbig; discriminate Hbig|lia|rewrite E; discriminate].
  - rewrite (decode_fuel_mono data fuel (Nat.max fuel n)) in Hbig;
      [rewrite E in Hbig; discriminate Hbig|lia|rewrite E; discriminate].
Qed.

Lemma decode_loops_forever_witness :
  decode 1000 (b "d" ++ pairs_bencoding ([(b "a", PyInt 1)]
                                         ++ [(b "key", PyBytes [])])
               ++ b "-5:" ++ b "zzz")
  = Diverged.
Proof.
  exact (decode_loops_forever 1000 [(b "a", PyInt 1)] (b "key") (b "zzz")
           eq_refl eq_refl eq_refl).
Defined.

(** X23.  With text that can be encoded, and within the limits of the
    interpreter, [encode] succeeds on every object all of whose parts have
    a supported type, whatever the keys of its mappings, and raises
    [InvalidBencodeDataType] as soon as one part, at any depth, has not. *)
Theorem encode_outcome (x : pyobj) :
  encodable_text x = true -> within_limits x = true ->
  if supported x then exists data, encode x = Ok data
  else encode x = Raise InvalidBencodeDataType.
Proof.
  intros He _. pose proof (encode_func_outcome x He []) as H.
  unfold encode, Encoder.encode. destruct (supported x).
  - destruct H as (out & ->). eauto.
  - now rewrite H.
Qed.

Lemma encode_outcome_witness :
  encode (PyDict [(PyInt 1, PyTuple [PyBytes (b "a"); PyOther "NoneType"])])
  = Raise InvalidBencodeDataType.
Proof.
  exact (encode_outcome
           (PyDict [(PyInt 1, PyTuple [PyBytes (b "a"); PyOther "NoneType"])])
           eq_refl eq_refl).
Defined.

Section WrongSize.

Lemma id_only_sized cls payload :
  (exists m, cls = Ok m) ->
  if len payload =? 5 then exists m, IDMessage.from_bytes cls payload = Ok m
  else exists message,
      IDMessage.from_bytes cls payload = Raise (ValueError message).
Proof.
  intros (m & ->). unfold IDMessage.from_bytes.
  destruct (len payload =? 5); cbn [negb]; eauto.
Qed.

Lemma have_sized payload :
  if len payload =? 9 then exists m, Have.from_bytes payload = Ok m
  else exists message, Have.from_bytes payload = Raise (ValueError message).
Proof.
  destruct (Z.eqb_spec (len payload) 9) as [H|H].
  - explode payload H 9. eexists. reflexivity.
  - unfold Have.from_bytes.
    destruct (Z.eqb_spec (len payload) 9); [contradiction|]. eexists. reflexivity.
Qed.

Lemma request_sized payload :
  if len payload =? 17 then exists m, Request.from_bytes payload = Ok m
  else exists message, Request.from_bytes payload = Raise (ValueError message).
Proof.
  destruct (Z.eqb_spec (len payload) 17) as [H|H].
  - explode payload H 17. eexists. reflexivity.
  - unfold Request.from_bytes.
    destruct (Z.eqb_spec (len payload) 17); [contradiction|]. eexists. reflexivity.
Qed.

Lemma cancel_sized payload :
  if len payload =? 17 then exists m, Cancel.from_bytes payload = Ok m
  else exists message, Cancel.from_bytes payload = Raise (ValueError message).
Proof.
  destruct (Z.eqb_spec (len payload) 17) as [H|H].
  - explode payload H 17. eexists. reflexivity.
  - unfold Cancel.from_bytes.
    destruct (Z.eqb_spec (len payload) 17); [contradiction|]. eexists. reflexivity.
Qed.

Lemma port_sized payload :
  if len payload =? 7 then exists m, Port.from_bytes payload = Ok m
  else exists message, Port.from_bytes payload = Raise (ValueError message).
Proof.
  destruct (Z.eqb_spec (len payload) 7) as [H|H].
  - explode payload H 7. eexists. reflexivity.
  - unfold Port.from_bytes.
    destruct (Z.eqb_spec (len payload) 7); [contradiction|]. eexists. reflexivity.
Qed.

Lemma bitfield_sized payload :
  if 5 <=? len payload then exists m, Bitfield.from_bytes payload = Ok m
  else Bitfield.from_bytes payload = Raise StructError.
Proof.
  destruct (Z.leb_spec 5 (len payload)) as [H|H].
  - rewrite bitfield_from_bytes_long by assumption. eauto.
  - now apply bitfield_from_bytes_short.
Qed.

Lemma piece_sized payload :
  if 13 <=? len payload then exists m, Piece.from_bytes payload = Ok m
  else Piece.from_bytes payload = Raise StructError.
Proof.
  destruct (Z.leb_spec 13 (len payload)) as [H|H].
  - rewrite piece_from_bytes_long by assumption. eauto.
  - now apply piece_from_bytes_short.
Qed.

End WrongSize.

(** X24.  A payload of five bytes or more that does not start with the
    byte 19 and carries a known identifier is decoded when its size is one
    that the class of the identifier accepts.  Otherwise the dispatcher
    lets the error of that class out: [ValueError], or [struct.error] for a
    piece shorter than 13 bytes; it raises [InvalidMessageStructure] for
    neither. *)
Theorem dispatcher_wrong_size (first p1 p2 p3 id : byte) (rest : bytes) :
  ord first <> 19 -> ord id <= 9 ->
  let payload := first :: p1 :: p2 :: p3 :: id :: rest in
  if accepted_size (ord id) (len payload)
  then exists m, decode_message payload = Ok m
  else if ord id =? 7 then decode_message payload = Raise StructError
  else exists message, decode_message payload = Raise (ValueError message).
Proof.
  intros Hfirst Hid payload.
  pose proof (decode_message_tagged first p1 p2 p3 id rest Hfirst) as E.
  cbv zeta in E. fold payload in E. rewrite E. clear E.
  assert (Hlen : 5 <= len payload).
  { unfold payload. rewrite !len_cons. pose proof (len_nonneg rest). lia. }
  destruct id; cbn in Hid; try lia;
    cbn [ord Byte.to_N Z.of_N MessageDecoder._MESSAGE_CLASS accepted_size
         Z.eqb Pos.eqb].
  - apply id_only_sized. eexists. reflexivity.
  - apply id_only_sized. eexists. reflexivity.
  - apply id_only_sized. eexists. reflexivity.
  - apply id_only_sized. eexists. reflexivity.
  - apply have_sized.
  - pose proof (bitfield_sized payload) as H.
    destruct (Z.leb_spec 5 (len payload)); [exact H|lia].
  - apply request_sized.
  - apply piece_sized.
  - apply cancel_sized.
  - apply port_sized.
Qed.

Lemma dispatcher_wrong_size_witness :
  (exists message,
      decode_message [x00; x00; x00; x05; x04; x00; x00; x00; x01; x00]
      = Raise (ValueError message))
  /\ decode_message [x00; x00; x00; x09; x07; x00; x00] = Raise StructError.
Proof.
  split.
  - apply (dispatcher_wrong_size x00 x00 x00 x05 x04 [x00; x00; x00; x01; x00]);
      [discriminate|cbn; lia].
  - apply (dispatcher_wrong_size x00 x00 x00 x09 x07 [x00; x00]);
      [discriminate|cbn; lia].
Defined.
